(** * BookCode wave codes

    A shallow embedding of the code generator
    ([src/lib/services/codeGenerator.ts]), the theme model
    ([src/lib/types/theme.ts]), the image generator
    ([src/lib/services/imageGenerator.ts]: the bar metrics, the batches
    and the SVG the renderers write), the patterns of the schemas and the
    admin routes that issue codes, followed by the properties of these
    functions.

    JavaScript numbers are IEEE 754 binary64 values and are modelled by
    Rocq's primitive floats, which are the same format; integers that the
    code only ever uses as small whole numbers (character codes, ordinals,
    counts) are modelled by [Z].  A JavaScript string is a sequence of
    UTF-16 code units; a Rocq [string] stands for the string whose code
    units are its characters (so every unit is below 256), and the result
    of [toUpperCase], which can leave that range, is a list of code units. *)

From Stdlib Require Import ZArith List String Ascii Bool Lia.
From Stdlib Require Import Floats.PrimFloat Floats.SpecFloat Floats.FloatOps.
From Stdlib Require Import Floats.FloatAxioms.
From Stdlib Require Import Numbers.Cyclic.Int63.Uint63.
Import ListNotations.

Set Warnings "-inexact-float".

(* ================================================================= *)
(** ** The JavaScript built-ins the code relies on *)

Module JS.

Definition number := float.
Bind Scope float_scope with number.

(** The number with the integer value [z] (exact below 2^53). *)
Definition ofZ (z : Z) : number :=
  if (z <? 0)%Z then (- of_uint63 (of_Z (- z)))%float
  else of_uint63 (of_Z z).

(** [Math.min(a, b)]: NaN if either argument is NaN, and -0 below +0. *)
Definition Math_min (a b : number) : number :=
  if is_nan a || is_nan b then nan
  else if (a <? b)%float then a
  else if (b <? a)%float then b
  else if get_sign a then a else b.

(** [Math.max(a, b)]: NaN if either argument is NaN, and +0 above -0. *)
Definition Math_max (a b : number) : number :=
  if is_nan a || is_nan b then nan
  else if (b <? a)%float then a
  else if (a <? b)%float then b
  else if get_sign a then b else a.

(** [Math.round(x)]: the nearest integer, a tie going towards +infinity;
    zeros, infinities and NaN are returned as they are, and a result
    that is zero keeps the sign of [x].  A finite [x] is [m * 2^e] with
    [m < 2^53]; for [e < 0] the result is [floor (x + 1/2)], computed
    exactly on integers. *)
Definition Math_round (x : number) : number :=
  match Prim2SF x with
  | S754_finite s m e =>
      if (0 <=? e)%Z then x
      else
        let k := (- e)%Z in
        let sm := if s then Z.neg m else Z.pos m in
        let n := ((2 * sm + 2 ^ k) / 2 ^ (k + 1))%Z in
        if (n =? 0)%Z then (if s then neg_zero else zero) else ofZ n
  | _ => x
  end.

(** Code units of a string. *)
Definition units (s : string) : list N :=
  map N_of_ascii (list_ascii_of_string s).

(** The upper-case form of one code unit below 256, by the Unicode
    default case conversion that [String.prototype.toUpperCase] applies:
    a-z, the Latin-1 letters U+00E0-U+00FE (U+00F7, the division sign,
    excepted) move down by 32; U+00B5 becomes U+039C, U+00FF becomes
    U+0178, and U+00DF (sharp s) becomes the two units of "SS". *)
Definition upperUnit (u : N) : list N :=
  if (97 <=? u)%N && (u <=? 122)%N then [(u - 32)%N]
  else if (u =? 181)%N then [924%N]
  else if (u =? 223)%N then [83%N; 83%N]
  else if (224 <=? u)%N && (u <=? 254)%N && negb (u =? 247)%N then [(u - 32)%N]
  else if (u =? 255)%N then [376%N]
  else [u].

(** [s.toUpperCase()], as code units.  The strings of this model are
    those whose code units are below 256; a property meant for every
    JavaScript string is stated through the upper-cased string, or for
    the strings it names (ASCII, code units below 256). *)
Definition toUpperCase (s : string) : list N :=
  flat_map upperUnit (units s).

(** [a.push(x)]. *)
Definition push {A} (a : list A) (x : A) : list A := a ++ [x].

(** [a.forEach((x, idx) => ...)] on a callback that updates a state. *)
Fixpoint forEach_from {A S} (f : S -> A -> nat -> S) (idx : nat)
         (a : list A) (st : S) : S :=
  match a with
  | [] => st
  | x :: rest => forEach_from f (Datatypes.S idx) rest (f st x idx)
  end.

Definition forEach {A S} (a : list A) (f : S -> A -> nat -> S) (st : S) : S :=
  forEach_from f 0 a st.

(** A [Set] keeps its members in insertion order; [add] of a member
    already present changes nothing. *)
Section SetOf.
Context {A : Type} (eqb : A -> A -> bool).

Definition Set_has (s : list A) (x : A) : bool := existsb (eqb x) s.

Definition Set_add (s : list A) (x : A) : list A :=
  if Set_has s x then s else s ++ [x].

Definition Set_size (s : list A) : Z := Z.of_nat (List.length s).
End SetOf.

End JS.

(* ================================================================= *)
(** ** codeGenerator.ts *)

Module CodeGenerator.
Import JS.

Definition ALPHABET : string := "ABCDEFGHIJKLMNOPQRSTUVWXYZ0123456789".
Definition CODE_LENGTH : nat := 6.

(** One character of the class [[A-Z0-9]]. *)
Definition inClass (u : N) : bool :=
  ((65 <=? u)%N && (u <=? 90)%N) || ((48 <=? u)%N && (u <=? 57)%N).

(** [/^[A-Z0-9]{6}$/.test(s)] on the code units of [s]. *)
Definition validPattern_test (s : list N) : bool :=
  (List.length s =? 6)%nat && forallb inClass s.

Definition isValidCodeFormat (code : string) : bool :=
  if (String.length code =? 0)%nat
     || negb (String.length code =? CODE_LENGTH)%nat
  then false
  else validPattern_test (toUpperCase code).

(** The callback of [codeToNumericValues], on one code unit. *)
Definition charValue (char : N) : Z :=
  if (65 <=? char)%N && (char <=? 90)%N then (Z.of_N char - 65)%Z
  else if (48 <=? char)%N && (char <=? 57)%N then (Z.of_N char - 48 + 26)%Z
  else 0%Z.

Definition codeToNumericValues (code : string) : list Z :=
  map charValue (toUpperCase code).

(** The four arguments of [Math.min] in [codeToWavePattern], before the
    clamp. *)
Definition raw1 (normalizedVal : number) : number := (normalizedVal * 0.8 + 0.2)%float.
Definition raw2 (normalizedVal : number) : number := (normalizedVal * 1.1 + 0.1)%float.
Definition raw3 (normalizedVal : number) : number := (normalizedVal * 0.95 + 0.15)%float.
Definition raw4 (normalizedVal : number) : number := (normalizedVal * 0.85 + 0.2)%float.

Definition codeToWavePattern (code : string) : list number :=
  let charValues := codeToNumericValues code in
  let maxValue := 35%float in
  let bars : list number := [] in
  forEach charValues
    (fun (bars : list number) (val : Z) (idx : nat) =>
       let normalizedVal := (ofZ val / maxValue)%float in
       let seed := ((idx + 1) * 7)%nat in
       let bars := push bars (Math_min 1%float (raw1 normalizedVal)) in
       let bars := push bars (Math_min 1%float (raw2 normalizedVal)) in
       let bars := push bars (Math_min 1%float (raw3 normalizedVal)) in
       let bars := push bars (Math_min 1%float (raw4 normalizedVal)) in
       bars)
    bars.

(** [generateUniqueCodes]: [generateCode] is nanoid's generator for
    [ALPHABET] and [CODE_LENGTH]; its [k]-th call returns
    [generateCode k].  The loop state is the set and the number of calls
    made; [fuel] bounds the number of iterations. *)
Section Random.
Variable generateCode : nat -> string.

Fixpoint generateUniqueCodes_loop (fuel : nat) (count : Z) (calls : nat)
         (codes : list string) : option (list string) :=
  if (Set_size codes <? count)%Z then
    match fuel with
    | O => None
    | S fuel' =>
        generateUniqueCodes_loop fuel' count (S calls)
          (Set_add String.eqb codes (generateCode calls))
    end
  else Some codes.

Definition generateUniqueCodes (fuel : nat) (count : Z) : option (list string) :=
  generateUniqueCodes_loop fuel count 0 [].
End Random.

End CodeGenerator.

(* ================================================================= *)
(** ** theme.ts *)

Module Theme.
Import JS.
Local Open Scope string_scope.

Inductive ColorType := solid | gradient | dual_tone.
Inductive Shape := rectangle | rounded | circular | triangle.

Record ColorScheme := {
  type : ColorType;
  primary : string;
  secondary : option string;
  background : string;
  gradientAngle : option number
}.

Record BarStyle := {
  shape : Shape;
  thickness : number;
  spacing : number;
  roundness : option number
}.

Record Effects := {
  shadow : bool;
  shadowColor : option string;
  shadowBlur : option number;
  opacity : number
}.

Record Dimensions := {
  width : number;
  height : number;
  dpi : number
}.

Record ThemeConfig := {
  colorScheme : ColorScheme;
  barStyle : BarStyle;
  effects : Effects;
  dimensions : Dimensions
}.

Definition DEFAULT_THEME : ThemeConfig := {|
  colorScheme := {| type := solid; primary := "#000000"; secondary := None;
                    background := "#FFFFFF"; gradientAngle := None |};
  barStyle := {| shape := rectangle; thickness := 5; spacing := 3;
                 roundness := None |};
  effects := {| shadow := false; shadowColor := None; shadowBlur := None;
                opacity := 100 |};
  dimensions := {| width := 15; height := 5; dpi := 300 |}
|}.

(** The objects [mergeWithDefault] receives: any key of the theme, at
    either level, may be absent ([None]). *)
Module Partial.
Record ColorScheme := {
  type : option ColorType;
  primary : option string;
  secondary : option string;
  background : option string;
  gradientAngle : option number
}.
Record BarStyle := {
  shape : option Shape;
  thickness : option number;
  spacing : option number;
  roundness : option number
}.
Record Effects := {
  shadow : option bool;
  shadowColor : option string;
  shadowBlur : option number;
  opacity : option number
}.
Record Dimensions := {
  width : option number;
  height : option number;
  dpi : option number
}.
Record ThemeConfig := {
  colorScheme : option ColorScheme;
  barStyle : option BarStyle;
  effects : option Effects;
  dimensions : option Dimensions
}.
End Partial.

(** One key of [{ ...d, ...p }]: the value in [p] when [p] has the key,
    the value in [d] otherwise; [spread_optional] is the same for a key
    that [d] itself may lack. *)
Definition spread {A} (d : A) (p : option A) : A :=
  match p with Some v => v | None => d end.

Definition spread_optional {A} (d p : option A) : option A :=
  match p with Some v => Some v | None => d end.

(** [{ ...d, ...p }] for each section; spreading [undefined] adds no key. *)
Definition spread_ColorScheme (d : ColorScheme) (p : option Partial.ColorScheme)
  : ColorScheme :=
  match p with
  | None => d
  | Some p =>
      {| type := spread (type d) (Partial.type p);
         primary := spread (primary d) (Partial.primary p);
         secondary := spread_optional (secondary d) (Partial.secondary p);
         background := spread (background d) (Partial.background p);
         gradientAngle := spread_optional (gradientAngle d) (Partial.gradientAngle p) |}
  end.

Definition spread_BarStyle (d : BarStyle) (p : option Partial.BarStyle)
  : BarStyle :=
  match p with
  | None => d
  | Some p =>
      {| shape := spread (shape d) (Partial.shape p);
         thickness := spread (thickness d) (Partial.thickness p);
         spacing := spread (spacing d) (Partial.spacing p);
         roundness := spread_optional (roundness d) (Partial.roundness p) |}
  end.

Definition spread_Effects (d : Effects) (p : option Partial.Effects)
  : Effects :=
  match p with
  | None => d
  | Some p =>
      {| shadow := spread (shadow d) (Partial.shadow p);
         shadowColor := spread_optional (shadowColor d) (Partial.shadowColor p);
         shadowBlur := spread_optional (shadowBlur d) (Partial.shadowBlur p);
         opacity := spread (opacity d) (Partial.opacity p) |}
  end.

Definition spread_Dimensions (d : Dimensions) (p : option Partial.Dimensions)
  : Dimensions :=
  match p with
  | None => d
  | Some p =>
      {| width := spread (width d) (Partial.width p);
         height := spread (height d) (Partial.height p);
         dpi := spread (dpi d) (Partial.dpi p) |}
  end.

(** [partial] is [None] for [null]. *)
Definition mergeWithDefault (partial : option Partial.ThemeConfig) : ThemeConfig :=
  match partial with
  | None => DEFAULT_THEME
  | Some partial =>
      {| colorScheme :=
           spread_ColorScheme (colorScheme DEFAULT_THEME) (Partial.colorScheme partial);
         barStyle :=
           spread_BarStyle (barStyle DEFAULT_THEME) (Partial.barStyle partial);
         effects :=
           spread_Effects (effects DEFAULT_THEME) (Partial.effects partial);
         dimensions :=
           spread_Dimensions (dimensions DEFAULT_THEME) (Partial.dimensions partial) |}
  end.

(** The value of one character matched by [[a-f\d]] under the [i] flag. *)
Definition hexDigit (c : ascii) : option Z :=
  let u := N_of_ascii c in
  if (48 <=? u)%N && (u <=? 57)%N then Some (Z.of_N u - 48)%Z
  else if (65 <=? u)%N && (u <=? 70)%N then Some (Z.of_N u - 55)%Z
  else if (97 <=? u)%N && (u <=? 102)%N then Some (Z.of_N u - 87)%Z
  else None.

(** [parseInt] of a group of two hexadecimal digits, base 16. *)
Definition parseHexPair (hi lo : ascii) : option Z :=
  match hexDigit hi, hexDigit lo with
  | Some h, Some l => Some (16 * h + l)%Z
  | _, _ => None
  end.

Record RGB := { r : Z; g : Z; b : Z }.

(** [/^#?([a-f\d]{2})([a-f\d]{2})([a-f\d]{2})$/i.exec(hex)]. *)
Definition hexToRgb (hex : string) : option RGB :=
  let digits := match hex with
                | String "#" rest => rest
                | _ => hex
                end in
  match list_ascii_of_string digits with
  | [r1; r2; g1; g2; b1; b2] =>
      match parseHexPair r1 r2, parseHexPair g1 g2, parseHexPair b1 b2 with
      | Some r, Some g, Some b => Some {| r := r; g := g; b := b |}
      | _, _, _ => None
      end
  | _ => None
  end.

Module WarningType.
Inductive t := contrast | thickness | opacity | size | dpi.
End WarningType.

Module Severity.
Inductive t := warning | error.
End Severity.

Module Warning.
Record t := {
  type : WarningType.t;
  message : string;
  severity : Severity.t
}.
End Warning.
Definition ThemeValidationWarning := Warning.t.

(** [Math.pow] and [Number.prototype.toFixed] belong to the runtime and
    are not computed here; both are parameters. *)
Section Validation.
Variable Math_pow : number -> number -> number.
Variable toFixed : number -> Z -> string.
Local Open Scope float_scope.

Definition getLuminance (hex : string) : number :=
  match hexToRgb hex with
  | None => 0
  | Some rgb =>
      let channel (v : number) : number :=
        let v := v / 255 in
        if v <=? 0.03928 then v / 12.92
        else Math_pow ((v + 0.055) / 1.055) 2.4 in
      let r := channel (ofZ (r rgb)) in
      let g := channel (ofZ (g rgb)) in
      let b := channel (ofZ (b rgb)) in
      0.2126 * r + 0.7152 * g + 0.0722 * b
  end.

Definition getContrastRatio (color1 color2 : string) : number :=
  let l1 := getLuminance color1 in
  let l2 := getLuminance color2 in
  let lighter := Math_max l1 l2 in
  let darker := Math_min l1 l2 in
  (lighter + 0.05) / (darker + 0.05).

Definition validateTheme (theme : ThemeConfig) : list ThemeValidationWarning :=
  let warnings : list ThemeValidationWarning := [] in
  let contrast :=
    getContrastRatio (primary (colorScheme theme)) (background (colorScheme theme)) in
  let warnings :=
    if contrast <? 4.5 then
      push warnings
        {| Warning.type := WarningType.contrast;
           Warning.message :=
             ("Low contrast ratio (" ++ toFixed contrast 2
              ++ ":1). Recommended minimum is 4.5:1 for readability.")%string;
           Warning.severity :=
             if contrast <? 3 then Severity.error else Severity.warning |}
    else warnings in
  let warnings :=
    if thickness (barStyle theme) <? 2 then
      push warnings
        {| Warning.type := WarningType.thickness;
           Warning.message :=
             "Bar thickness is very thin. This may affect scanning reliability.";
           Warning.severity := Severity.warning |}
    else warnings in
  let warnings :=
    if opacity (effects theme) <? 70 then
      push warnings
        {| Warning.type := WarningType.opacity;
           Warning.message := "Low opacity may affect print and scan quality.";
           Warning.severity := Severity.warning |}
    else warnings in
  let warnings :=
    if width (dimensions theme) <? 5 then
      push warnings
        {| Warning.type := WarningType.size;
           Warning.message := "Width is very small. Minimum recommended is 5mm.";
           Warning.severity := Severity.warning |}
    else warnings in
  let warnings :=
    if dpi (dimensions theme) <? 300 then
      push warnings
        {| Warning.type := WarningType.dpi;
           Warning.message :=
             "DPI is too low for print quality. Minimum recommended is 300 DPI.";
           Warning.severity := Severity.error |}
    else warnings in
  warnings.
End Validation.

End Theme.

(* ================================================================= *)
(** ** imageGenerator.ts *)

Module ImageGenerator.
Import JS Theme.

(** The bar width and the bar gap of [generateThemedWaveCode], in
    pixels, from the merged theme. *)
Record BarMetrics := {
  baseBarWidth : number;
  baseBarGap : number
}.

Definition themedBarMetrics (theme : ThemeConfig) : BarMetrics :=
  let barStyle := barStyle theme in
  let dimensions := dimensions theme in
  let barWidthScale := (thickness barStyle / 5)%float in
  let spacingScale := (spacing barStyle / 3)%float in
  {| baseBarWidth :=
       Math_max 2 (Math_round (4 * barWidthScale * (dpi dimensions / 300))%float);
     baseBarGap :=
       Math_max 1 (Math_round (2 * spacingScale * (dpi dimensions / 300))%float) |}.

(** The outcome of awaiting a promise. *)
Inductive Promise (A : Type) : Type :=
| resolved (value : A)
| rejected (reason : string).
Arguments resolved {A} value.
Arguments rejected {A} reason.

Definition await {A B} (p : Promise A) (k : A -> Promise B) : Promise B :=
  match p with
  | resolved a => k a
  | rejected e => rejected e
  end.

(** [Promise.all]: the values in order when every promise resolves, a
    rejection as soon as one rejects (here with the reason of the first
    rejected promise of the list). *)
Fixpoint Promise_all {A} (ps : list (Promise A)) : Promise (list A) :=
  match ps with
  | [] => resolved []
  | p :: rest =>
      match p with
      | rejected e => rejected e
      | resolved a =>
          match Promise_all rest with
          | resolved l => resolved (a :: l)
          | rejected e => rejected e
          end
      end
  end.

(** A [Map] with string keys, in insertion order. *)
Definition Map (V : Type) := list (string * V).

Fixpoint Map_set {V} (m : Map V) (k : string) (v : V) : Map V :=
  match m with
  | [] => [(k, v)]
  | (k', v') :: rest =>
      if String.eqb k' k then (k', v) :: rest else (k', v') :: Map_set rest k v
  end.

Fixpoint Map_get {V} (m : Map V) (k : string) : option V :=
  match m with
  | [] => None
  | (k', v') :: rest => if String.eqb k' k then Some v' else Map_get rest k
  end.

Definition slice {A} (a : list A) (i j : nat) : list A :=
  firstn (j - i) (skipn i a).

Definition batchSize : nat := 50.

(** The values [i] takes in [for (let i = 0; i < n; i += batchSize)]. *)
Definition batchStarts (n : nat) : list nat :=
  map (fun k => k * batchSize) (seq 0 ((n + (batchSize - 1)) / batchSize)).

Section Render.
Variable Buffer : Type.

(** The body shared by [generateWaveCodes] and
    [generateThemedWaveCodes]: [renderOne] is the call made for each
    code.  An iteration that throws ends the function. *)
Definition renderBatches (renderOne : string -> Promise Buffer)
           (codes : list string) : Promise (Map Buffer) :=
  let results : Map Buffer := [] in
  fold_left
    (fun (state : Promise (Map Buffer)) (i : nat) =>
       await state (fun results =>
         let batch := slice codes i (i + batchSize) in
         let promises :=
           map (fun code =>
                  await (renderOne code)
                        (fun buffer => resolved (code, buffer)))
               batch in
         await (Promise_all promises) (fun batchResults =>
           resolved
             (fold_left (fun results cb => Map_set results (fst cb) (snd cb))
                        batchResults results))))
    (batchStarts (List.length codes))
    (resolved results).

(** The single-code renderers build an SVG text and hand it to the
    [sharp] library; what [sharp] returns for the image of a code is the
    parameter, [generateWaveCode] for the plain renderer and
    [rasterize] for the themed one, which sees the merged theme. *)
Variable WaveCodeOptions : Type.
Variable generateWaveCode : string -> WaveCodeOptions -> Promise Buffer.
Variable rasterize : string -> ThemeConfig -> Promise Buffer.

Definition generateThemedWaveCode (code : string)
           (themeConfig : option Partial.ThemeConfig) : Promise Buffer :=
  let theme := mergeWithDefault themeConfig in
  rasterize code theme.

Definition generateWaveCodes (codes : list string) (options : WaveCodeOptions)
  : Promise (Map Buffer) :=
  renderBatches (fun code => generateWaveCode code options) codes.

Definition generateThemedWaveCodes (codes : list string)
           (themeConfig : option Partial.ThemeConfig) : Promise (Map Buffer) :=
  renderBatches (fun code => generateThemedWaveCode code themeConfig) codes.
End Render.

End ImageGenerator.

(* ================================================================= *)
(** ** validation.ts and the theme route: the schemas met at the boundary *)

Module Validation.
Import JS CodeGenerator Theme.

(** [codeSchema = z.string().regex(/^[A-Z0-9]{6}$/)] on a string. *)
Definition codeSchema (code : string) : bool :=
  validPattern_test (units code).

(** One character of [[0-9A-Fa-f]]. *)
Definition hexClass (c : ascii) : bool :=
  let u := N_of_ascii c in
  ((48 <=? u)%N && (u <=? 57)%N) || ((65 <=? u)%N && (u <=? 70)%N)
  || ((97 <=? u)%N && (u <=? 102)%N).

(** [/^#[0-9A-Fa-f]{6}$/.test(s)], the colour pattern of
    [themeConfigSchema]. *)
Definition colorPattern_test (s : string) : bool :=
  match s with
  | String "#" digits =>
      (String.length digits =? 6)%nat
      && forallb hexClass (list_ascii_of_string digits)
  | _ => false
  end.

End Validation.

(* ================================================================= *)
(** ** theme.ts: the presets, and a theme passed where a partial theme is
    expected *)

Module Presets.
Import JS Theme.
Local Open Scope string_scope.

(** A [ThemeConfig] read as a [Partial<ThemeConfig>]: the same object,
    every required key present, an optional key present when it has a
    value. *)
Definition asPartial (theme : ThemeConfig) : Partial.ThemeConfig :=
  {| Partial.colorScheme :=
       Some {| Partial.type := Some (type (colorScheme theme));
               Partial.primary := Some (primary (colorScheme theme));
               Partial.secondary := secondary (colorScheme theme);
               Partial.background := Some (background (colorScheme theme));
               Partial.gradientAngle := gradientAngle (colorScheme theme) |};
     Partial.barStyle :=
       Some {| Partial.shape := Some (shape (barStyle theme));
               Partial.thickness := Some (thickness (barStyle theme));
               Partial.spacing := Some (spacing (barStyle theme));
               Partial.roundness := roundness (barStyle theme) |};
     Partial.effects :=
       Some {| Partial.shadow := Some (shadow (effects theme));
               Partial.shadowColor := shadowColor (effects theme);
               Partial.shadowBlur := shadowBlur (effects theme);
               Partial.opacity := Some (opacity (effects theme)) |};
     Partial.dimensions :=
       Some {| Partial.width := Some (width (dimensions theme));
               Partial.height := Some (height (dimensions theme));
               Partial.dpi := Some (dpi (dimensions theme)) |} |}.

Definition presetColors (ty : ColorType) (primary : string)
           (secondary : option string) (background : string)
           (gradientAngle : option number) : option Partial.ColorScheme :=
  Some {| Partial.type := Some ty; Partial.primary := Some primary;
          Partial.secondary := secondary; Partial.background := Some background;
          Partial.gradientAngle := gradientAngle |}.

Definition presetBars (sh : Shape) (thickness spacing : number)
           (roundness : option number) : option Partial.BarStyle :=
  Some {| Partial.shape := Some sh; Partial.thickness := Some thickness;
          Partial.spacing := Some spacing; Partial.roundness := roundness |}.

(** [PRESET_THEMES], in the order of its keys. *)
Definition PRESET_THEMES : list (string * Partial.ThemeConfig) :=
  [ ("classic",
     {| Partial.colorScheme := presetColors solid "#000000" None "#FFFFFF" None;
        Partial.barStyle := presetBars rectangle 5%float 3%float None;
        Partial.effects := None; Partial.dimensions := None |});
    ("elegantGold",
     {| Partial.colorScheme :=
          presetColors gradient "#D4AF37" (Some "#FFD700") "#FFFEF0" (Some 90%float);
        Partial.barStyle := presetBars rounded 4%float 2%float (Some 30%float);
        Partial.effects := None; Partial.dimensions := None |});
    ("oceanBlue",
     {| Partial.colorScheme :=
          presetColors gradient "#0077BE" (Some "#00C9FF") "#F0F8FF" (Some 45%float);
        Partial.barStyle := presetBars rounded 5%float 3%float (Some 50%float);
        Partial.effects := None; Partial.dimensions := None |});
    ("forestGreen",
     {| Partial.colorScheme :=
          presetColors dual_tone "#2D5016" (Some "#7CB342") "#F1F8E9" None;
        Partial.barStyle := presetBars rectangle 6%float 2%float None;
        Partial.effects := None; Partial.dimensions := None |});
    ("sunsetGradient",
     {| Partial.colorScheme :=
          presetColors gradient "#FF6B6B" (Some "#FFD93D") "#FFF9E6" (Some 135%float);
        Partial.barStyle := presetBars rounded 5%float 3%float (Some 40%float);
        Partial.effects := None; Partial.dimensions := None |});
    ("midnightPurple",
     {| Partial.colorScheme :=
          presetColors gradient "#2D1B69" (Some "#6B4C9A") "#F3F0FF" (Some 90%float);
        Partial.barStyle := presetBars circular 4%float 4%float None;
        Partial.effects :=
          Some {| Partial.shadow := Some true;
                  Partial.shadowColor := Some "#000000";
                  Partial.shadowBlur := Some 2%float;
                  Partial.opacity := Some 90%float |};
        Partial.dimensions := None |}) ].

End Presets.

(* ================================================================= *)
(** ** More JavaScript built-ins, for the renderers *)

Module JSMore.
Import JS.

(** [Math.floor(x)]: zeros, infinities and NaN as they are; a finite [x]
    is [m * 2^e], already whole when [e >= 0]. *)
Definition Math_floor (x : number) : number :=
  match Prim2SF x with
  | S754_finite s m e =>
      if (0 <=? e)%Z then x
      else
        let sm := if s then Z.neg m else Z.pos m in
        let n := (sm / 2 ^ (- e))%Z in
        if (n =? 0)%Z then zero else ofZ n
  | _ => x
  end.

(** The truth value of a number ([0], [-0] and NaN are false) and of a
    string (the empty string is false); [a || d] on an optional value. *)
Definition truthy_number (x : number) : bool :=
  negb (PrimFloat.is_zero x || is_nan x).

Definition truthy_string (s : string) : bool :=
  negb (String.eqb s "").

Definition number_or (a : option number) (d : number) : number :=
  match a with
  | Some x => if truthy_number x then x else d
  | None => d
  end.

Definition string_or (a : option string) (d : string) : string :=
  match a with
  | Some s => if truthy_string s then s else d
  | None => d
  end.

(** [ToIntegerOrInfinity]. *)
Inductive IntegerOrInfinity :=
| finite (z : Z)
| plusInfinity
| minusInfinity.

Definition toIntegerOrInfinity (x : number) : IntegerOrInfinity :=
  match Prim2SF x with
  | S754_nan => finite 0
  | S754_zero _ => finite 0
  | S754_infinity s => if s then minusInfinity else plusInfinity
  | S754_finite s m e =>
      let sm := if s then Z.neg m else Z.pos m in
      finite (if (0 <=? e)%Z then sm * 2 ^ e else Z.quot sm (2 ^ (- e)))%Z
  end.

(** [a.slice(0, end)]. *)
Definition slice0 {A} (a : list A) (end_ : number) : list A :=
  let len := Z.of_nat (List.length a) in
  let final :=
    match toIntegerOrInfinity end_ with
    | minusInfinity => 0%Z
    | plusInfinity => len
    | finite relativeEnd =>
        if (relativeEnd <? 0)%Z then Z.max (len + relativeEnd) 0
        else Z.min relativeEnd len
    end in
  firstn (Z.to_nat final) a.

(** The number of turns of [for (let i = 0; i < n; i++)]: none when [n] is
    NaN or not positive; the loop does not end when [n] is infinite or
    above 2^53, where [i++] stops changing [i]. *)
Definition loopCount (n : number) : option nat :=
  match Prim2SF n with
  | S754_finite false m e =>
      let turns :=
        (if (0 <=? e)%Z then Z.pos m * 2 ^ e
         else (Z.pos m + 2 ^ (- e) - 1) / 2 ^ (- e))%Z in
      if (turns <=? 2 ^ 53)%Z then Some (Z.to_nat turns) else None
  | S754_infinity false => None
  | _ => Some 0
  end.

(** [a.map((x, i) => f(x, i))]. *)
Fixpoint mapi_from {A B} (f : A -> nat -> B) (i : nat) (a : list A) : list B :=
  match a with
  | [] => []
  | x :: rest => f x i :: mapi_from f (S i) rest
  end.

Definition mapi {A B} (f : A -> nat -> B) (a : list A) : list B :=
  mapi_from f 0 a.

End JSMore.

(* ================================================================= *)
(** ** imageGenerator.ts: what the renderers draw

    The renderers write an SVG text and hand it to [sharp].  The text is
    modelled by what it says: the canvas, the background, the definitions
    and the elements of the bars with their attributes, numbers kept as
    numbers. *)

Module Renderer.
Import JS JSMore CodeGenerator Theme ImageGenerator Presets.
Local Open Scope string_scope.

Module Options.
Record t := {
  width : number;
  height : number;
  barWidth : number;
  barGap : number;
  backgroundColor : string;
  barColor : string;
  dpi : number
}.
End Options.

(** [WaveCodeOptions]: every key optional. *)
Module WaveCodeOptions.
Record t := {
  width : option number;
  height : option number;
  barWidth : option number;
  barGap : option number;
  backgroundColor : option string;
  barColor : option string;
  dpi : option number
}.

(** [{}]. *)
Definition empty : t :=
  {| width := None; height := None; barWidth := None; barGap := None;
     backgroundColor := None; barColor := None; dpi := None |}.
End WaveCodeOptions.

Definition DEFAULT_OPTIONS : Options.t :=
  {| Options.width := 180%float;
     Options.height := 60%float;
     Options.barWidth := 4%float;
     Options.barGap := 2%float;
     Options.backgroundColor := "#FFFFFF";
     Options.barColor := "#000000";
     Options.dpi := 300%float |}.

(** One [<rect .../>] of the plain renderer. *)
Module Rect.
Record t := {
  x : number;
  y : number;
  width : number;
  height : number;
  rx : number;
  fill : string
}.
End Rect.

Module Svg.
Record t := {
  width : number;
  height : number;
  background : string;
  bars : list Rect.t
}.
End Svg.

(** [{ ...DEFAULT_OPTIONS, ...options }]. *)
Definition mergedOptions (options : WaveCodeOptions.t) : Options.t :=
  {| Options.width := spread (Options.width DEFAULT_OPTIONS) (WaveCodeOptions.width options);
     Options.height := spread (Options.height DEFAULT_OPTIONS) (WaveCodeOptions.height options);
     Options.barWidth :=
       spread (Options.barWidth DEFAULT_OPTIONS) (WaveCodeOptions.barWidth options);
     Options.barGap := spread (Options.barGap DEFAULT_OPTIONS) (WaveCodeOptions.barGap options);
     Options.backgroundColor :=
       spread (Options.backgroundColor DEFAULT_OPTIONS)
              (WaveCodeOptions.backgroundColor options);
     Options.barColor :=
       spread (Options.barColor DEFAULT_OPTIONS) (WaveCodeOptions.barColor options);
     Options.dpi := spread (Options.dpi DEFAULT_OPTIONS) (WaveCodeOptions.dpi options) |}.

(** The SVG that [generateWaveCode] hands to [sharp], which makes the PNG
    of it at the density [dpi] of the merged options. *)
Definition generateWaveCode_svg (code : string) (options : WaveCodeOptions.t) : Svg.t :=
  let opts := mergedOptions options in
  let width := Options.width opts in
  let height := Options.height opts in
  let barWidth := Options.barWidth opts in
  let barGap := Options.barGap opts in
  let backgroundColor := Options.backgroundColor opts in
  let barColor := Options.barColor opts in
  let wavePattern := codeToWavePattern code in
  let totalBarWidth := (barWidth + barGap)%float in
  let numBars :=
    Math_min (ofZ (Z.of_nat (List.length wavePattern)))
             (Math_floor (width / totalBarWidth)%float) in
  let totalBarsWidth := (numBars * totalBarWidth - barGap)%float in
  let startX := Math_floor ((width - totalBarsWidth) / 2)%float in
  let bars :=
    mapi (fun (amplitude : number) (i : nat) =>
            let x := (startX + ofZ (Z.of_nat i) * totalBarWidth)%float in
            let barHeight :=
              Math_max 4%float (Math_floor (amplitude * (height - 8))%float) in
            let y := Math_floor ((height - barHeight) / 2)%float in
            {| Rect.x := x; Rect.y := y; Rect.width := barWidth;
               Rect.height := barHeight; Rect.rx := 1%float;
               Rect.fill := barColor |})
         (slice0 wavePattern numBars) in
  {| Svg.width := width; Svg.height := height;
     Svg.background := backgroundColor; Svg.bars := bars |}.

(** [{ width: 177, height: 59, barWidth: 4, barGap: 2, dpi: 300,
    ...options }] of [generatePrintableWaveCode]. *)
Definition printableOptions (options : WaveCodeOptions.t) : WaveCodeOptions.t :=
  {| WaveCodeOptions.width :=
       spread_optional (Some 177%float) (WaveCodeOptions.width options);
     WaveCodeOptions.height :=
       spread_optional (Some 59%float) (WaveCodeOptions.height options);
     WaveCodeOptions.barWidth :=
       spread_optional (Some 4%float) (WaveCodeOptions.barWidth options);
     WaveCodeOptions.barGap :=
       spread_optional (Some 2%float) (WaveCodeOptions.barGap options);
     WaveCodeOptions.backgroundColor :=
       spread_optional None (WaveCodeOptions.backgroundColor options);
     WaveCodeOptions.barColor :=
       spread_optional None (WaveCodeOptions.barColor options);
     WaveCodeOptions.dpi :=
       spread_optional (Some 300%float) (WaveCodeOptions.dpi options) |}.

(** The options of [generatePreviewWaveCode]. *)
Definition previewOptions : WaveCodeOptions.t :=
  {| WaveCodeOptions.width := Some 120%float;
     WaveCodeOptions.height := Some 40%float;
     WaveCodeOptions.barWidth := Some 3%float;
     WaveCodeOptions.barGap := Some 1%float;
     WaveCodeOptions.backgroundColor := None;
     WaveCodeOptions.barColor := None;
     WaveCodeOptions.dpi := Some 72%float |}.

(* ----------------------------------------------------------------- *)
(** *** The themed renderer *)

Definition mmToPixels (mm dpi : number) : number :=
  Math_round ((mm / 25.4) * dpi)%float.

Record LinearGradient := {
  gradientId : string;
  x1 : number;
  y1 : number;
  x2 : number;
  y2 : number;
  stop0 : string;
  stop100 : string
}.

(** The [feDropShadow] of the filter "shadow": [dx] and [dy] are 1 and the
    flood opacity 0.5. *)
Record DropShadow := {
  stdDeviation : number;
  floodColor : string
}.

Record Defs := {
  gradientDef : option LinearGradient;
  shadowDef : option DropShadow
}.

(** One element of a bar, as [createBarPath] writes it. *)
Inductive Element :=
| rectElement (x y width height : number) (rx : option number)
| circleElement (cx cy r : number)
| polygonElement (points : list (number * number)).

(** An element with the attributes spliced into it: [fill] is absent
    ([None]) and [filterRef] false when the splice did not reach it. *)
Record Styled := {
  element : Element;
  fill : option string;
  filterRef : bool
}.

Record ThemedSvg := {
  svgWidth : number;
  svgHeight : number;
  defs : Defs;
  backgroundFill : string;
  groupOpacity : option number;
  themedBars : list Styled
}.

Definition Math_PI : number := 3.141592653589793%float.

Section Trigonometry.
Variable Math_cos : number -> number.
Variable Math_sin : number -> number.

Definition createGradientDef (id primary secondary : string) (angle : number)
  : LinearGradient :=
  let rad := ((angle * Math_PI) / 180)%float in
  {| gradientId := id;
     x1 := (50 - 50 * Math_cos rad)%float;
     y1 := (50 - 50 * Math_sin rad)%float;
     x2 := (50 + 50 * Math_cos rad)%float;
     y2 := (50 + 50 * Math_sin rad)%float;
     stop0 := primary;
     stop100 := secondary |}.

(** [createBarPath]; [roundness] is 0 when the theme has none.  [None]
    when the loop over the circles does not end. *)
Definition createBarPath (x y width height : number) (shape : Shape)
           (roundness : option number) : option (list Element) :=
  let roundness := match roundness with Some r => r | None => 0%float end in
  match shape with
  | rounded =>
      let rx := Math_min (width / 2)%float ((roundness / 100) * (width / 2))%float in
      Some [rectElement x y width height (Some rx)]
  | circular =>
      let cx := (x + width / 2)%float in
      let r := (width / 2)%float in
      let numCircles := Math_max 1%float (Math_floor (height / (width + 1))%float) in
      let circleSpacing := (height / numCircles)%float in
      match loopCount numCircles with
      | None => None
      | Some turns =>
          Some (map (fun i =>
                       let cy := (y + circleSpacing / 2
                                  + ofZ (Z.of_nat i) * circleSpacing)%float in
                       circleElement cx cy r)
                    (seq 0 turns))
      end
  | triangle =>
      let midX := (x + width / 2)%float in
      Some [polygonElement [(midX, y); ((x + width)%float, (y + height)%float);
                            (x, (y + height)%float)]]
  | rectangle => Some [rectElement x y width height None]
  end.

(** [path.replace('/>', ' fill=... filter=.../>')]: every element ends in
    [/>], which occurs nowhere else, and [replace] with a string changes
    the first occurrence only; the two replacements that follow look for
    [/circle>] and [</polygon>], which the self-closing elements never
    contain. *)
Definition spliceAttributes (barFill : string) (filterRef : bool)
           (path : list Element) : list Styled :=
  match path with
  | [] => []
  | first :: rest =>
      {| element := first; fill := Some barFill; filterRef := filterRef |}
      :: map (fun e => {| element := e; fill := None; filterRef := false |}) rest
  end.

Fixpoint sequence {A} (l : list (option A)) : option (list A) :=
  match l with
  | [] => Some []
  | None :: _ => None
  | Some a :: rest =>
      match sequence rest with
      | Some r => Some (a :: r)
      | None => None
      end
  end.

(** A colour on which no [replace] can act: the replacement text gives a
    meaning to [$], and the patterns looked for all end in [>]. *)
Definition verbatim (color : string) : bool :=
  forallb (fun c => negb (Ascii.eqb c "$") && negb (Ascii.eqb c ">"))
          (list_ascii_of_string color).

Definition verbatim_optional (color : option string) : bool :=
  match color with
  | Some c => verbatim c
  | None => true
  end.

(** What [generateThemedWaveCode] builds: the SVG it hands to [sharp]
    ([written]); nothing, when the loop over the circles does not end
    ([unending]); or a text that this description does not cover
    ([uncovered]), when a colour of the theme is not [verbatim]. *)
Inductive Rendering :=
| written (svg : ThemedSvg)
| unending
| uncovered.

Definition generateThemedWaveCode_svg (code : string)
           (themeConfig : option Partial.ThemeConfig) : Rendering :=
  let theme := mergeWithDefault themeConfig in
  let colorScheme := colorScheme theme in
  let barStyle := barStyle theme in
  let effects := effects theme in
  let dimensions := dimensions theme in
  let width := mmToPixels (width dimensions) (dpi dimensions) in
  let height := mmToPixels (height dimensions) (dpi dimensions) in
  let wavePattern := codeToWavePattern code in
  let baseBarWidth := baseBarWidth (themedBarMetrics theme) in
  let baseBarGap := baseBarGap (themedBarMetrics theme) in
  let totalBarWidth := (baseBarWidth + baseBarGap)%float in
  let numBars :=
    Math_min (ofZ (Z.of_nat (List.length wavePattern)))
             (Math_floor (width / totalBarWidth)%float) in
  let totalBarsWidth := (numBars * totalBarWidth - baseBarGap)%float in
  let startX := Math_floor ((width - totalBarsWidth) / 2)%float in
  let hasSecondary :=
    match secondary colorScheme with
    | Some s => truthy_string s
    | None => false
    end in
  let useGradient :=
    match type colorScheme with gradient => hasSecondary | _ => false end in
  let gradient :=
    if useGradient
    then Some (createGradientDef "barGradient" (primary colorScheme)
                 (string_or (secondary colorScheme) "")
                 (number_or (gradientAngle colorScheme) 90%float))
    else None in
  let fillRef := if useGradient then "url(#barGradient)" else primary colorScheme in
  let shadowFilter :=
    if shadow effects
    then Some {| stdDeviation := number_or (shadowBlur effects) 2%float;
                 floodColor := string_or (shadowColor effects) "#000000" |}
    else None in
  let filterRef := shadow effects in
  let bars :=
    mapi (fun (amplitude : number) (i : nat) =>
            let x := (startX + ofZ (Z.of_nat i) * totalBarWidth)%float in
            let barHeight :=
              Math_max 4%float (Math_floor (amplitude * (height - 8))%float) in
            let y := Math_floor ((height - barHeight) / 2)%float in
            let barFill :=
              match type colorScheme with
              | dual_tone =>
                  if hasSecondary
                  then if (i mod 2 =? 0)%nat then primary colorScheme
                       else string_or (secondary colorScheme) ""
                  else fillRef
              | _ => fillRef
              end in
            match createBarPath x y baseBarWidth barHeight (shape barStyle)
                                (roundness barStyle) with
            | Some path => Some (spliceAttributes barFill filterRef path)
            | None => None
            end)
         (slice0 wavePattern numBars) in
  let opacityStyle :=
    if (opacity effects <? 100)%float then Some (opacity effects / 100)%float
    else None in
  if verbatim (primary colorScheme)
     && verbatim_optional (secondary colorScheme)
     && verbatim_optional (shadowColor effects)
  then
    match sequence bars with
    | Some bars =>
        written {| svgWidth := width; svgHeight := height;
                   defs := {| gradientDef := gradient; shadowDef := shadowFilter |};
                   backgroundFill := background colorScheme;
                   groupOpacity := opacityStyle;
                   themedBars := List.concat bars |}
    | None => unending
    end
  else uncovered.

(** [generateThemedPreviewWaveCode]: the merged theme at 72 dpi, passed
    to [generateThemedWaveCode]; [generateThemedWaveCodeDataUrl] is the
    data URL of its PNG. *)
Definition previewTheme (themeConfig : option Partial.ThemeConfig) : ThemeConfig :=
  let theme := mergeWithDefault themeConfig in
  {| colorScheme := Theme.colorScheme theme;
     barStyle := Theme.barStyle theme;
     effects := Theme.effects theme;
     dimensions := {| width := width (Theme.dimensions theme);
                      height := height (Theme.dimensions theme);
                      dpi := 72%float |} |}.

Definition generateThemedPreviewWaveCode_svg (code : string)
           (themeConfig : option Partial.ThemeConfig) : Rendering :=
  generateThemedWaveCode_svg code (Some (asPartial (previewTheme themeConfig))).
End Trigonometry.

End Renderer.

(* ================================================================= *)
(** ** The admin routes that issue codes

    [POST /api/admin/pages/[id]/regenerate] and
    [POST /api/admin/books/[id]/generate-codes], from the choice of a
    code on.  The table of pages is the list of the codes in use, and the
    database is taken to answer the lookups; [generateUniqueCode] is the
    sequence of its results, numbered from the first call of the
    request. *)

Module Routes.
Import JS CodeGenerator ImageGenerator.
Local Open Scope string_scope.

Definition maxAttempts : nat := 10.

(** [prisma.page.findUnique({ where: { code } })], as a truth value. *)
Definition findUnique (pages : list string) (code : string) : bool :=
  existsb (String.eqb code) pages.

Section Regenerate.
Variable generateUniqueCode : nat -> string.

(** [do { newCode = generateUniqueCode(); attempts++; ...; if (!existing)
    break } while (attempts < maxAttempts)]: the code and the attempts
    when the loop is left. *)
Fixpoint regenerate_loop (fuel : nat) (pages : list string) (calls attempts : nat)
  : option (string * nat) :=
  match fuel with
  | O => None
  | S fuel' =>
      let newCode := generateUniqueCode calls in
      let attempts := S attempts in
      let existing := findUnique pages newCode in
      if negb existing then Some (newCode, attempts)
      else if (attempts <? maxAttempts)%nat
           then regenerate_loop fuel' pages (S calls) attempts
           else Some (newCode, attempts)
  end.

(** The code the route goes on with, or its answer 500
    "Failed to generate unique code". *)
Inductive NewCode :=
| chosen (newCode : string)
| failedToGenerate.

Definition regenerate_newCode (fuel : nat) (pages : list string) : option NewCode :=
  match regenerate_loop fuel pages 0 0 with
  | None => None
  | Some (newCode, attempts) =>
      Some (if (maxAttempts <=? attempts)%nat then failedToGenerate
            else chosen newCode)
  end.
End Regenerate.

Record AudioLinkInput := {
  pageNumber : number;
  audioLink : string
}.

Module Result.
Record t := {
  pageNumber : number;
  code : string;
  imageUrl : string;
  success : bool;
  error : option string
}.
End Result.

(** The variables of the loop over the pages: the calls of the generator
    so far, [existingCodes], the table and [results]. *)
Record State := {
  calls : nat;
  existingCodes : list string;
  pages : list string;
  results : list Result.t
}.

Record Response := {
  response_success : bool;
  totalPages : nat;
  successfulPages : nat;
  failedPages : nat;
  response_results : list Result.t
}.

Section GenerateCodes.
Variable generateUniqueCode : nat -> string.
Variable Buffer : Type.
(** The image, its storage (the upload or the data URL) and
    [prisma.page.create], each of which may throw. *)
Variable generatePrintableWaveCode : string -> Promise Buffer.
Variable storeImage : string -> Buffer -> Promise string.
Variable createPage : AudioLinkInput -> string -> string -> Promise unit.

(** [do { code = generateUniqueCode(); attempts++ } while
    ((existingCodes.has(code) || findUnique(code)) && attempts <
    maxAttempts)]: the code, the attempts and the calls made. *)
Fixpoint generate_loop (fuel : nat) (existingCodes pages : list string)
         (calls attempts : nat) : option (string * nat * nat) :=
  match fuel with
  | O => None
  | S fuel' =>
      let code := generateUniqueCode calls in
      let attempts := S attempts in
      if (Set_has String.eqb existingCodes code || findUnique pages code)
         && (attempts <? maxAttempts)%nat
      then generate_loop fuel' existingCodes pages (S calls) attempts
      else Some (code, attempts, S calls)
  end.

Definition failure (pageNumber : number) (message : string) : Result.t :=
  {| Result.pageNumber := pageNumber; Result.code := ""; Result.imageUrl := "";
     Result.success := false; Result.error := Some message |}.

(** One turn of [for (const { pageNumber, audioLink } of audioLinks)]. *)
Definition generate_page (fuel : nat) (state : State) (link : AudioLinkInput)
  : option State :=
  match generate_loop fuel (existingCodes state) (pages state) (calls state) 0 with
  | None => None
  | Some (code, attempts, calls) =>
      if (maxAttempts <=? attempts)%nat then
        Some {| calls := calls;
                existingCodes := existingCodes state;
                pages := pages state;
                results :=
                  push (results state)
                       (failure (pageNumber link) "Failed to generate unique code") |}
      else
        let existingCodes := Set_add String.eqb (existingCodes state) code in
        let stored :=
          await (generatePrintableWaveCode code) (fun imageBuffer =>
          await (storeImage code imageBuffer) (fun imageUrl =>
          await (createPage link code imageUrl) (fun _ =>
          resolved imageUrl))) in
        match stored with
        | resolved imageUrl =>
            Some {| calls := calls;
                    existingCodes := existingCodes;
                    pages := push (pages state) code;
                    results :=
                      push (results state)
                           {| Result.pageNumber := pageNumber link;
                              Result.code := code;
                              Result.imageUrl := imageUrl;
                              Result.success := true;
                              Result.error := None |} |}
        | rejected message =>
            Some {| calls := calls;
                    existingCodes := existingCodes;
                    pages := pages state;
                    results := push (results state)
                                    (failure (pageNumber link) message) |}
        end
  end.

Fixpoint generate_pages (fuel : nat) (state : State) (audioLinks : list AudioLinkInput)
  : option State :=
  match audioLinks with
  | [] => Some state
  | link :: rest =>
      match generate_page fuel state link with
      | Some state' => generate_pages fuel state' rest
      | None => None
      end
  end.

(** The route from the deletion of the former pages of the book on:
    [pages] is the table after it. *)
Definition generate_codes (fuel : nat) (pages : list string)
           (audioLinks : list AudioLinkInput) : option Response :=
  let state :=
    {| calls := 0; existingCodes := []; pages := pages; results := [] |} in
  match generate_pages fuel state audioLinks with
  | None => None
  | Some state =>
      let results := results state in
      let successfulPages := List.length (List.filter Result.success results) in
      let failedCount :=
        List.length (List.filter (fun r => negb (Result.success r)) results) in
      Some {| response_success := (failedCount =? 0)%nat;
              totalPages := List.length audioLinks;
              successfulPages := successfulPages;
              failedPages := failedCount;
              response_results := results |}
  end.
End GenerateCodes.

End Routes.

(* ================================================================= *)
(** ** Vocabulary of the statements and of the proofs *)

Import JS CodeGenerator Theme ImageGenerator.

(** The ordinals of the alphabet, for proofs by enumeration. *)
Definition ordinals : list Z := map Z.of_nat (seq 0 36).

(** The four bars [codeToWavePattern] pushes for one character value. *)
Definition barsOf (val : Z) : list number :=
  let normalizedVal := (ofZ val / 35)%float in
  [Math_min 1 (raw1 normalizedVal); Math_min 1 (raw2 normalizedVal);
   Math_min 1 (raw3 normalizedVal); Math_min 1 (raw4 normalizedVal)].

Definition inUnit (x : number) : Prop :=
  (0 <=? x)%float = true /\ (x <=? 1)%float = true.

(** The first bar of an ordinal, as [codeToWavePattern] pushes it. *)
Definition bar1 (v : Z) : number := Math_min 1 (raw1 (ofZ v / 35)%float).

(** The set after [k] calls of the generator. *)
Fixpoint collected (generateCode : nat -> string) (k : nat) : list string :=
  match k with
  | O => []
  | S k' => Set_add String.eqb (collected generateCode k') (generateCode k')
  end.

(** A generator whose second call repeats the first. *)
Definition sampleDraws (k : nat) : string :=
  nth k ["AAAAAA"; "AAAAAA"; "ABC123"]%string "ZZZZZZ"%string.

(** [m] is the merged value of a key with default [d] and partial value
    [p]: the default when the partial lacks the key, the partial's value
    otherwise. *)
Definition mergedField {A} (d : A) (p : option A) (m : A) : Prop :=
  (p = None -> m = d) /\ (forall v, p = Some v -> m = v).

Definition mergedOptionalField {A} (d p m : option A) : Prop :=
  (p = None -> m = d) /\ (forall v, p = Some v -> m = Some v).

(** The warnings of a list that have a given type. *)
Definition warned (warnings : list ThemeValidationWarning) (ty : WarningType.t) : Prop :=
  exists w, In w warnings /\ Warning.type w = ty.

(** A theme with one field replaced. *)
Definition withThickness (theme : ThemeConfig) (x : number) : ThemeConfig :=
  {| colorScheme := colorScheme theme;
     barStyle := {| shape := shape (barStyle theme);
                    thickness := x;
                    spacing := spacing (barStyle theme);
                    roundness := roundness (barStyle theme) |};
     effects := effects theme;
     dimensions := dimensions theme |}.

Definition withSpacing (theme : ThemeConfig) (x : number) : ThemeConfig :=
  {| colorScheme := colorScheme theme;
     barStyle := {| shape := shape (barStyle theme);
                    thickness := thickness (barStyle theme);
                    spacing := x;
                    roundness := roundness (barStyle theme) |};
     effects := effects theme;
     dimensions := dimensions theme |}.

Definition withDpi (theme : ThemeConfig) (x : number) : ThemeConfig :=
  {| colorScheme := colorScheme theme;
     barStyle := barStyle theme;
     effects := effects theme;
     dimensions := {| width := width (dimensions theme);
                      height := height (dimensions theme);
                      dpi := x |} |}.

(** The bar width and gap of the default theme with the given thickness,
    spacing and dpi. *)
Definition widthAt (thickness dpi : number) : number :=
  baseBarWidth (themedBarMetrics (withDpi (withThickness DEFAULT_THEME thickness) dpi)).

Definition gapAt (spacing dpi : number) : number :=
  baseBarGap (themedBarMetrics (withDpi (withSpacing DEFAULT_THEME spacing) dpi)).

(** [lo <= x <= hi] on numbers. *)
Definition between (lo x hi : number) : bool :=
  ((lo <=? x) && (x <=? hi))%float.

Definition Zrange (lo : Z) (n : nat) : list Z :=
  map (fun i => (lo + Z.of_nat i)%Z) (seq 0 n).

(** The checks made on every whole thickness 1..10, spacing 1..5 and dpi
    72..1200, the ranges the theme API accepts. *)
Definition widthCheck (t d : Z) : bool :=
  let w := widthAt (ofZ t) (ofZ d) in
  let wT := widthAt (2 * ofZ t) (ofZ d) in
  let wD := widthAt (ofZ t) (2 * ofZ d) in
  let whole := ((t * d) mod 375 =? 0)%Z && (750 <=? t * d)%Z in
  (2 <=? w)%float
  && between (2 * w - 2) wT (2 * w + 1)
  && between (2 * w - 2) wD (2 * w + 1)
  && (if whole then (wT =? 2 * w)%float && (wD =? 2 * w)%float else true).

Definition gapCheck (s d : Z) : bool :=
  let g := gapAt (ofZ s) (ofZ d) in
  let gS := gapAt (2 * ofZ s) (ofZ d) in
  let gD := gapAt (ofZ s) (2 * ofZ d) in
  let whole := ((s * d) mod 450 =? 0)%Z && (450 <=? s * d)%Z in
  (1 <=? g)%float
  && between (2 * g - 1) gS (2 * g + 1)
  && between (2 * g - 1) gD (2 * g + 1)
  && (if whole then (gS =? 2 * g)%float && (gD =? 2 * g)%float else true).

(** The promise made for one code of a batch, the writes of one batch into
    the map, and one iteration of the loop on a batch already sliced. *)
Definition itemPromise {Buffer : Type} (renderOne : string -> Promise Buffer)
           (code : string) : Promise (string * Buffer) :=
  await (renderOne code) (fun buffer => resolved (code, buffer)).

Definition setAll {Buffer : Type} (results : Map Buffer)
           (batchResults : list (string * Buffer)) : Map Buffer :=
  fold_left (fun results cb => Map_set results (fst cb) (snd cb))
            batchResults results.

Definition batchStep {Buffer : Type} (renderOne : string -> Promise Buffer)
           (state : Promise (Map Buffer)) (batch : list string)
  : Promise (Map Buffer) :=
  await state (fun results =>
    await (Promise_all (map (itemPromise renderOne) batch)) (fun batchResults =>
      resolved (setAll results batchResults))).

(** A renderer that fails on the code "BAD000" only. *)
Definition failsOnBAD000 (code : string) : Promise string :=
  if String.eqb code "BAD000" then rejected "render failed"
  else resolved ("png of " ++ code)%string.

(* ================================================================= *)
(** ** Vocabulary of the further properties *)

Import Validation.

(** A letter or a digit of ASCII, as a code unit. *)
Definition alphanumeric (u : N) : bool :=
  inClass u || ((97 <=? u)%N && (u <=? 122)%N).

(** [ALPHABET[v]], as a code unit (0 out of range). *)
Definition alphabetAt (v : Z) : N :=
  nth (Z.to_nat v) (units ALPHABET) 0%N.

Import Presets.

(** A theme with another primary colour. *)
Definition withPrimary (theme : ThemeConfig) (color : string) : ThemeConfig :=
  {| colorScheme := {| type := type (colorScheme theme);
                       primary := color;
                       secondary := secondary (colorScheme theme);
                       background := background (colorScheme theme);
                       gradientAngle := gradientAngle (colorScheme theme) |};
     barStyle := barStyle theme;
     effects := effects theme;
     dimensions := dimensions theme |}.

(** The six hexadecimal digits of [hexToRgb], once the leading [#] is
    gone. *)
Definition parseSixDigits (digits : string) : option RGB :=
  match list_ascii_of_string digits with
  | [r1; r2; g1; g2; b1; b2] =>
      match parseHexPair r1 r2, parseHexPair g1 g2, parseHexPair b1 b2 with
      | Some r, Some g, Some b => Some {| r := r; g := g; b := b |}
      | _, _, _ => None
      end
  | _ => None
  end.

Import JSMore Renderer.

(** The option sets the plain renderer is called with: none
    ([generateWaveCode(code)]), those of [generatePrintableWaveCode(code)]
    and those of [generatePreviewWaveCode]. *)
Definition plainOptionSets : list WaveCodeOptions.t :=
  [WaveCodeOptions.empty; printableOptions WaveCodeOptions.empty; previewOptions].

(** The number of bars the plain renderer draws of a pattern of [len]
    bars, and the bar it writes at index [i] for an amplitude when it
    draws [numBars] bars. *)
Definition plainNumBars (opts : Options.t) (len : nat) : number :=
  Math_min (ofZ (Z.of_nat len))
           (Math_floor (Options.width opts / (Options.barWidth opts + Options.barGap opts))%float).

Definition plainBar (opts : Options.t) (numBars : number) (amplitude : number) (i : nat)
  : Rect.t :=
  let totalBarWidth := (Options.barWidth opts + Options.barGap opts)%float in
  let totalBarsWidth := (numBars * totalBarWidth - Options.barGap opts)%float in
  let startX := Math_floor ((Options.width opts - totalBarsWidth) / 2)%float in
  let x := (startX + ofZ (Z.of_nat i) * totalBarWidth)%float in
  let barHeight :=
    Math_max 4%float (Math_floor (amplitude * (Options.height opts - 8))%float) in
  let y := Math_floor ((Options.height opts - barHeight) / 2)%float in
  {| Rect.x := x; Rect.y := y; Rect.width := Options.barWidth opts;
     Rect.height := barHeight; Rect.rx := 1%float;
     Rect.fill := Options.barColor opts |}.

(** The bar of index [i] of a code whose character of that bar has the
    ordinal [v]. *)
Definition plainBarOf (options : WaveCodeOptions.t) (i : nat) (v : Z) : Rect.t :=
  plainBar (mergedOptions options) 24%float (nth (i mod 4) (barsOf v) 0%float) i.

Definition layoutCheck (options : WaveCodeOptions.t) (i : nat) (v : Z) : bool :=
  let opts := mergedOptions options in
  let r := plainBarOf options i v in
  PrimFloat.Leibniz.eqb (Rect.width r) (Options.barWidth opts)
  && (0 <=? Rect.x r)%float
  && (Rect.x r + Rect.width r <=? Options.width opts)%float
  && (4 <=? Rect.height r)%float
  && (4 <=? Rect.y r)%float
  && (Rect.y r + Rect.height r <=? Options.height opts - 4)%float
  && PrimFloat.Leibniz.eqb
       (Rect.x (plainBarOf options (S i) v))
       (Rect.x r + (Options.barWidth opts + Options.barGap opts))%float.

(** The heights of the four bars of an ordinal. *)
Definition heightsOf (options : WaveCodeOptions.t) (v : Z) : list number :=
  map (fun a => Rect.height (plainBar (mergedOptions options) 24%float a 0)) (barsOf v).

Definition sameNumbers (l l' : list number) : bool :=
  forallb (fun p => PrimFloat.Leibniz.eqb (fst p) (snd p)) (combine l l').

(** No two ordinals have the same four heights (checked on the table of
    the heights of the 36 ordinals). *)
Definition heightsApart (options : WaveCodeOptions.t) : bool :=
  let table := map (fun v => (v, heightsOf options v)) ordinals in
  forallb (fun p =>
             forallb (fun q => implb (sameNumbers (snd p) (snd q))
                                     (fst p =? fst q)%Z)
                     table)
          table.

(** A plain SVG in the form of a themed one: rectangles without rounded
    corners, each with its fill, no definitions, no opacity. *)
Definition plainAsThemed (svg : Svg.t) : ThemedSvg :=
  {| svgWidth := Svg.width svg;
     svgHeight := Svg.height svg;
     defs := {| gradientDef := None; shadowDef := None |};
     backgroundFill := Svg.background svg;
     groupOpacity := None;
     themedBars :=
       map (fun r =>
              {| element := rectElement (Rect.x r) (Rect.y r) (Rect.width r)
                                        (Rect.height r) None;
                 fill := Some (Rect.fill r);
                 filterRef := false |})
           (Svg.bars svg) |}.

(** The themed renderer, from the merged theme and the pattern on: the
    number of bars drawn, the elements of the bar of index [i], and the
    whole SVG. *)
Definition themedNumBars (theme : ThemeConfig) (len : nat) : number :=
  let width := mmToPixels (width (dimensions theme)) (dpi (dimensions theme)) in
  let totalBarWidth :=
    (baseBarWidth (themedBarMetrics theme) + baseBarGap (themedBarMetrics theme))%float in
  Math_min (ofZ (Z.of_nat len)) (Math_floor (width / totalBarWidth)%float).

Definition hasSecondary (colors : ColorScheme) : bool :=
  match secondary colors with
  | Some s => truthy_string s
  | None => false
  end.

Definition useGradient (colors : ColorScheme) : bool :=
  match type colors with gradient => hasSecondary colors | _ => false end.

Definition fillRef (colors : ColorScheme) : string :=
  if useGradient colors then "url(#barGradient)"%string else primary colors.

Definition barFill (colors : ColorScheme) (i : nat) : string :=
  match type colors with
  | dual_tone =>
      if hasSecondary colors
      then if (i mod 2 =? 0)%nat then primary colors
           else string_or (secondary colors) ""
      else fillRef colors
  | _ => fillRef colors
  end.

Definition themedPath (theme : ThemeConfig) (numBars : number)
           (amplitude : number) (i : nat) : option (list Element) :=
  let width := mmToPixels (width (dimensions theme)) (dpi (dimensions theme)) in
  let height := mmToPixels (height (dimensions theme)) (dpi (dimensions theme)) in
  let baseBarWidth := baseBarWidth (themedBarMetrics theme) in
  let baseBarGap := baseBarGap (themedBarMetrics theme) in
  let totalBarWidth := (baseBarWidth + baseBarGap)%float in
  let totalBarsWidth := (numBars * totalBarWidth - baseBarGap)%float in
  let startX := Math_floor ((width - totalBarsWidth) / 2)%float in
  let x := (startX + ofZ (Z.of_nat i) * totalBarWidth)%float in
  let barHeight :=
    Math_max 4%float (Math_floor (amplitude * (height - 8))%float) in
  let y := Math_floor ((height - barHeight) / 2)%float in
  createBarPath x y baseBarWidth barHeight (shape (barStyle theme))
                (roundness (barStyle theme)).

Definition themedBar (theme : ThemeConfig) (numBars : number)
           (amplitude : number) (i : nat) : option (list Styled) :=
  match themedPath theme numBars amplitude i with
  | Some path =>
      Some (spliceAttributes (barFill (colorScheme theme) i)
                             (shadow (effects theme)) path)
  | None => None
  end.

Definition themedDefs (Math_cos Math_sin : number -> number) (theme : ThemeConfig)
  : Defs :=
  {| gradientDef :=
       if useGradient (colorScheme theme)
       then Some (createGradientDef Math_cos Math_sin "barGradient"
                    (primary (colorScheme theme))
                    (string_or (secondary (colorScheme theme)) "")
                    (number_or (gradientAngle (colorScheme theme)) 90%float))
       else None;
     shadowDef :=
       if shadow (effects theme)
       then Some {| stdDeviation := number_or (shadowBlur (effects theme)) 2%float;
                    floodColor := string_or (shadowColor (effects theme)) "#000000" |}
       else None |}.

Definition verbatimTheme (theme : ThemeConfig) : bool :=
  verbatim (primary (colorScheme theme))
  && verbatim_optional (secondary (colorScheme theme))
  && verbatim_optional (shadowColor (effects theme)).

Definition themedScene (Math_cos Math_sin : number -> number) (theme : ThemeConfig)
           (wavePattern : list number) : Rendering :=
  let numBars := themedNumBars theme (List.length wavePattern) in
  if verbatimTheme theme then
    match sequence (mapi (themedBar theme numBars) (slice0 wavePattern numBars)) with
    | Some bars =>
        written
          {| svgWidth := mmToPixels (width (dimensions theme)) (dpi (dimensions theme));
             svgHeight := mmToPixels (height (dimensions theme)) (dpi (dimensions theme));
             defs := themedDefs Math_cos Math_sin theme;
             backgroundFill := background (colorScheme theme);
             groupOpacity :=
               if (opacity (effects theme) <? 100)%float
               then Some (opacity (effects theme) / 100)%float
               else None;
             themedBars := List.concat bars |}
    | None => unending
    end
  else uncovered.

(** The elements that carry a [fill] attribute. *)
Definition filled (svg : ThemedSvg) : list Styled :=
  List.filter (fun e => match fill e with Some _ => true | None => false end)
              (themedBars svg).

(** A partial theme that sets thickness and spacing only, one that sets
    the shape only. *)
Definition thicknessAndSpacing (t s : Z) : Partial.ThemeConfig :=
  {| Partial.colorScheme := None;
     Partial.barStyle :=
       Some {| Partial.shape := None; Partial.thickness := Some (ofZ t);
               Partial.spacing := Some (ofZ s); Partial.roundness := None |};
     Partial.effects := None;
     Partial.dimensions := None |}.

Definition shapeOnly (sh : Shape) : Partial.ThemeConfig :=
  {| Partial.colorScheme := None;
     Partial.barStyle :=
       Some {| Partial.shape := Some sh; Partial.thickness := None;
               Partial.spacing := None; Partial.roundness := None |};
     Partial.effects := None;
     Partial.dimensions := None |}.

(** The number of bars drawn, as a whole number (0 when it is not one). *)
Definition wholeNumBars (theme : ThemeConfig) (len : nat) : Z :=
  match toIntegerOrInfinity (themedNumBars theme len) with
  | finite z => z
  | _ => 0
  end.

Definition allBarsDrawn (t s : Z) : bool :=
  ((t <=? 5) || ((t =? 6) && (s <=? 3)) || ((t <=? 8) && (s <=? 2)))%Z.

Definition drawnCheck (t s : Z) : bool :=
  match toIntegerOrInfinity
          (themedNumBars (mergeWithDefault (Some (thicknessAndSpacing t s))) 24) with
  | finite z =>
      ((16 <=? z) && (z <=? 24) && Bool.eqb (z =? 24) (allBarsDrawn t s))%Z
  | _ => false
  end.

(** The preset "midnightPurple", merged: circular bars, a gradient, a
    shadow. *)
Definition midnightPurple : ThemeConfig :=
  mergeWithDefault (Map_get PRESET_THEMES "midnightPurple").

Definition isCircle (e : Styled) : bool :=
  match element e with
  | circleElement _ _ _ => true
  | _ => false
  end.

Definition hasFill (e : Styled) : bool :=
  match fill e with Some _ => true | None => false end.

Definition styledWith (color : string) (e : Styled) : bool :=
  match fill e with
  | Some f => String.eqb f color && filterRef e
  | None => false
  end.

Definition unstyled (e : Styled) : bool :=
  match fill e with
  | Some _ => false
  | None => negb (filterRef e)
  end.

(** What is checked of the circles of one bar: the first has the fill and
    the filter, the others neither, and the bar has at least [least]
    circles. *)
Definition pathCheck (color : string) (least : nat) (path : list Styled) : bool :=
  match path with
  | first :: rest =>
      forallb isCircle path && styledWith color first && forallb unstyled rest
      && (least <=? List.length path)%nat
  | [] => false
  end.

(** The first and the last bar of a character have at least two circles
    in the preset. *)
Definition leastCircles (i : nat) : nat :=
  match i mod 4 with
  | 0 | 3 => 2
  | _ => 1
  end.

Definition circlesCheck (i : nat) (v : Z) : bool :=
  match themedBar midnightPurple 24%float (nth (i mod 4) (barsOf v) 0%float) i with
  | Some path => pathCheck "url(#barGradient)" (leastCircles i) path
  | None => false
  end.

Definition withGradientAngle (theme : ThemeConfig) (angle : option number)
  : ThemeConfig :=
  {| colorScheme := {| type := type (colorScheme theme);
                       primary := primary (colorScheme theme);
                       secondary := secondary (colorScheme theme);
                       background := background (colorScheme theme);
                       gradientAngle := angle |};
     barStyle := barStyle theme;
     effects := effects theme;
     dimensions := dimensions theme |}.

Definition withShadowBlur (theme : ThemeConfig) (blur : option number) : ThemeConfig :=
  {| colorScheme := colorScheme theme;
     barStyle := barStyle theme;
     effects := {| shadow := shadow (effects theme);
                   shadowColor := shadowColor (effects theme);
                   shadowBlur := blur;
                   opacity := opacity (effects theme) |};
     dimensions := dimensions theme |}.

Import Routes.

(** The first of the nine draws from [from] on whose code is not taken. *)
Definition firstFree (generateUniqueCode : nat -> string) (taken : string -> bool)
           (from : nat) : option nat :=
  List.find (fun j => negb (taken (generateUniqueCode j))) (seq from 9).

(** A code that [existingCodes] or the table has. *)
Definition taken (existingCodes pages : list string) (code : string) : bool :=
  Set_has String.eqb existingCodes code || findUnique pages code.

(** The codes of the pages that were made. *)
Definition successCodes (results : list Result.t) : list string :=
  map Result.code (List.filter Result.success results).

(** A generator that repeats the code "AAAAAA" nine times. *)
Definition nineRepeats (k : nat) : string :=
  if (k <? 9)%nat then "AAAAAA"%string else "BBBBBB"%string.

(** Two audio links, and a storage and a table that never fail. *)
Definition twoLinks : list AudioLinkInput :=
  [ {| pageNumber := 1%float; audioLink := "https://example.com/1.mp3" |};
    {| pageNumber := 2%float; audioLink := "https://example.com/2.mp3" |} ].

Definition storeAsDataUrl (code buffer : string) : Promise string :=
  resolved ("data:image/png;base64," ++ buffer)%string.

Definition createAlways (link : AudioLinkInput) (code imageUrl : string)
  : Promise unit :=
  resolved tt.

(** What one turn of the loop keeps: the codes of the pages made are
    pairwise distinct, all in [existingCodes] and in the table, and none
    was in the table [pages0] of the start. *)
Definition issued (pages0 : list string) (state : State) : Prop :=
  NoDup (successCodes (results state)) /\
  (forall c, In c (successCodes (results state)) ->
             In c (existingCodes state) /\ ~ In c pages0) /\
  (forall c, In c pages0 -> In c (pages state)).

(* ================================================================= *)
(** ** Properties of the code generator *)


Lemma ordinals_complete (v : Z) : (0 <= v <= 35)%Z -> In v ordinals.
Proof.
  intros Hv. unfold ordinals.
  replace v with (Z.of_nat (Z.to_nat v)) by lia.
  apply in_map, in_seq. lia.
Qed.

Lemma forall_ordinals (P : Z -> bool) :
  forallb P ordinals = true -> forall v, (0 <= v <= 35)%Z -> P v = true.
Proof.
  intros Hall v Hv. rewrite forallb_forall in Hall.
  apply Hall, ordinals_complete, Hv.
Qed.

Lemma forEach_from_pushes (l : list Z) :
  forall (idx : nat) (acc : list number),
    forEach_from
      (fun (bars : list number) (val : Z) (idx : nat) =>
         let normalizedVal := (ofZ val / 35)%float in
         let seed := ((idx + 1) * 7)%nat in
         let bars := push bars (Math_min 1%float (raw1 normalizedVal)) in
         let bars := push bars (Math_min 1%float (raw2 normalizedVal)) in
         let bars := push bars (Math_min 1%float (raw3 normalizedVal)) in
         let bars := push bars (Math_min 1%float (raw4 normalizedVal)) in
         bars)
      idx l acc
    = acc ++ flat_map barsOf l.
Proof.
  induction l as [|v l IH]; intros idx acc; simpl.
  - now rewrite app_nil_r.
  - rewrite IH. unfold push, barsOf. cbv zeta.
    repeat rewrite <- app_assoc. reflexivity.
Qed.

Lemma codeToWavePattern_flat_map (code : string) :
  codeToWavePattern code = flat_map barsOf (codeToNumericValues code).
Proof.
  unfold codeToWavePattern, forEach. cbv zeta.
  now rewrite forEach_from_pushes.
Qed.

Lemma length_flat_map_barsOf (l : list Z) :
  List.length (flat_map barsOf l) = 4 * List.length l.
Proof.
  induction l as [|v l IH]; simpl; [reflexivity|]. rewrite IH. lia.
Qed.

Lemma inClass_cases (u : N) :
  inClass u = true -> (65 <= u <= 90)%N \/ (48 <= u <= 57)%N.
Proof.
  unfold inClass. rewrite orb_true_iff, !andb_true_iff, !N.leb_le. tauto.
Qed.

Lemma charValue_range (u : N) :
  inClass u = true -> (0 <= charValue u <= 35)%Z.
Proof.
  intros H. apply inClass_cases in H. unfold charValue.
  destruct (N.leb_spec 65 u), (N.leb_spec u 90), (N.leb_spec 48 u),
    (N.leb_spec u 57); simpl; lia.
Qed.

Lemma validPattern_test_spec (s : list N) :
  validPattern_test s = true <->
  List.length s = 6 /\ Forall (fun u => inClass u = true) s.
Proof.
  unfold validPattern_test.
  rewrite andb_true_iff, Nat.eqb_eq, forallb_forall, Forall_forall. tauto.
Qed.

Lemma isValidCodeFormat_upper (code : string) :
  isValidCodeFormat code = true ->
  String.length code = 6 /\ validPattern_test (toUpperCase code) = true.
Proof.
  unfold isValidCodeFormat, CODE_LENGTH.
  destruct (String.length code =? 0)%nat eqn:E0; simpl; [discriminate|].
  destruct (String.length code =? 6)%nat eqn:E6; simpl; [|discriminate].
  apply Nat.eqb_eq in E6. auto.
Qed.

Lemma valid_code_values (code : string) :
  isValidCodeFormat code = true ->
  List.length (codeToNumericValues code) = 6 /\
  Forall (fun v => (0 <= v <= 35)%Z) (codeToNumericValues code).
Proof.
  intros H. apply isValidCodeFormat_upper in H as [_ H].
  apply validPattern_test_spec in H as [Hlen Hall].
  unfold codeToNumericValues. split.
  - now rewrite length_map.
  - apply Forall_map. eapply Forall_impl; [|exact Hall].
    intros u Hu. now apply charValue_range.
Qed.

Lemma list_of_length_6 {A} (l : list A) :
  List.length l = 6 -> exists a b c d e f, l = [a; b; c; d; e; f].
Proof.
  destruct l as [|a [|b [|c [|d [|e [|f [|g l]]]]]]]; try discriminate.
  intros _. now exists a, b, c, d, e, f.
Qed.



(** Each bar of an ordinal of the alphabet lies in [0,1]. *)
Lemma barsOf_inUnit (v : Z) :
  (0 <= v <= 35)%Z -> Forall inUnit (barsOf v).
Proof.
  intros Hv.
  pose (check := fun v : Z =>
    forallb (fun x => (0 <=? x)%float && (x <=? 1)%float) (barsOf v)).
  assert (Hall : forallb check ordinals = true) by (vm_compute; reflexivity).
  pose proof (forall_ordinals check Hall v Hv) as H. unfold check in H.
  rewrite forallb_forall in H. apply Forall_forall. intros x Hx.
  specialize (H x Hx). apply andb_true_iff in H. exact H.
Qed.

(** C2: the pattern of a valid code has exactly 24 elements, and every
    element lies in the closed interval [0,1]. *)
Theorem codeToWavePattern_length_and_range (code : string) :
  isValidCodeFormat code = true ->
  List.length (codeToWavePattern code) = 24 /\
  Forall (fun x => (0 <=? x)%float = true /\ (x <=? 1)%float = true)
         (codeToWavePattern code).
Proof.
  intros Hvalid. destruct (valid_code_values code Hvalid) as [Hlen Hrange].
  rewrite codeToWavePattern_flat_map. split.
  - rewrite length_flat_map_barsOf, Hlen. reflexivity.
  - apply Forall_flat_map. eapply Forall_impl; [|exact Hrange].
    intros v Hv. apply (barsOf_inUnit v Hv).
Qed.

Lemma codeToWavePattern_length_and_range_TEST01 :
  isValidCodeFormat "TEST01" = true /\
  List.length (codeToWavePattern "TEST01") = 24 /\
  Forall (fun x => (0 <=? x)%float = true /\ (x <=? 1)%float = true)
         (codeToWavePattern "TEST01").
Proof.
  split; [reflexivity|].
  exact (codeToWavePattern_length_and_range "TEST01" eq_refl).
Defined.

(** C7, as stated, fails: at the top ordinal 35 (the character '9') the
    third and the fourth transform exceed 1 before the clamp as well. *)
Lemma raw3_raw4_exceed_one_at_35 :
  charValue 57 = 35%Z /\
  (1 <? raw3 (ofZ 35 / 35))%float = true /\
  (1 <? raw4 (ofZ 35 / 35))%float = true.
Proof. vm_compute. repeat split. Qed.

(** C7, amended: over the ordinals 0..35 the first transform never exceeds
    1 before the clamp, while the second exceeds 1 exactly from ordinal 29
    on, the third from 32 on and the fourth from 33 on; no value before the
    clamp is above that of the second transform at ordinal 35, which in
    binary64 arithmetic is 1.2000000000000002 (the sum 1.1 + 0.1, one unit
    in the last place above 1.2) and below 1.3. *)
Theorem preclamp_values (v : Z) :
  (0 <= v <= 35)%Z ->
  let normalized := (ofZ v / 35)%float in
  let top := raw2 (ofZ 35 / 35)%float in
  (raw1 normalized <=? 1)%float = true /\
  ((1 <? raw2 normalized)%float = true <-> (29 <= v)%Z) /\
  ((1 <? raw3 normalized)%float = true <-> (32 <= v)%Z) /\
  ((1 <? raw4 normalized)%float = true <-> (33 <= v)%Z) /\
  (raw1 normalized <=? top)%float = true /\
  (raw2 normalized <=? top)%float = true /\
  (raw3 normalized <=? top)%float = true /\
  (raw4 normalized <=? top)%float = true /\
  top = 1.2000000000000002%float /\
  (1.2 <? top)%float = true /\
  (top <? 1.3)%float = true.
Proof.
  intros Hv normalized top.
  pose (check := fun v : Z =>
    let n := (ofZ v / 35)%float in
    let top := raw2 (ofZ 35 / 35)%float in
    (raw1 n <=? 1)%float
    && Bool.eqb (1 <? raw2 n)%float (29 <=? v)%Z
    && Bool.eqb (1 <? raw3 n)%float (32 <=? v)%Z
    && Bool.eqb (1 <? raw4 n)%float (33 <=? v)%Z
    && (raw1 n <=? top)%float && (raw2 n <=? top)%float
    && (raw3 n <=? top)%float && (raw4 n <=? top)%float).
  assert (Hall : forallb check ordinals = true) by (vm_compute; reflexivity).
  pose proof (forall_ordinals check Hall v Hv) as H. unfold check in H.
  cbv zeta in H. fold normalized top in H.
  rewrite !andb_true_iff, !eqb_true_iff in H.
  destruct H as [[[[[[[H1 H2] H3] H4] H5] H6] H7] H8].
  repeat split; try assumption;
    try (rewrite ?H2, ?H3, ?H4; apply Z.leb_le);
    try (intros Hle; rewrite ?H2, ?H3, ?H4; now apply Z.leb_le);
    vm_compute; reflexivity.
Qed.

Lemma preclamp_values_at_35 :
  (0 <= 35 <= 35)%Z /\
  (1 <? raw2 (ofZ 35 / 35))%float = true /\
  raw2 (ofZ 35 / 35)%float = 1.2000000000000002%float.
Proof.
  split; [lia|].
  pose proof (preclamp_values 35 ltac:(lia)) as H. cbv zeta in H.
  destruct H as (_ & H2 & _ & _ & _ & _ & _ & _ & Htop & _).
  split; [apply H2; lia | exact Htop].
Defined.

(** The first transform reaches 1 only at ordinal 35 and never passes it,
    so the clamp leaves it as it is. *)
Lemma bar1_unclamped (v : Z) :
  (0 <= v <= 35)%Z -> bar1 v = raw1 (ofZ v / 35)%float.
Proof.
  intros Hv. apply ordinals_complete in Hv.
  unfold ordinals in Hv. simpl in Hv.
  repeat (destruct Hv as [<- | Hv]; [vm_compute; reflexivity|]).
  destruct Hv.
Qed.

Lemma bar1_strictly_increasing (v w : Z) :
  (0 <= v)%Z -> (v < w)%Z -> (w <= 35)%Z -> (bar1 v <? bar1 w)%float = true.
Proof.
  intros H0 Hlt H35.
  pose (check := fun v : Z =>
    forallb (fun w => if (v <? w)%Z then (bar1 v <? bar1 w)%float else true)
            ordinals).
  assert (Hall : forallb check ordinals = true) by (vm_compute; reflexivity).
  pose proof (forall_ordinals check Hall v ltac:(lia)) as H. unfold check in H.
  pose proof (forall_ordinals _ H w ltac:(lia)) as H'. cbv beta in H'.
  apply Z.ltb_lt in Hlt. now rewrite Hlt in H'.
Qed.

Lemma bar1_not_below_itself (v : Z) :
  (0 <= v <= 35)%Z -> (bar1 v <? bar1 v)%float = false.
Proof.
  intros Hv.
  pose (check := fun v : Z => negb (bar1 v <? bar1 v)%float).
  assert (Hall : forallb check ordinals = true) by (vm_compute; reflexivity).
  pose proof (forall_ordinals check Hall v Hv) as H. unfold check in H.
  now apply negb_true_iff in H.
Qed.

(** The ordinal is recoverable from the first bar. *)
Lemma bar1_injective (v w : Z) :
  (0 <= v <= 35)%Z -> (0 <= w <= 35)%Z -> bar1 v = bar1 w -> v = w.
Proof.
  intros Hv Hw Heq.
  destruct (Z.lt_total v w) as [Hlt | [Heq' | Hgt]]; [|exact Heq'|]; exfalso.
  - pose proof (bar1_strictly_increasing v w ltac:(lia) Hlt ltac:(lia)) as H.
    rewrite Heq, bar1_not_below_itself in H by exact Hw. discriminate.
  - pose proof (bar1_strictly_increasing w v ltac:(lia) Hgt ltac:(lia)) as H.
    rewrite Heq, bar1_not_below_itself in H by exact Hw. discriminate.
Qed.

Lemma flat_map_barsOf_injective (l1 : list Z) :
  forall l2,
    Forall (fun v => (0 <= v <= 35)%Z) l1 ->
    Forall (fun v => (0 <= v <= 35)%Z) l2 ->
    flat_map barsOf l1 = flat_map barsOf l2 -> l1 = l2.
Proof.
  induction l1 as [|v l1 IH]; intros [|w l2] H1 H2 Heq.
  - reflexivity.
  - discriminate.
  - discriminate.
  - inversion H1 as [|? ? Hv H1']; inversion H2 as [|? ? Hw H2']; subst.
    cbn [flat_map barsOf app] in Heq. cbv zeta in Heq.
    injection Heq as Hb1 _ _ _ Hrest.
    f_equal.
    + apply bar1_injective; assumption.
    + apply IH; assumption.
Qed.

Lemma charValue_injective (u u' : N) :
  inClass u = true -> inClass u' = true -> charValue u = charValue u' -> u = u'.
Proof.
  intros H H'. apply inClass_cases in H, H'. unfold charValue.
  destruct (N.leb_spec 65 u), (N.leb_spec u 90), (N.leb_spec 48 u),
    (N.leb_spec u 57), (N.leb_spec 65 u'), (N.leb_spec u' 90),
    (N.leb_spec 48 u'), (N.leb_spec u' 57); simpl; lia.
Qed.

Lemma map_charValue_injective (s : list N) :
  forall s',
    Forall (fun u => inClass u = true) s ->
    Forall (fun u => inClass u = true) s' ->
    map charValue s = map charValue s' -> s = s'.
Proof.
  induction s as [|u s IH]; intros [|u' s'] H H' Heq; try discriminate.
  - reflexivity.
  - inversion H; inversion H'; subst. injection Heq as Hu Hs.
    f_equal; [now apply charValue_injective | now apply IH].
Qed.

Lemma upperUnit_inClass (u : N) : inClass u = true -> upperUnit u = [u].
Proof.
  intros H. apply inClass_cases in H. unfold upperUnit.
  destruct (N.leb_spec 97 u), (N.leb_spec u 122), (N.eqb_spec u 181),
    (N.eqb_spec u 223), (N.leb_spec 224 u), (N.leb_spec u 254),
    (N.eqb_spec u 247), (N.eqb_spec u 255); simpl; try reflexivity; lia.
Qed.

Lemma flat_map_upperUnit_inClass (s : list N) :
  Forall (fun u => inClass u = true) s -> flat_map upperUnit s = s.
Proof.
  induction 1 as [|u s Hu _ IH]; simpl; [reflexivity|].
  now rewrite (upperUnit_inClass u Hu), IH.
Qed.

Lemma units_injective (s s' : string) : units s = units s' -> s = s'.
Proof.
  unfold units. intros H.
  rewrite <- (string_of_list_ascii_of_string s),
          <- (string_of_list_ascii_of_string s').
  f_equal. revert H.
  generalize (list_ascii_of_string s) (list_ascii_of_string s').
  induction l as [|a l IH]; intros [|a' l'] H; try discriminate.
  - reflexivity.
  - injection H as Ha Hl. f_equal; [|now apply IH].
    rewrite <- (ascii_N_embedding a), <- (ascii_N_embedding a'). now f_equal.
Qed.

(** Two lists of ordinals of the same length that are not equal differ at
    some position. *)
Lemma lists_differ_at (l1 : list Z) :
  forall l2,
    List.length l1 = List.length l2 -> l1 <> l2 ->
    exists j a b,
      nth_error l1 j = Some a /\ nth_error l2 j = Some b /\ a <> b.
Proof.
  induction l1 as [|x l1 IH]; intros [|y l2] Hlen Hneq; try discriminate.
  - now contradiction Hneq.
  - destruct (Z.eq_dec x y) as [-> | Hxy].
    + destruct (IH l2) as (j & a & b & Ha & Hb & Hab).
      * simpl in Hlen. lia.
      * intros ->. now apply Hneq.
      * now exists (S j), a, b.
    + now exists 0, x, y.
Qed.

(** The first bar of the group of the [j]-th ordinal is the bar [4 * j]. *)
Lemma nth_error_flat_map_barsOf (l : list Z) :
  forall j v,
    nth_error l j = Some v ->
    nth_error (flat_map barsOf l) (4 * j) = Some (bar1 v).
Proof.
  induction l as [|x l IH]; intros [|j] v Hj; try discriminate.
  - injection Hj as ->. reflexivity.
  - replace (4 * S j) with (S (S (S (S (4 * j))))) by lia.
    cbn [flat_map barsOf app nth_error]. cbv zeta. cbn [app nth_error].
    now apply IH.
Qed.

Lemma bar1_apart (v w : Z) :
  (0 <= v <= 35)%Z -> (0 <= w <= 35)%Z -> v <> w ->
  ((bar1 v <? bar1 w) || (bar1 w <? bar1 v))%float = true.
Proof.
  intros Hv Hw Hneq. apply orb_true_iff.
  destruct (Z.lt_total v w) as [Hlt | [Heq | Hgt]]; [left|contradiction|right];
    apply bar1_strictly_increasing; lia.
Qed.

(** C9: two distinct codes that match [^[A-Z0-9]{6}$] never have the same
    pattern: the first bar of every group is not altered by the clamp and
    is strictly increasing in the ordinal ([bar1_unclamped],
    [bar1_strictly_increasing]), so the ordinals, hence the characters,
    are read back from the pattern; at the first bar of the group of a
    character in which the codes differ, one pattern is strictly below the
    other. *)
Theorem codeToWavePattern_injective (c1 c2 : string) :
  validPattern_test (units c1) = true ->
  validPattern_test (units c2) = true ->
  c1 <> c2 ->
  codeToWavePattern c1 <> codeToWavePattern c2 /\
  exists i x y,
    nth_error (codeToWavePattern c1) i = Some x /\
    nth_error (codeToWavePattern c2) i = Some y /\
    ((x <? y) || (y <? x))%float = true.
Proof.
  intros H1 H2 Hneq.
  apply validPattern_test_spec in H1 as [Hlen1 H1].
  apply validPattern_test_spec in H2 as [Hlen2 H2].
  rewrite !codeToWavePattern_flat_map.
  unfold codeToNumericValues, toUpperCase.
  rewrite !flat_map_upperUnit_inClass by assumption.
  assert (Hr1 : Forall (fun v => (0 <= v <= 35)%Z) (map charValue (units c1))).
  { apply Forall_map. eapply Forall_impl; [|exact H1].
    intros u Hu. now apply charValue_range. }
  assert (Hr2 : Forall (fun v => (0 <= v <= 35)%Z) (map charValue (units c2))).
  { apply Forall_map. eapply Forall_impl; [|exact H2].
    intros u Hu. now apply charValue_range. }
  split.
  - intros Heq. apply Hneq.
    apply flat_map_barsOf_injective in Heq; [|assumption|assumption].
    apply map_charValue_injective in Heq; [|assumption|assumption].
    now apply units_injective.
  - destruct (lists_differ_at (map charValue (units c1)) (map charValue (units c2)))
      as (j & a & b & Ha & Hb & Hab).
    + now rewrite !length_map, Hlen1, Hlen2.
    + intros Heq. apply Hneq.
      apply map_charValue_injective in Heq; [|assumption|assumption].
      now apply units_injective.
    + exists (4 * j), (bar1 a), (bar1 b).
      split; [now apply nth_error_flat_map_barsOf|].
      split; [now apply nth_error_flat_map_barsOf|].
      apply bar1_apart; [| |exact Hab].
      * rewrite Forall_forall in Hr1. apply Hr1. eapply nth_error_In, Ha.
      * rewrite Forall_forall in Hr2. apply Hr2. eapply nth_error_In, Hb.
Qed.

Lemma codeToWavePattern_injective_ABC123_ABC124 :
  validPattern_test (units "ABC123") = true /\
  validPattern_test (units "ABC124") = true /\
  "ABC123"%string <> "ABC124"%string /\
  codeToWavePattern "ABC123" <> codeToWavePattern "ABC124".
Proof.
  split; [reflexivity|]. split; [reflexivity|].
  assert (Hneq : "ABC123"%string <> "ABC124"%string) by discriminate.
  split; [exact Hneq|].
  exact (proj1 (codeToWavePattern_injective "ABC123" "ABC124" eq_refl eq_refl Hneq)).
Defined.

Lemma length_upperUnit (u : N) :
  u <> 223%N -> List.length (upperUnit u) = 1.
Proof.
  intros Hu. unfold upperUnit.
  destruct ((97 <=? u)%N && (u <=? 122)%N); [reflexivity|].
  destruct (u =? 181)%N; [reflexivity|].
  destruct (N.eqb_spec u 223); [contradiction|].
  destruct ((224 <=? u)%N && (u <=? 254)%N && negb (u =? 247)%N); [reflexivity|].
  destruct (u =? 255)%N; reflexivity.
Qed.

Lemma length_toUpperCase (code : string) :
  ~ In 223%N (units code) ->
  List.length (toUpperCase code) = String.length code.
Proof.
  unfold toUpperCase, units.
  rewrite <- (string_of_list_ascii_of_string code) at 3.
  generalize (list_ascii_of_string code) as l.
  induction l as [|a l IH]; intros Hnot; simpl; [reflexivity|].
  rewrite length_app, length_upperUnit, IH; [reflexivity| |].
  - intros Hin. apply Hnot. now right.
  - intros Heq. apply Hnot. now left.
Qed.

Lemma charValue_outside (u : N) : inClass u = false -> charValue u = 0%Z.
Proof.
  unfold inClass, charValue.
  destruct ((65 <=? u)%N && (u <=? 90)%N); [discriminate|].
  destruct ((48 <=? u)%N && (u <=? 57)%N); [discriminate|]. reflexivity.
Qed.

(** C10, as stated, fails on the length: the one-character string made of
    the sharp s (code unit 223) is upper-cased to "SS", so its pattern has
    8 bars, not 4, and is the pattern of "SS". *)
Lemma codeToWavePattern_sharp_s :
  String.length (String (ascii_of_N 223) "") = 1 /\
  List.length (codeToWavePattern (String (ascii_of_N 223) "")) = 8 /\
  codeToWavePattern (String (ascii_of_N 223) "") = codeToWavePattern "SS".
Proof. vm_compute. repeat split. Qed.

(** C10, amended: [codeToNumericValues] and [codeToWavePattern] are total
    on every string; the values are those of the upper-cased string, where
    a code unit outside A-Z and 0-9 counts 0, as 'A' does, so that the
    pattern is the one of the upper-cased string with each such unit
    replaced by 'A'; the pattern has 4 bars per code unit of the
    upper-cased string, not always 24 and not always 4 times the length
    of the input: it has 4 times the length of the input exactly when
    upper-casing keeps the length, as it does for every ASCII input. *)
Theorem codeToWavePattern_total (code : string) :
  let upper := toUpperCase code in
  codeToNumericValues code
    = map (fun u => if inClass u then charValue u else charValue 65) upper /\
  codeToWavePattern code
    = flat_map barsOf (map (fun u => charValue (if inClass u then u else 65%N)) upper) /\
  List.length (codeToNumericValues code) = List.length upper /\
  List.length (codeToWavePattern code) = 4 * List.length upper /\
  (List.length (codeToWavePattern code) = 4 * String.length code
   <-> List.length upper = String.length code) /\
  (Forall (fun u => (u < 128)%N) (units code) ->
   List.length (codeToWavePattern code) = 4 * String.length code) /\
  List.length (codeToWavePattern "AB!") = 12.
Proof.
  intros upper.
  assert (Hvals : codeToNumericValues code
    = map (fun u => if inClass u then charValue u else charValue 65) upper).
  { unfold codeToNumericValues. fold upper. apply map_ext. intros u.
    destruct (inClass u) eqn:E; [reflexivity|]. now rewrite charValue_outside. }
  assert (Hlen : List.length (codeToWavePattern code) = 4 * List.length upper).
  { rewrite codeToWavePattern_flat_map, length_flat_map_barsOf.
    unfold codeToNumericValues. fold upper. now rewrite length_map. }
  split; [exact Hvals|]. split.
  { rewrite codeToWavePattern_flat_map, Hvals. f_equal. apply map_ext.
    intros u. now destruct (inClass u). }
  split; [rewrite Hvals; apply length_map|].
  split; [exact Hlen|]. split; [rewrite Hlen; lia|]. split.
  - intros Hascii. rewrite Hlen. unfold upper. rewrite length_toUpperCase.
    + reflexivity.
    + intros Hin. rewrite Forall_forall in Hascii.
      specialize (Hascii 223%N Hin). lia.
  - reflexivity.
Qed.

(* ================================================================= *)
(** ** Termination of [generateUniqueCodes] *)

Section UniqueCodes.
Variable generateCode : nat -> string.

Lemma Set_has_true (s : list string) (x : string) :
  Set_has String.eqb s x = true <-> In x s.
Proof.
  unfold Set_has. rewrite existsb_exists. split.
  - intros (y & Hy & Heq). apply String.eqb_eq in Heq. now subst.
  - intros Hin. exists x. split; [exact Hin | apply String.eqb_refl].
Qed.

Lemma Set_add_In (s : list string) (x y : string) :
  In y (Set_add String.eqb s x) <-> In y s \/ y = x.
Proof.
  unfold Set_add. destruct (Set_has String.eqb s x) eqn:E.
  - apply Set_has_true in E. split; [now left|]. intros [H | ->]; assumption.
  - rewrite in_app_iff. simpl. intuition congruence.
Qed.

Lemma Set_add_NoDup (s : list string) (x : string) :
  NoDup s -> NoDup (Set_add String.eqb s x).
Proof.
  intros Hnd. unfold Set_add. destruct (Set_has String.eqb s x) eqn:E.
  - exact Hnd.
  - assert (Hnot : ~ In x s).
    { intros Hin. apply Set_has_true in Hin. congruence. }
    apply NoDup_app; [exact Hnd | repeat constructor; intros [] |].
    intros y Hy [<- | []]. exact (Hnot Hy).
Qed.

Lemma Set_add_length (s : list string) (x : string) :
  List.length s <= List.length (Set_add String.eqb s x) <= S (List.length s).
Proof.
  unfold Set_add. destruct (Set_has String.eqb s x).
  - lia.
  - rewrite length_app. simpl. lia.
Qed.

Lemma collected_NoDup (k : nat) : NoDup (collected generateCode k).
Proof.
  induction k as [|k IH]; simpl; [constructor | now apply Set_add_NoDup].
Qed.

Lemma collected_In (k : nat) (c : string) :
  In c (collected generateCode k) <-> exists i, i < k /\ generateCode i = c.
Proof.
  induction k as [|k IH]; simpl.
  - split; [intros [] | intros (i & Hi & _); lia].
  - rewrite Set_add_In, IH. split.
    + intros [(i & Hi & Hc) | ->]; [exists i | exists k]; split; auto; lia.
    + intros (i & Hi & Hc). destruct (Nat.eq_dec i k) as [-> | Hne].
      * now right.
      * left. exists i. split; [lia | exact Hc].
Qed.

Lemma collected_length_nodup (n : nat) :
  List.length (collected generateCode n)
  = List.length (nodup string_dec (map generateCode (seq 0 n))).
Proof.
  apply Nat.le_antisymm; apply NoDup_incl_length.
  - apply collected_NoDup.
  - intros c Hc. apply nodup_In, in_map_iff.
    apply collected_In in Hc as (i & Hi & Hc).
    exists i. split; [exact Hc | apply in_seq; lia].
  - apply NoDup_nodup.
  - intros c Hc. apply nodup_In, in_map_iff in Hc as (i & Hc & Hi).
    apply in_seq in Hi. apply collected_In. exists i. split; [lia | exact Hc].
Qed.

Lemma collected_length_mono (k j : nat) :
  k <= j -> List.length (collected generateCode k) <= List.length (collected generateCode j).
Proof.
  induction 1 as [|j _ IH]; [lia|]. simpl.
  pose proof (Set_add_length (collected generateCode j) (generateCode j)). lia.
Qed.

(** From the state reached after [k] calls, [fuel] iterations are enough
    as soon as the first [k + fuel] calls yield [count] distinct codes. *)
Lemma generateUniqueCodes_loop_spec (count : Z) (fuel : nat) :
  forall k,
    (Z.of_nat (List.length (collected generateCode k)) <= count)%Z ->
    (count <= Z.of_nat (List.length (collected generateCode (k + fuel))))%Z ->
    exists j,
      k <= j <= k + fuel /\
      generateUniqueCodes_loop generateCode fuel count k (collected generateCode k)
        = Some (collected generateCode j) /\
      Z.of_nat (List.length (collected generateCode j)) = count.
Proof.
  induction fuel as [|fuel IH]; intros k Hlow Hhigh.
  - rewrite Nat.add_0_r in Hhigh. exists k. simpl. unfold Set_size.
    destruct (Z.ltb_spec (Z.of_nat (List.length (collected generateCode k))) count);
      [lia|]. repeat split; lia.
  - simpl. unfold Set_size.
    destruct (Z.ltb_spec (Z.of_nat (List.length (collected generateCode k))) count)
      as [Hlt | Hge].
    + destruct (IH (S k)) as (j & Hj & Hrun & Hlen).
      * simpl. pose proof (Set_add_length (collected generateCode k) (generateCode k)). lia.
      * now replace (S k + fuel) with (k + S fuel) by lia.
      * exists j. repeat split; try lia. exact Hrun.
    + exists k. repeat split; lia.
Qed.

Lemma generateUniqueCodes_loop_more_fuel (count : Z) (fuel : nat) :
  forall k codes r,
    generateUniqueCodes_loop generateCode fuel count k codes = Some r ->
    generateUniqueCodes_loop generateCode (S fuel) count k codes = Some r.
Proof.
  induction fuel as [|fuel IH]; intros k codes r H.
  - simpl in *. destruct (Set_size codes <? count)%Z; [discriminate | exact H].
  - cbn [generateUniqueCodes_loop] in *.
    destruct (Set_size codes <? count)%Z; [|exact H].
    apply IH in H. exact H.
Qed.

Lemma generateUniqueCodes_loop_fuel_le (count : Z) (fuel fuel' : nat) :
  fuel <= fuel' ->
  forall k codes r,
    generateUniqueCodes_loop generateCode fuel count k codes = Some r ->
    generateUniqueCodes_loop generateCode fuel' count k codes = Some r.
Proof.
  induction 1 as [|fuel' _ IH]; intros k codes r H; [exact H|].
  now apply generateUniqueCodes_loop_more_fuel, IH.
Qed.
End UniqueCodes.

(** C8: [generateUniqueCodes count] terminates with exactly [count]
    pairwise distinct codes, each matching [^[A-Z0-9]{6}$]: when the
    generator returns valid codes and its first [n] calls yield at least
    [count] distinct ones, the loop stops after at most [n] calls (any
    fuel from [n] on gives the same result) and returns the distinct codes
    drawn so far, each once; a repeated draw adds nothing and costs one
    more call. *)
Theorem generateUniqueCodes_terminates
        (generateCode : nat -> string) (count : Z) (n : nat) :
  (0 <= count)%Z ->
  (forall k, validPattern_test (units (generateCode k)) = true) ->
  (count <= Z.of_nat
     (List.length (nodup string_dec (map generateCode (seq 0 n)))))%Z ->
  exists codes calls,
    calls <= n /\
    (forall fuel, n <= fuel ->
       generateUniqueCodes generateCode fuel count = Some codes) /\
    Z.of_nat (List.length codes) = count /\
    NoDup codes /\
    Forall (fun c => validPattern_test (units c) = true) codes /\
    (forall c, In c codes <-> exists i, i < calls /\ generateCode i = c).
Proof.
  intros Hcount Hvalid Hdraws.
  rewrite <- collected_length_nodup in Hdraws.
  destruct (generateUniqueCodes_loop_spec generateCode count n 0)
    as (j & Hj & Hrun & Hlen); [simpl; lia | exact Hdraws |].
  exists (collected generateCode j), j. split; [lia|]. split.
  { intros fuel Hfuel. unfold generateUniqueCodes.
    eapply generateUniqueCodes_loop_fuel_le; [exact Hfuel | exact Hrun]. }
  split; [exact Hlen|]. split; [apply collected_NoDup|]. split.
  - apply Forall_forall. intros c Hc.
    apply collected_In in Hc as (i & _ & <-). apply Hvalid.
  - intros c. apply collected_In.
Qed.

Lemma generateUniqueCodes_terminates_sampleDraws :
  (forall k, validPattern_test (units (sampleDraws k)) = true) /\
  exists codes,
    generateUniqueCodes sampleDraws 3 2 = Some codes /\
    Z.of_nat (List.length codes) = 2%Z /\
    NoDup codes.
Proof.
  assert (Hvalid : forall k, validPattern_test (units (sampleDraws k)) = true).
  { intros [|[|[|k]]]; [reflexivity .. |]. destruct k; reflexivity. }
  split; [exact Hvalid|].
  destruct (generateUniqueCodes_terminates sampleDraws 2 3
              ltac:(lia) Hvalid ltac:(vm_compute; discriminate))
    as (codes & calls & _ & Hrun & Hlen & Hnodup & _).
  exists codes. split; [exact (Hrun 3 (le_n 3))|]. split; assumption.
Defined.

(* ================================================================= *)
(** ** Properties of the theme model *)


Lemma spread_mergedField {A} (d : A) (p : option A) :
  mergedField d p (spread d p).
Proof. split; [intros -> | intros v ->]; reflexivity. Qed.

Lemma spread_optional_mergedField {A} (d p : option A) :
  mergedOptionalField d p (spread_optional d p).
Proof. split; [intros -> | intros v ->]; reflexivity. Qed.

(** C4: [mergeWithDefault(null)] is the default theme; a partial theme that
    gives only [colorScheme.primary] keeps the default [barStyle],
    [effects] and [dimensions] and every other default field of
    [colorScheme], with [primary] taken from the partial; and for every
    partial theme the merge is made section by section and field by field:
    a section the partial lacks is the default section, and in a section it
    has, each field is the partial's when present and the default's
    otherwise. *)
Theorem mergeWithDefault_per_field :
  mergeWithDefault None = DEFAULT_THEME /\
  (forall x : string,
     let partial :=
       {| Partial.colorScheme :=
            Some {| Partial.type := None; Partial.primary := Some x;
                    Partial.secondary := None; Partial.background := None;
                    Partial.gradientAngle := None |};
          Partial.barStyle := None;
          Partial.effects := None;
          Partial.dimensions := None |} in
     let t := mergeWithDefault (Some partial) in
     barStyle t = barStyle DEFAULT_THEME /\
     effects t = effects DEFAULT_THEME /\
     dimensions t = dimensions DEFAULT_THEME /\
     primary (colorScheme t) = x /\
     type (colorScheme t) = type (colorScheme DEFAULT_THEME) /\
     secondary (colorScheme t) = secondary (colorScheme DEFAULT_THEME) /\
     background (colorScheme t) = background (colorScheme DEFAULT_THEME) /\
     gradientAngle (colorScheme t) = gradientAngle (colorScheme DEFAULT_THEME)) /\
  (forall partial : Partial.ThemeConfig,
     let t := mergeWithDefault (Some partial) in
     let d := DEFAULT_THEME in
     (Partial.colorScheme partial = None -> colorScheme t = colorScheme d) /\
     (Partial.barStyle partial = None -> barStyle t = barStyle d) /\
     (Partial.effects partial = None -> effects t = effects d) /\
     (Partial.dimensions partial = None -> dimensions t = dimensions d) /\
     (forall p, Partial.colorScheme partial = Some p ->
        mergedField (type (colorScheme d)) (Partial.type p) (type (colorScheme t)) /\
        mergedField (primary (colorScheme d)) (Partial.primary p)
                    (primary (colorScheme t)) /\
        mergedOptionalField (secondary (colorScheme d)) (Partial.secondary p)
                            (secondary (colorScheme t)) /\
        mergedField (background (colorScheme d)) (Partial.background p)
                    (background (colorScheme t)) /\
        mergedOptionalField (gradientAngle (colorScheme d)) (Partial.gradientAngle p)
                            (gradientAngle (colorScheme t))) /\
     (forall p, Partial.barStyle partial = Some p ->
        mergedField (shape (barStyle d)) (Partial.shape p) (shape (barStyle t)) /\
        mergedField (thickness (barStyle d)) (Partial.thickness p)
                    (thickness (barStyle t)) /\
        mergedField (spacing (barStyle d)) (Partial.spacing p) (spacing (barStyle t)) /\
        mergedOptionalField (roundness (barStyle d)) (Partial.roundness p)
                            (roundness (barStyle t))) /\
     (forall p, Partial.effects partial = Some p ->
        mergedField (shadow (effects d)) (Partial.shadow p) (shadow (effects t)) /\
        mergedOptionalField (shadowColor (effects d)) (Partial.shadowColor p)
                            (shadowColor (effects t)) /\
        mergedOptionalField (shadowBlur (effects d)) (Partial.shadowBlur p)
                            (shadowBlur (effects t)) /\
        mergedField (opacity (effects d)) (Partial.opacity p) (opacity (effects t))) /\
     (forall p, Partial.dimensions partial = Some p ->
        mergedField (width (dimensions d)) (Partial.width p) (width (dimensions t)) /\
        mergedField (height (dimensions d)) (Partial.height p)
                    (height (dimensions t)) /\
        mergedField (dpi (dimensions d)) (Partial.dpi p) (dpi (dimensions t)))).
Proof.
  split; [reflexivity|]. split.
  - intros x partial t. repeat split.
  - intros [cs bs ef dm] t d. subst t d. cbn.
    repeat apply conj.
    1-4: intros ->; reflexivity.
    all: intros p ->; cbn; repeat apply conj;
      first [ apply spread_mergedField | apply spread_optional_mergedField ].
Qed.

Ltac warnings_cases :=
  repeat match goal with
         | H : warned _ _ |- _ => destruct H as (? & ? & ?)
         | H : In _ (_ :: _) |- _ => destruct H as [<- | H]
         | H : In _ [] |- _ => destruct H
         | H : Warning.type _ = _ |- _ =>
             cbn in H; first [ discriminate H | clear H ]
         end.

Ltac pick_warning l :=
  lazymatch l with
  | ?a :: ?rest =>
      first [ solve [ exists a; split; [ cbn; auto 10 | reflexivity ] ]
            | pick_warning rest ]
  end.

Ltac warnings_goal :=
  lazymatch goal with
  | |- false = true -> _ => discriminate
  | |- true = true -> warned ?l _ => intros _; unfold warned; pick_warning l
  | |- warned _ _ -> _ => intros Hw; warnings_cases; reflexivity
  | |- forall w, In w _ -> _ =>
      intros w Hw Hty; warnings_cases; cbn; repeat split; congruence
  | |- NoDup _ =>
      cbn; repeat (constructor; [ cbn; intuition discriminate | ]); constructor
  end.

(** C5: [validateTheme] returns, together and in this order, exactly the
    warnings whose threshold is crossed: contrast when the contrast ratio
    of primary on background is below 4.5, an error when it is below 3 and
    a warning otherwise; thickness when [barStyle.thickness < 2]; opacity
    when [effects.opacity < 70]; size when [dimensions.width < 5]; dpi, an
    error, when [dimensions.dpi < 300].  No check hides another. *)
Theorem validateTheme_warnings
        (Math_pow : number -> number -> number) (toFixed : number -> Z -> string)
        (theme : ThemeConfig) :
  let ratio :=
    getContrastRatio Math_pow (primary (colorScheme theme))
                     (background (colorScheme theme)) in
  let warnings := validateTheme Math_pow toFixed theme in
  map (fun w => (Warning.type w, Warning.severity w)) warnings
  = (if (ratio <? 4.5)%float
     then [(WarningType.contrast,
            if (ratio <? 3)%float then Severity.error else Severity.warning)]
     else [])
    ++ (if (thickness (barStyle theme) <? 2)%float
        then [(WarningType.thickness, Severity.warning)] else [])
    ++ (if (opacity (effects theme) <? 70)%float
        then [(WarningType.opacity, Severity.warning)] else [])
    ++ (if (width (dimensions theme) <? 5)%float
        then [(WarningType.size, Severity.warning)] else [])
    ++ (if (dpi (dimensions theme) <? 300)%float
        then [(WarningType.dpi, Severity.error)] else []) /\
  (warned warnings WarningType.contrast <-> (ratio <? 4.5)%float = true) /\
  (forall w, In w warnings -> Warning.type w = WarningType.contrast ->
     (Warning.severity w = Severity.error <-> (ratio <? 3)%float = true) /\
     (Warning.severity w = Severity.warning <-> (ratio <? 3)%float = false)) /\
  (warned warnings WarningType.thickness
   <-> (thickness (barStyle theme) <? 2)%float = true) /\
  (warned warnings WarningType.opacity
   <-> (opacity (effects theme) <? 70)%float = true) /\
  (warned warnings WarningType.size
   <-> (width (dimensions theme) <? 5)%float = true) /\
  (warned warnings WarningType.dpi
   <-> (dpi (dimensions theme) <? 300)%float = true) /\
  (forall w, In w warnings -> Warning.type w = WarningType.dpi ->
     Warning.severity w = Severity.error) /\
  NoDup (map Warning.type warnings).
Proof.
  intros ratio warnings. subst warnings. unfold validateTheme. cbv zeta.
  fold ratio.
  repeat match goal with
         | |- context [Warning.Build_t _ ?m _] =>
             tryif is_var m then fail
             else (let msg := fresh "msg" in set (msg := m); clearbody msg)
         end.
  destruct (ratio <? 4.5)%float eqn:Econtrast,
           (ratio <? 3)%float eqn:Esevere,
           (thickness (barStyle theme) <? 2)%float eqn:Ethickness,
           (opacity (effects theme) <? 70)%float eqn:Eopacity,
           (width (dimensions theme) <? 5)%float eqn:Ewidth,
           (dpi (dimensions theme) <? 300)%float eqn:Edpi;
    cbn [push app map Warning.type Warning.severity];
    (split; [reflexivity|]);
    repeat apply conj; warnings_goal.
Qed.

(* ================================================================= *)
(** ** Properties of the image generator *)


Lemma forall_Zrange (P : Z -> bool) (lo : Z) (n : nat) :
  forallb P (Zrange lo n) = true ->
  forall v, (lo <= v < lo + Z.of_nat n)%Z -> P v = true.
Proof.
  intros Hall v Hv. rewrite forallb_forall in Hall. apply Hall.
  unfold Zrange. replace v with (lo + Z.of_nat (Z.to_nat (v - lo)))%Z by lia.
  apply (in_map (fun i => (lo + Z.of_nat i)%Z) (seq 0 n) (Z.to_nat (v - lo))).
  apply in_seq. lia.
Qed.

Lemma baseBarWidth_widthAt (theme : ThemeConfig) :
  baseBarWidth (themedBarMetrics theme)
  = widthAt (thickness (barStyle theme)) (dpi (dimensions theme)).
Proof. reflexivity. Qed.

Lemma baseBarGap_gapAt (theme : ThemeConfig) :
  baseBarGap (themedBarMetrics theme)
  = gapAt (spacing (barStyle theme)) (dpi (dimensions theme)).
Proof. reflexivity. Qed.

Lemma widthCheck_all (t d : Z) :
  (1 <= t <= 10)%Z -> (72 <= d <= 1200)%Z -> widthCheck t d = true.
Proof.
  intros Ht Hd.
  assert (Hall : forallb (fun t => forallb (widthCheck t) (Zrange 72 1129))
                         (Zrange 1 10) = true) by (vm_compute; reflexivity).
  pose proof (forall_Zrange _ 1 10 Hall t ltac:(lia)) as H. cbv beta in H.
  apply (forall_Zrange _ 72 1129 H d). lia.
Qed.

Lemma gapCheck_all (s d : Z) :
  (1 <= s <= 5)%Z -> (72 <= d <= 1200)%Z -> gapCheck s d = true.
Proof.
  intros Hs Hd.
  assert (Hall : forallb (fun s => forallb (gapCheck s) (Zrange 72 1129))
                         (Zrange 1 5) = true) by (vm_compute; reflexivity).
  pose proof (forall_Zrange _ 1 5 Hall s ltac:(lia)) as H. cbv beta in H.
  apply (forall_Zrange _ 72 1129 H d). lia.
Qed.

(** C6, as stated, fails: the default theme with thickness 1 has bars 2
    pixels wide, and still 2 pixels wide with thickness 2; at 72 dpi (the
    preview resolution) the default theme has bars 2 pixels wide with gaps
    of 1 pixel, and the same at 144 dpi. *)
Lemma doubling_does_not_double :
  let thin := withThickness DEFAULT_THEME 1 in
  let preview := withDpi DEFAULT_THEME 72 in
  baseBarWidth (themedBarMetrics thin) = 2%float /\
  baseBarWidth
    (themedBarMetrics (withThickness thin (2 * thickness (barStyle thin))))
    = 2%float /\
  baseBarWidth (themedBarMetrics preview) = 2%float /\
  baseBarWidth
    (themedBarMetrics (withDpi preview (2 * dpi (dimensions preview))))
    = 2%float /\
  baseBarGap (themedBarMetrics preview) = 1%float /\
  baseBarGap
    (themedBarMetrics (withDpi preview (2 * dpi (dimensions preview))))
    = 1%float.
Proof. vm_compute. repeat split. Qed.

(** C6, amended: the bar width is [4 * (thickness/5) * (dpi/300)] and the
    gap [2 * (spacing/3) * (dpi/300)], each rounded to a whole number of
    pixels and then raised to at least 2, respectively 1.  For every theme
    whose thickness, spacing and dpi are whole numbers in the accepted
    ranges (1..10, 1..5, 72..1200): the width is at least 2 and the gap at
    least 1; doubling the thickness, or the dpi, gives a width between
    [2w - 2] and [2w + 1]; doubling the spacing, or the dpi, gives a gap
    between [2g - 1] and [2g + 1]; and the doubling is exact when the
    quantity before rounding is a whole number of pixels not below the
    floor ([thickness * dpi] a multiple of 375 and at least 750 for the
    width, [spacing * dpi] a multiple of 450 for the gap). *)
Theorem themedBarMetrics_doubling (theme : ThemeConfig) (t s d : Z) :
  (1 <= t <= 10)%Z -> (1 <= s <= 5)%Z -> (72 <= d <= 1200)%Z ->
  thickness (barStyle theme) = ofZ t ->
  spacing (barStyle theme) = ofZ s ->
  dpi (dimensions theme) = ofZ d ->
  let w := baseBarWidth (themedBarMetrics theme) in
  let g := baseBarGap (themedBarMetrics theme) in
  let doubledThickness := withThickness theme (2 * thickness (barStyle theme)) in
  let doubledSpacing := withSpacing theme (2 * spacing (barStyle theme)) in
  let doubledDpi := withDpi theme (2 * dpi (dimensions theme)) in
  let wT := baseBarWidth (themedBarMetrics doubledThickness) in
  let wD := baseBarWidth (themedBarMetrics doubledDpi) in
  let gS := baseBarGap (themedBarMetrics doubledSpacing) in
  let gD := baseBarGap (themedBarMetrics doubledDpi) in
  w = Math_max 2 (Math_round (4 * (ofZ t / 5) * (ofZ d / 300))%float) /\
  g = Math_max 1 (Math_round (2 * (ofZ s / 3) * (ofZ d / 300))%float) /\
  (2 <=? w)%float = true /\
  (1 <=? g)%float = true /\
  between (2 * w - 2) wT (2 * w + 1) = true /\
  between (2 * w - 2) wD (2 * w + 1) = true /\
  between (2 * g - 1) gS (2 * g + 1) = true /\
  between (2 * g - 1) gD (2 * g + 1) = true /\
  (((t * d) mod 375 = 0)%Z -> (750 <= t * d)%Z ->
   (wT =? 2 * w)%float = true /\ (wD =? 2 * w)%float = true) /\
  (((s * d) mod 450 = 0)%Z ->
   (gS =? 2 * g)%float = true /\ (gD =? 2 * g)%float = true).
Proof.
  intros Ht Hs Hd Hthick Hspace Hdpi w g dT dS dD wT wD gS gD.
  subst w g wT wD gS gD dT dS dD.
  rewrite !baseBarWidth_widthAt, !baseBarGap_gapAt. cbn.
  rewrite Hthick, Hspace, Hdpi.
  pose proof (widthCheck_all t d Ht Hd) as Hw.
  pose proof (gapCheck_all s d Hs Hd) as Hg.
  unfold widthCheck in Hw. unfold gapCheck in Hg. cbv zeta in Hw, Hg.
  rewrite !andb_true_iff in Hw, Hg.
  destruct Hw as [[[Hw1 Hw2] Hw3] Hw4]. destruct Hg as [[[Hg1 Hg2] Hg3] Hg4].
  repeat apply conj; try assumption; try reflexivity.
  - intros Hmod Hbig. apply Z.eqb_eq in Hmod. apply Z.leb_le in Hbig.
    rewrite Hmod, Hbig in Hw4. simpl in Hw4.
    now apply andb_true_iff in Hw4.
  - intros Hmod. apply Z.eqb_eq in Hmod.
    assert (Hbig : (450 <=? s * d)%Z = true).
    { apply Z.leb_le. apply Z.eqb_eq in Hmod. apply Z.mod_divide in Hmod; [|lia].
      destruct Hmod as [q Hq]. nia. }
    rewrite Hmod, Hbig in Hg4. simpl in Hg4.
    now apply andb_true_iff in Hg4.
Qed.

Lemma themedBarMetrics_doubling_default :
  baseBarWidth (themedBarMetrics DEFAULT_THEME) = 4%float /\
  baseBarGap (themedBarMetrics DEFAULT_THEME) = 2%float /\
  (baseBarWidth
     (themedBarMetrics
        (withThickness DEFAULT_THEME (2 * thickness (barStyle DEFAULT_THEME))))
   =? 2 * baseBarWidth (themedBarMetrics DEFAULT_THEME))%float = true /\
  (baseBarGap
     (themedBarMetrics
        (withDpi DEFAULT_THEME (2 * dpi (dimensions DEFAULT_THEME))))
   =? 2 * baseBarGap (themedBarMetrics DEFAULT_THEME))%float = true.
Proof.
  pose proof (themedBarMetrics_doubling DEFAULT_THEME 5 3 300
                ltac:(lia) ltac:(lia) ltac:(lia) eq_refl eq_refl eq_refl) as H.
  cbv zeta in H.
  destruct H as (_ & _ & _ & _ & _ & _ & _ & _ & Hw & Hg).
  destruct (Hw eq_refl ltac:(lia)) as [HwT _].
  destruct (Hg eq_refl) as [_ HgD].
  repeat split; assumption.
Defined.

(* ----------------------------------------------------------------- *)
(** *** The batch renderers *)

Section Batches.
Variable Buffer : Type.
Variable renderOne : string -> Promise Buffer.

Lemma renderBatches_batchStep (codes : list string) :
  renderBatches Buffer renderOne codes
  = fold_left (batchStep renderOne)
      (map (fun i => slice codes i (i + batchSize)) (batchStarts (List.length codes)))
      (resolved []).
Proof.
  unfold renderBatches. cbv zeta.
  set (step := fun (state : Promise (Map Buffer)) (i : nat) => _).
  assert (Hfold : forall starts state,
             fold_left step starts state
             = fold_left (batchStep renderOne)
                 (map (fun i => slice codes i (i + batchSize)) starts) state).
  { induction starts as [|i starts IH]; intros state; simpl; [reflexivity|].
    now rewrite IH. }
  apply Hfold.
Qed.

Lemma firstn_plus {A} (n m : nat) (l : list A) :
  firstn (n + m) l = firstn n l ++ firstn m (skipn n l).
Proof.
  revert l. induction n as [|n IH]; intros l; simpl; [reflexivity|].
  destruct l as [|x l]; simpl.
  - now rewrite firstn_nil.
  - now rewrite IH.
Qed.

Lemma concat_slices {A} (b : nat) (l : list A) (m : nat) :
  List.concat (map (fun i => slice l i (i + b))
                   (map (fun k => k * b) (seq 0 m)))
  = firstn (m * b) l.
Proof.
  induction m as [|m IH]; [reflexivity|].
  rewrite seq_S, !map_app, concat_app, IH.
  cbn [map List.concat Nat.add]. rewrite app_nil_r. unfold slice.
  replace (m * b + b - m * b) with b by lia.
  replace (S m * b) with (m * b + b) by lia.
  now rewrite firstn_plus.
Qed.

(** The batches, one after the other, are the codes. *)
Lemma concat_batches (codes : list string) :
  List.concat (map (fun i => slice codes i (i + batchSize))
              (batchStarts (List.length codes)))
  = codes.
Proof.
  unfold batchStarts. rewrite concat_slices. apply firstn_all2.
  unfold batchSize.
  pose proof (Nat.div_mod_eq (List.length codes + (50 - 1)) 50).
  pose proof (Nat.mod_upper_bound (List.length codes + (50 - 1)) 50).
  lia.
Qed.

Lemma Promise_all_app {A} (ps qs : list (Promise A)) :
  Promise_all (ps ++ qs)
  = await (Promise_all ps) (fun l =>
      await (Promise_all qs) (fun l' => resolved (l ++ l'))).
Proof.
  induction ps as [|[a | e] ps IH]; simpl.
  - now destruct (Promise_all qs).
  - rewrite IH. destruct (Promise_all ps); simpl; [|reflexivity].
    now destruct (Promise_all qs).
  - reflexivity.
Qed.

Lemma fold_batchStep_rejected (batches : list (list string)) (e : string) :
  fold_left (batchStep renderOne) batches (rejected e) = rejected e.
Proof. induction batches; simpl; auto. Qed.

Lemma fold_batchStep_all (batches : list (list string)) :
  forall results,
    fold_left (batchStep renderOne) batches (resolved results)
    = await (Promise_all (map (itemPromise renderOne) (List.concat batches)))
            (fun all => resolved (setAll results all)).
Proof.
  induction batches as [|batch batches IH]; intros results; simpl.
  - reflexivity.
  - rewrite map_app, Promise_all_app.
    destruct (Promise_all (map (itemPromise renderOne) batch)) as [l | e]; simpl.
    + rewrite IH.
      destruct (Promise_all (map (itemPromise renderOne) (List.concat batches))); simpl;
        [|reflexivity].
      unfold setAll. now rewrite fold_left_app.
    + apply fold_batchStep_rejected.
Qed.

(** The batch loop gives what one [Promise.all] over all the codes gives. *)
Lemma renderBatches_all (codes : list string) :
  renderBatches Buffer renderOne codes
  = await (Promise_all (map (itemPromise renderOne) codes))
          (fun all => resolved (setAll [] all)).
Proof.
  now rewrite renderBatches_batchStep, fold_batchStep_all, concat_batches.
Qed.


End Batches.



(** The same batch, evaluated: the code "BAD000" makes both batch
    renderers reject, although "ABC123" and "XYZ789" render; without it
    the batch resolves to the map of the two images. *)
Example batch_render_evaluated :
  generateWaveCodes string unit (fun code _ => failsOnBAD000 code)
                    ["ABC123"; "BAD000"; "XYZ789"]%string tt
  = rejected "render failed" /\
  generateThemedWaveCodes string (fun code _ => failsOnBAD000 code)
                          ["ABC123"; "BAD000"; "XYZ789"]%string None
  = rejected "render failed" /\
  generateWaveCodes string unit (fun code _ => failsOnBAD000 code)
                    ["ABC123"; "XYZ789"]%string tt
  = resolved [("ABC123", "png of ABC123"); ("XYZ789", "png of XYZ789")]%string.
Proof. repeat split. Qed.

(* ================================================================= *)
(** ** Further properties, from the test suites *)

(** The ordinals of the alphabet are A..Z -> 0..25 and 0..9 -> 26..35,
    in the order of the characters, lower case counting as upper case. *)
Example codeToNumericValues_examples :
  codeToNumericValues "ABCXYZ" = [0; 1; 2; 23; 24; 25]%Z /\
  codeToNumericValues "012789" = [26; 27; 28; 33; 34; 35]%Z /\
  codeToNumericValues "A1B2C3" = [0; 27; 1; 28; 2; 29]%Z /\
  codeToNumericValues "abc123" = [0; 1; 2; 27; 28; 29]%Z /\
  codeToNumericValues ALPHABET = ordinals.
Proof. repeat split. Qed.

(** [isValidCodeFormat] accepts six characters of the alphabet in
    either case, and rejects other lengths and other characters. *)
Example isValidCodeFormat_examples :
  map isValidCodeFormat ["ABC123"; "ZZZZZZ"; "000000"; "abc123"]%string
  = [true; true; true; true] /\
  map isValidCodeFormat ["ABC12"; "ABC1234"; ""; "ABC12!"; "ABC 12"]%string
  = [false; false; false; false; false].
Proof. repeat split. Qed.

Lemma Map_get_set {V} (m : Map V) (k k' : string) (v : V) :
  Map_get (Map_set m k v) k'
  = if String.eqb k k' then Some v else Map_get m k'.
Proof.
  induction m as [|[k0 v0] m IH]; simpl.
  - reflexivity.
  - destruct (String.eqb_spec k0 k) as [-> | Hne]; simpl.
    + now destruct (String.eqb k k').
    + rewrite IH. destruct (String.eqb_spec k0 k') as [-> | Hne'].
      * destruct (String.eqb_spec k k'); [congruence | reflexivity].
      * reflexivity.
Qed.

Lemma Map_get_setAll {V} (image : string -> V) (codes : list string)
      (c : string) :
  forall m : Map V,
    Map_get (setAll m (map (fun code => (code, image code)) codes)) c
    = if existsb (String.eqb c) codes then Some (image c) else Map_get m c.
Proof.
  induction codes as [|x codes IH]; intros m; simpl; [reflexivity|].
  unfold setAll in *. simpl. rewrite IH, Map_get_set.
  destruct (existsb (String.eqb c) codes); [now rewrite orb_true_r|].
  rewrite orb_false_r, (String.eqb_sym c x).
  now destruct (String.eqb_spec x c) as [-> | _].
Qed.

Lemma Promise_all_resolved {V} (renderOne : string -> Promise V)
      (image : string -> V) (codes : list string) :
  (forall c, In c codes -> renderOne c = resolved (image c)) ->
  Promise_all (map (itemPromise renderOne) codes)
  = resolved (map (fun code => (code, image code)) codes).
Proof.
  induction codes as [|x codes IH]; intros Hall; simpl; [reflexivity|].
  unfold itemPromise at 1. rewrite (Hall x (or_introl eq_refl)). simpl.
  rewrite IH; [reflexivity|]. intros c Hc. apply Hall. now right.
Qed.

(** X1: when the rendering of every code of the list resolves, both batch
    renderers resolve to a map that holds, for each code of the list, the
    image of that code, and nothing else. *)
Theorem batch_render_resolved
        (Buffer WaveCodeOptions : Type)
        (generateWaveCode : string -> WaveCodeOptions -> Promise Buffer)
        (rasterize : string -> ThemeConfig -> Promise Buffer)
        (codes : list string) (image : string -> Buffer) :
  (forall options,
     (forall c, In c codes -> generateWaveCode c options = resolved (image c)) ->
     exists results,
       generateWaveCodes Buffer WaveCodeOptions generateWaveCode codes options
       = resolved results /\
       (forall c, In c codes -> Map_get results c = Some (image c)) /\
       (forall c, ~ In c codes -> Map_get results c = None)) /\
  (forall themeConfig,
     (forall c, In c codes ->
        generateThemedWaveCode Buffer rasterize c themeConfig = resolved (image c)) ->
     exists results,
       generateThemedWaveCodes Buffer rasterize codes themeConfig
       = resolved results /\
       (forall c, In c codes -> Map_get results c = Some (image c)) /\
       (forall c, ~ In c codes -> Map_get results c = None)).
Proof.
  assert (Hmain : forall renderOne : string -> Promise Buffer,
    (forall c, In c codes -> renderOne c = resolved (image c)) ->
    exists results,
      renderBatches Buffer renderOne codes = resolved results /\
      (forall c, In c codes -> Map_get results c = Some (image c)) /\
      (forall c, ~ In c codes -> Map_get results c = None)).
  { intros renderOne Hall. rewrite renderBatches_all.
    rewrite (Promise_all_resolved renderOne image codes Hall). simpl.
    eexists. split; [reflexivity|]. split; intros c Hc;
      rewrite Map_get_setAll.
    - assert (H : existsb (String.eqb c) codes = true).
      { apply existsb_exists. exists c. split; [exact Hc | apply String.eqb_refl]. }
      now rewrite H.
    - destruct (existsb (String.eqb c) codes) eqn:E; [|reflexivity].
      apply existsb_exists in E as (y & Hy & Heq).
      apply String.eqb_eq in Heq. subst. contradiction. }
  split.
  - intros options Hall. apply (Hmain (fun code => generateWaveCode code options) Hall).
  - intros themeConfig Hall.
    apply (Hmain (fun code => generateThemedWaveCode Buffer rasterize code themeConfig) Hall).
Qed.

(** The default theme raises no warning, and black on white has a
    contrast ratio above 20, for a [Math.pow] with [pow(1, 2.4) = 1]. *)
Theorem validateTheme_default
        (Math_pow : number -> number -> number) (toFixed : number -> Z -> string) :
  Math_pow 1%float 2.4%float = 1%float ->
  validateTheme Math_pow toFixed DEFAULT_THEME = [] /\
  (20 <? getContrastRatio Math_pow "#000000" "#FFFFFF")%float = true.
Proof.
  intros Hpow. unfold validateTheme, getContrastRatio, getLuminance.
  cbn [DEFAULT_THEME colorScheme primary background barStyle thickness effects
       opacity dimensions width dpi].
  replace (hexToRgb "#000000") with (Some {| r := 0; g := 0; b := 0 |})
    by reflexivity.
  replace (hexToRgb "#FFFFFF") with (Some {| r := 255; g := 255; b := 255 |})
    by reflexivity.
  cbn [r g b]. cbv zeta.
  replace ((ofZ 255 / 255 + 0.055) / 1.055)%float with 1%float by reflexivity.
  replace (ofZ 255 / 255 <=? 0.03928)%float with false by reflexivity.
  rewrite Hpow. split; reflexivity.
Qed.

Lemma validateTheme_default_constant_pow :
  validateTheme (fun _ _ => 1%float) (fun _ _ => ""%string) DEFAULT_THEME = [].
Proof.
  exact (proj1 (validateTheme_default (fun _ _ => 1%float) (fun _ _ => ""%string)
                  eq_refl)).
Defined.

(* ================================================================= *)
(** ** Further properties of the code generator *)

Lemma length_upperUnit_pos (u : N) : 1 <= List.length (upperUnit u).
Proof.
  unfold upperUnit.
  repeat match goal with
         | |- context [if ?b then _ else _] => destruct b
         end; simpl; lia.
Qed.

Lemma length_flat_map_upperUnit_ge (s : list N) :
  List.length s <= List.length (flat_map upperUnit s).
Proof.
  induction s as [|u s IH]; simpl; [lia|].
  rewrite length_app. pose proof (length_upperUnit_pos u). lia.
Qed.

(** A unit whose upper-case form is one unit of [[A-Z0-9]] is an ASCII
    letter or digit. *)
Lemma upperUnit_alphanumeric (u : N) :
  List.length (upperUnit u) = 1 ->
  Forall (fun x => inClass x = true) (upperUnit u) ->
  alphanumeric u = true.
Proof.
  unfold upperUnit, alphanumeric.
  destruct ((97 <=? u)%N && (u <=? 122)%N) eqn:Elow.
  { intros _ _. apply orb_true_r. }
  destruct (N.eqb_spec u 181) as [-> | _]; [intros _ H; inversion H; discriminate|].
  destruct (N.eqb_spec u 223) as [-> | _]; [discriminate|].
  destruct ((224 <=? u)%N && (u <=? 254)%N && negb (u =? 247)%N) eqn:Ehigh.
  { intros _ H. inversion H as [|? ? Hc _]; subst. exfalso.
    apply andb_true_iff in Ehigh as [Ehigh _].
    apply andb_true_iff in Ehigh as [H1 H2].
    apply N.leb_le in H1, H2. apply inClass_cases in Hc. lia. }
  destruct (N.eqb_spec u 255) as [-> | _]; [intros _ H; inversion H; discriminate|].
  intros _ H. inversion H as [|? ? Hc _]; subst. now rewrite Hc.
Qed.

Lemma alphanumeric_upperUnit (u : N) :
  alphanumeric u = true ->
  exists x, upperUnit u = [x] /\ inClass x = true.
Proof.
  unfold alphanumeric. intros H. apply orb_true_iff in H as [H | H].
  - exists u. split; [now apply upperUnit_inClass | exact H].
  - unfold upperUnit. rewrite H. exists (u - 32)%N. split; [reflexivity|].
    apply andb_true_iff in H as [H1 H2]. apply N.leb_le in H1, H2.
    unfold inClass. apply orb_true_iff. left.
    apply andb_true_iff. split; apply N.leb_le; lia.
Qed.

Lemma flat_map_upperUnit_alphanumeric (s : list N) :
  List.length (flat_map upperUnit s) = List.length s ->
  Forall (fun x => inClass x = true) (flat_map upperUnit s) ->
  Forall (fun u => alphanumeric u = true) s.
Proof.
  induction s as [|u s IH]; intros Hlen Hall; [constructor|].
  simpl in Hlen, Hall. rewrite length_app in Hlen.
  apply Forall_app in Hall as [Hu Hs].
  pose proof (length_upperUnit_pos u). pose proof (length_flat_map_upperUnit_ge s).
  constructor.
  - apply upperUnit_alphanumeric; [lia | exact Hu].
  - apply IH; [lia | exact Hs].
Qed.

Lemma alphanumeric_flat_map_upperUnit (s : list N) :
  Forall (fun u => alphanumeric u = true) s ->
  List.length (flat_map upperUnit s) = List.length s /\
  Forall (fun x => inClass x = true) (flat_map upperUnit s).
Proof.
  induction 1 as [|u s Hu _ [IHlen IHall]]; [split; [reflexivity | constructor]|].
  destruct (alphanumeric_upperUnit u Hu) as (x & Hx & Hc).
  simpl. rewrite Hx. simpl. split; [now rewrite IHlen | now constructor].
Qed.

Lemma length_units (code : string) :
  List.length (units code) = String.length code.
Proof.
  unfold units. rewrite length_map.
  induction code as [|a code IH]; simpl; [reflexivity | now rewrite IH].
Qed.

(** X2: [isValidCodeFormat] and the ASCII letters and digits.  Every
    string of six ASCII letters or digits, in either case, is accepted;
    an accepted string has length 6; and an accepted string whose
    characters are all at most U+00FF consists of ASCII letters and
    digits only: among these characters none but a letter or a digit
    becomes one in upper case (the sharp s becomes "SS", seven characters
    in all).  The last part stops at U+00FF: beyond, the long s U+017F
    and the dotless i U+0131 are S and I in upper case. *)
Theorem isValidCodeFormat_alphanumeric (code : string) :
  (String.length code = 6 -> forallb alphanumeric (units code) = true ->
   isValidCodeFormat code = true) /\
  (isValidCodeFormat code = true -> String.length code = 6) /\
  (Forall (fun u => (u < 256)%N) (units code) ->
   isValidCodeFormat code = true ->
   forallb alphanumeric (units code) = true).
Proof.
  split; [|split].
  - intros Hlen Hall. rewrite forallb_forall, <- Forall_forall in Hall.
    apply alphanumeric_flat_map_upperUnit in Hall as [Hl Hc].
    unfold isValidCodeFormat, CODE_LENGTH. rewrite Hlen. simpl.
    apply validPattern_test_spec. unfold toUpperCase. split; [|exact Hc].
    now rewrite Hl, length_units.
  - intros H. now apply isValidCodeFormat_upper in H as [Hlen _].
  - intros _ H. rewrite forallb_forall, <- Forall_forall.
    apply isValidCodeFormat_upper in H as [Hlen H].
    apply validPattern_test_spec in H as [Hup Hall].
    apply flat_map_upperUnit_alphanumeric; [|exact Hall].
    unfold toUpperCase in Hup. now rewrite Hup, length_units.
Qed.

(** X3: a code that [codeSchema] accepts (the public lookup) is valid for
    [isValidCodeFormat] and is its own upper-case form, so that the
    [toUpperCase] the lookup applies to it changes nothing; the converse
    fails, [isValidCodeFormat] also accepting lower case: a valid code is
    accepted by [codeSchema] exactly when it has no lower-case letter. *)
Theorem codeSchema_isValidCodeFormat (code : string) :
  (codeSchema code = true ->
   isValidCodeFormat code = true /\ toUpperCase code = units code) /\
  (isValidCodeFormat code = true ->
   (codeSchema code = true <-> toUpperCase code = units code)) /\
  isValidCodeFormat "abc123" = true /\ codeSchema "abc123" = false.
Proof.
  assert (Hschema : codeSchema code = true ->
                    isValidCodeFormat code = true /\ toUpperCase code = units code).
  { unfold codeSchema. intros H.
    pose proof H as H'. apply validPattern_test_spec in H' as [Hlen Hall].
    assert (Hup : toUpperCase code = units code)
      by (now apply flat_map_upperUnit_inClass).
    split; [|exact Hup].
    unfold isValidCodeFormat, CODE_LENGTH.
    rewrite <- length_units, Hlen. simpl. now rewrite Hup. }
  split; [exact Hschema|]. split; [|split; reflexivity].
  intros Hvalid. split; [intros H; now apply Hschema|].
  intros Hup. apply isValidCodeFormat_upper in Hvalid as [_ Hvalid].
  unfold codeSchema. now rewrite <- Hup.
Qed.

Lemma charValue_in_range (u : N) : (0 <= charValue u <= 35)%Z.
Proof.
  destruct (inClass u) eqn:E; [now apply charValue_range|].
  rewrite charValue_outside by exact E. lia.
Qed.

Lemma alphabetAt_charValue (u : N) :
  inClass u = true -> alphabetAt (charValue u) = u.
Proof.
  intros H. pose proof (charValue_range u H) as Hr.
  pose (check := fun v : Z =>
    forallb (fun u => negb (inClass u) || negb (charValue u =? v)%Z
                      || (alphabetAt v =? u)%N)
            (map N.of_nat (seq 0 128))).
  assert (Hall : forallb check ordinals = true) by (vm_compute; reflexivity).
  pose proof (forall_ordinals check Hall (charValue u) Hr) as Hc.
  unfold check in Hc. rewrite forallb_forall in Hc.
  assert (Hu : (u < 128)%N) by (apply inClass_cases in H; lia).
  assert (Hin : In u (map N.of_nat (seq 0 128))).
  { replace u with (N.of_nat (N.to_nat u)) by lia.
    apply in_map, in_seq. lia. }
  specialize (Hc u Hin). rewrite H, Z.eqb_refl in Hc.
  now apply N.eqb_eq.
Qed.

(** X4: the values of [codeToNumericValues] are indices of [ALPHABET],
    whatever the input: each lies in 0..35, an ordinal is the position of
    its character in [ALPHABET] and conversely, so that reading
    [ALPHABET] at the values of a valid code gives back the code in upper
    case. *)
Theorem codeToNumericValues_alphabet (code : string) :
  Forall (fun v => (0 <= v <= 35)%Z) (codeToNumericValues code) /\
  (forall v, (0 <= v <= 35)%Z -> charValue (alphabetAt v) = v) /\
  (forall u, inClass u = true -> alphabetAt (charValue u) = u) /\
  (isValidCodeFormat code = true ->
   map alphabetAt (codeToNumericValues code) = toUpperCase code).
Proof.
  split; [|split; [|split]].
  - unfold codeToNumericValues. apply Forall_map, Forall_forall.
    intros u _. apply charValue_in_range.
  - intros v Hv.
    assert (Hall : forallb (fun v => (charValue (alphabetAt v) =? v)%Z) ordinals
                   = true) by (vm_compute; reflexivity).
    apply Z.eqb_eq. exact (forall_ordinals _ Hall v Hv).
  - exact alphabetAt_charValue.
  - intros Hvalid. apply isValidCodeFormat_upper in Hvalid as [_ Hvalid].
    apply validPattern_test_spec in Hvalid as [_ Hall].
    unfold codeToNumericValues. rewrite map_map.
    rewrite <- (map_id (toUpperCase code)) at 2.
    apply map_ext_in. intros u Hu. apply alphabetAt_charValue.
    rewrite Forall_forall in Hall. now apply Hall.
Qed.

(** X5: whatever the input string, every bar of its pattern lies between
    0.1 and 1: no amplitude is zero, negative or above 1, also for a
    malformed code. *)
Theorem codeToWavePattern_bars_bounded (code : string) :
  Forall (fun x => (0.1 <=? x)%float = true /\ (x <=? 1)%float = true)
         (codeToWavePattern code).
Proof.
  rewrite codeToWavePattern_flat_map. apply Forall_flat_map.
  unfold codeToNumericValues. apply Forall_map, Forall_forall. intros u _.
  pose (check := fun v : Z =>
    forallb (fun x => (0.1 <=? x)%float && (x <=? 1)%float) (barsOf v)).
  assert (Hall : forallb check ordinals = true) by (vm_compute; reflexivity).
  pose proof (forall_ordinals check Hall (charValue u) (charValue_in_range u)) as H.
  unfold check in H. rewrite forallb_forall in H. apply Forall_forall.
  intros x Hx. specialize (H x Hx). now apply andb_true_iff in H.
Qed.

(** X6: two valid codes have the same pattern exactly when they are the
    same up to the case of their letters: the pattern tells apart any two
    codes that differ in upper case, and never tells a code from its
    lower-case spelling. *)
Theorem codeToWavePattern_same_iff (c1 c2 : string) :
  isValidCodeFormat c1 = true ->
  isValidCodeFormat c2 = true ->
  (codeToWavePattern c1 = codeToWavePattern c2
   <-> toUpperCase c1 = toUpperCase c2).
Proof.
  intros H1 H2.
  apply isValidCodeFormat_upper in H1 as [_ H1].
  apply isValidCodeFormat_upper in H2 as [_ H2].
  apply validPattern_test_spec in H1 as [_ H1].
  apply validPattern_test_spec in H2 as [_ H2].
  rewrite !codeToWavePattern_flat_map. unfold codeToNumericValues. split.
  - intros Heq. apply flat_map_barsOf_injective in Heq.
    + now apply map_charValue_injective in Heq.
    + apply Forall_map, Forall_forall. intros u _. apply charValue_in_range.
    + apply Forall_map, Forall_forall. intros u _. apply charValue_in_range.
  - now intros ->.
Qed.

Lemma codeToWavePattern_same_iff_abc123 :
  isValidCodeFormat "abc123" = true /\
  isValidCodeFormat "ABC123" = true /\
  codeToWavePattern "abc123" = codeToWavePattern "ABC123".
Proof.
  split; [reflexivity|]. split; [reflexivity|].
  exact (proj2 (codeToWavePattern_same_iff "abc123" "ABC123" eq_refl eq_refl)
               eq_refl).
Defined.

(* ================================================================= *)
(** ** Order of binary64 numbers *)

Lemma SFcompare_antisym (a b : spec_float) :
  SFcompare b a = option_map CompOpp (SFcompare a b).
Proof.
  destruct a as [sa | sa | | sa ma ea], b as [sb | sb | | sb mb eb]; simpl;
    try reflexivity;
    try (destruct sa; reflexivity); try (destruct sb; reflexivity);
    try (destruct sa, sb; reflexivity).
  pose proof (Pos.compare_cont_antisym ma mb Eq) as H. simpl in H.
  destruct sa, sb; try reflexivity; f_equal;
    rewrite (Z.compare_antisym ea eb);
    destruct (ea ?= eb)%Z; simpl; try reflexivity.
  - f_equal. exact (eq_sym H).
  - exact (eq_sym H).
Qed.

Lemma SFcompare_Eq (a b : spec_float) :
  SFcompare a b = Some Eq ->
  a = b \/ exists sa sb, a = S754_zero sa /\ b = S754_zero sb.
Proof.
  destruct a as [sa | sa | | sa ma ea], b as [sb | sb | | sb mb eb]; simpl;
    try discriminate.
  - intros _. right. now exists sa, sb.
  - destruct sb; discriminate.
  - destruct sb; discriminate.
  - destruct sa; discriminate.
  - destruct sa, sb; try discriminate; intros _; now left.
  - destruct sa; discriminate.
  - destruct sa; discriminate.
  - destruct sb; discriminate.
  - intros H. left.
    destruct sa, sb; try discriminate;
      destruct (Z.compare_spec ea eb) as [-> | |]; try discriminate;
      injection H as H.
    + apply (f_equal CompOpp) in H. rewrite CompOpp_involutive in H. simpl in H.
      apply Pos.compare_eq in H. now subst.
    + apply Pos.compare_eq in H. now subst.
Qed.

Lemma is_nan_spec (x : float) :
  is_nan x = true <-> Prim2SF x = S754_nan.
Proof.
  unfold is_nan. rewrite FloatAxioms.eqb_spec, negb_true_iff. unfold SFeqb.
  destruct (Prim2SF x) as [s | s | | s m e]; simpl.
  - split; discriminate.
  - destruct s; split; discriminate.
  - split; reflexivity.
  - rewrite Z.compare_refl.
    assert (H : Pos.compare_cont Eq m m = Eq) by apply Pos.compare_refl.
    destruct s; simpl; change (PosDef.Pos.compare_cont Eq m m) with (Pos.compare_cont Eq m m);
      rewrite H; split; discriminate.
Qed.

(** Two numbers, neither of which is NaN nor below the other, are the same
    number or two zeros. *)
Lemma not_ltb_eq (a b : float) :
  is_nan a = false -> is_nan b = false ->
  (a <? b)%float = false -> (b <? a)%float = false ->
  a = b \/ (a = zero \/ a = neg_zero) /\ (b = zero \/ b = neg_zero).
Proof.
  intros Ha Hb Hab Hba.
  rewrite FloatAxioms.ltb_spec in Hab, Hba. unfold SFltb in Hab, Hba.
  rewrite (SFcompare_antisym (Prim2SF a) (Prim2SF b)) in Hba.
  assert (Hna : Prim2SF a <> S754_nan)
    by (intros H; apply is_nan_spec in H; congruence).
  assert (Hnb : Prim2SF b <> S754_nan)
    by (intros H; apply is_nan_spec in H; congruence).
  destruct (SFcompare (Prim2SF a) (Prim2SF b)) as [[| |]|] eqn:E;
    simpl in Hba; try discriminate.
  - apply SFcompare_Eq in E as [E | (sa & sb & Ea & Eb)].
    + left. now apply Prim2SF_inj.
    + right. split.
      * destruct sa; [right | left]; apply Prim2SF_inj; rewrite Ea; reflexivity.
      * destruct sb; [right | left]; apply Prim2SF_inj; rewrite Eb; reflexivity.
  - exfalso. destruct (Prim2SF a), (Prim2SF b); simpl in E; congruence.
Qed.

Lemma ltb_antisym (a b : float) :
  (a <? b)%float = true -> (b <? a)%float = false.
Proof.
  rewrite !FloatAxioms.ltb_spec. unfold SFltb.
  rewrite (SFcompare_antisym (Prim2SF a) (Prim2SF b)).
  now destruct (SFcompare (Prim2SF a) (Prim2SF b)) as [[| |]|].
Qed.

Lemma Math_max_comm (a b : number) : Math_max a b = Math_max b a.
Proof.
  unfold Math_max. rewrite (orb_comm (is_nan b)).
  destruct (is_nan a) eqn:Ha, (is_nan b) eqn:Hb; simpl; try reflexivity.
  destruct (b <? a)%float eqn:Hba, (a <? b)%float eqn:Hab; try reflexivity.
  - apply ltb_antisym in Hba. congruence.
  - destruct (not_ltb_eq a b Ha Hb Hab Hba) as [-> | [[-> | ->] [-> | ->]]];
      reflexivity.
Qed.

Lemma Math_min_comm (a b : number) : Math_min a b = Math_min b a.
Proof.
  unfold Math_min. rewrite (orb_comm (is_nan b)).
  destruct (is_nan a) eqn:Ha, (is_nan b) eqn:Hb; simpl; try reflexivity.
  destruct (a <? b)%float eqn:Hab, (b <? a)%float eqn:Hba; try reflexivity.
  - apply ltb_antisym in Hba. congruence.
  - destruct (not_ltb_eq a b Ha Hb Hab Hba) as [-> | [[-> | ->] [-> | ->]]];
      reflexivity.
Qed.

(* ================================================================= *)
(** ** Further properties of the theme model *)

(** X7: the contrast ratio does not depend on the order of its two
    colours, whatever they are and whatever [Math.pow] computes. *)
Theorem getContrastRatio_sym
        (Math_pow : number -> number -> number) (color1 color2 : string) :
  getContrastRatio Math_pow color1 color2 = getContrastRatio Math_pow color2 color1.
Proof.
  unfold getContrastRatio. cbv zeta.
  now rewrite (Math_max_comm (getLuminance Math_pow color1)),
              (Math_min_comm (getLuminance Math_pow color1)).
Qed.

Lemma hexToRgb_cons (a : ascii) (rest : string) :
  hexToRgb (String a rest)
  = if Ascii.eqb a "#" then parseSixDigits rest
    else parseSixDigits (String a rest).
Proof.
  destruct a as [[] [] [] [] [] [] [] []]; reflexivity.
Qed.

Lemma hexDigit_hexClass (c : ascii) :
  (hexClass c = true -> exists d, hexDigit c = Some d /\ (0 <= d <= 15)%Z) /\
  (hexClass c = false -> hexDigit c = None).
Proof.
  unfold hexClass, hexDigit. cbv zeta.
  destruct (N.leb_spec 48 (N_of_ascii c)), (N.leb_spec (N_of_ascii c) 57),
    (N.leb_spec 65 (N_of_ascii c)), (N.leb_spec (N_of_ascii c) 70),
    (N.leb_spec 97 (N_of_ascii c)), (N.leb_spec (N_of_ascii c) 102);
    simpl; split; intros; try discriminate; try reflexivity.
  all: try (eexists; split; [reflexivity | lia]).
  all: lia.
Qed.

Lemma parseHexPair_spec (hi lo : ascii) :
  (hexClass hi && hexClass lo = true ->
   exists v, parseHexPair hi lo = Some v /\ (0 <= v <= 255)%Z) /\
  (hexClass hi && hexClass lo = false -> parseHexPair hi lo = None).
Proof.
  unfold parseHexPair.
  destruct (hexDigit_hexClass hi) as [Hhi Hhi'], (hexDigit_hexClass lo) as [Hlo Hlo'].
  destruct (hexClass hi), (hexClass lo); cbn [andb]; split; intros H;
    try discriminate.
  - destruct (Hhi eq_refl) as (h & -> & Hh), (Hlo eq_refl) as (l & -> & Hl).
    eexists. split; [reflexivity | lia].
  - destruct (Hhi eq_refl) as (h & -> & Hh). now rewrite Hlo'.
  - now rewrite Hhi'.
  - now rewrite Hhi'.
Qed.

Lemma parseSixDigits_spec (digits : string) :
  (String.length digits =? 6)%nat
  && forallb hexClass (list_ascii_of_string digits) = true /\
  (exists rgb, parseSixDigits digits = Some rgb /\
     (0 <= r rgb <= 255)%Z /\ (0 <= g rgb <= 255)%Z /\ (0 <= b rgb <= 255)%Z)
  \/
  (String.length digits =? 6)%nat
  && forallb hexClass (list_ascii_of_string digits) = false /\
  parseSixDigits digits = None.
Proof.
  unfold parseSixDigits.
  assert (Hlen : String.length digits = List.length (list_ascii_of_string digits)).
  { induction digits as [|a d IH]; simpl; [reflexivity | now rewrite IH]. }
  rewrite Hlen.
  destruct (list_ascii_of_string digits)
    as [|r1 [|r2 [|g1 [|g2 [|b1 [|b2 [|x l]]]]]]];
    try (right; split; reflexivity).
  unfold parseHexPair. cbn [List.length Nat.eqb forallb andb].
  repeat match goal with
         | |- context [hexClass ?c] =>
             let H := fresh "H" in
             let H' := fresh "H" in
             let d := fresh "d" in
             let Hd := fresh "Hd" in
             destruct (hexDigit_hexClass c) as [H H'];
             destruct (hexClass c);
             [ destruct (H eq_refl) as (d & -> & Hd) | rewrite (H' eq_refl) ];
             clear H H'
         end;
    cbn [andb];
    first [ right; split; reflexivity
          | left; split; [reflexivity|];
            eexists; split; [reflexivity|]; cbn [r g b]; lia ].
Qed.

(** X8: [hexToRgb] parses exactly the strings made of six hexadecimal
    digits in either case, with or without one leading [#], into three
    components between 0 and 255; every other string gives [null].  It
    therefore parses every colour the theme schema accepts, and also the
    same digits without the [#]. *)
Theorem hexToRgb_accepts (hex : string) :
  (forall rgb, hexToRgb hex = Some rgb ->
     (0 <= r rgb <= 255)%Z /\ (0 <= g rgb <= 255)%Z /\ (0 <= b rgb <= 255)%Z) /\
  (hexToRgb hex = None <->
   colorPattern_test hex = false /\ colorPattern_test (String "#" hex) = false) /\
  (colorPattern_test hex = true -> hexToRgb hex <> None).
Proof.
  assert (Hpattern : forall digits,
            colorPattern_test (String "#" digits)
            = (String.length digits =? 6)%nat
              && forallb hexClass (list_ascii_of_string digits))
    by reflexivity.
  assert (Hmain :
    (forall rgb, hexToRgb hex = Some rgb ->
       (0 <= r rgb <= 255)%Z /\ (0 <= g rgb <= 255)%Z /\ (0 <= b rgb <= 255)%Z) /\
    (hexToRgb hex = None <->
     colorPattern_test hex = false /\ colorPattern_test (String "#" hex) = false)).
  { destruct hex as [|a rest].
    - split; [discriminate|]. split; [intros _; split; reflexivity | reflexivity].
    - rewrite hexToRgb_cons, Hpattern.
      destruct (Ascii.eqb_spec a "#") as [-> | Hne].
      + rewrite Hpattern.
        assert (Hsecond : (String.length (String "#" rest) =? 6)%nat
                          && forallb hexClass (list_ascii_of_string (String "#" rest))
                          = false) by (simpl; apply andb_false_r).
        rewrite Hsecond.
        destruct (parseSixDigits_spec rest)
          as [[Hp (rgb & -> & Hb)] | [Hp ->]]; rewrite Hp.
        * split; [intros ? [= <-]; exact Hb|].
          split; [discriminate | intros [? _]; discriminate].
        * split; [discriminate|]. split; auto.
      + assert (Hfirst : colorPattern_test (String a rest) = false).
        { destruct a as [[] [] [] [] [] [] [] []]; try reflexivity.
          now contradiction Hne. }
        rewrite Hfirst.
        destruct (parseSixDigits_spec (String a rest))
          as [[Hp (rgb & -> & Hb)] | [Hp ->]]; rewrite Hp.
        * split; [intros ? [= <-]; exact Hb|].
          split; [discriminate | intros [_ ?]; discriminate].
        * split; [discriminate|]. split; auto. }
  destruct Hmain as [Hbounds Hnone].
  split; [exact Hbounds|]. split; [exact Hnone|].
  intros Hok Hn. apply Hnone in Hn as [Hn _]. congruence.
Qed.

Lemma getLuminance_unparsed
      (Math_pow : number -> number -> number) (hex : string) :
  hexToRgb hex = None ->
  getLuminance Math_pow hex = getLuminance Math_pow "#000000".
Proof.
  intros H. unfold getLuminance at 1. rewrite H. reflexivity.
Qed.

(** X9: a colour that [hexToRgb] cannot parse counts as black: its
    luminance is 0, so [validateTheme] returns for a theme with such a
    primary colour exactly what it returns for the same theme with the
    primary colour "#000000". *)
Theorem validateTheme_unparsed_primary
        (Math_pow : number -> number -> number) (toFixed : number -> Z -> string)
        (theme : ThemeConfig) :
  hexToRgb (primary (colorScheme theme)) = None ->
  getLuminance Math_pow (primary (colorScheme theme)) = 0%float /\
  validateTheme Math_pow toFixed theme
  = validateTheme Math_pow toFixed (withPrimary theme "#000000").
Proof.
  intros H. split.
  - unfold getLuminance. now rewrite H.
  - unfold validateTheme, getContrastRatio. cbn [withPrimary colorScheme primary
      background barStyle effects dimensions].
    now rewrite (getLuminance_unparsed Math_pow _ H).
Qed.

Lemma validateTheme_unparsed_primary_red :
  hexToRgb "red" = None /\
  validateTheme (fun _ _ => 1%float) (fun _ _ => ""%string)
                (withPrimary DEFAULT_THEME "red") = [].
Proof.
  split; [reflexivity|].
  destruct (validateTheme_unparsed_primary
              (fun _ _ => 1%float) (fun _ _ => ""%string)
              (withPrimary DEFAULT_THEME "red") eq_refl) as [_ H].
  rewrite H. reflexivity.
Defined.

Lemma mergeWithDefault_asPartial (theme : ThemeConfig) :
  mergeWithDefault (Some (asPartial theme)) = theme.
Proof.
  destruct theme as [[ty pr se bg ga] [sh th sp ro] [sd sc sb op] [w h d]].
  destruct se, ga, ro, sc, sb; reflexivity.
Qed.

(** X10: merging a complete theme with the defaults gives the theme back,
    because no optional key has a default; so the second merge made by
    [generateThemedWaveCode] on a theme a route has already merged changes
    nothing, whatever the stored partial theme. *)
Theorem mergeWithDefault_idempotent :
  (forall theme : ThemeConfig, mergeWithDefault (Some (asPartial theme)) = theme) /\
  (forall partial : option Partial.ThemeConfig,
     mergeWithDefault (Some (asPartial (mergeWithDefault partial)))
     = mergeWithDefault partial) /\
  (forall (Buffer : Type) (rasterize : string -> ThemeConfig -> Promise Buffer)
          (code : string) (partial : option Partial.ThemeConfig),
     generateThemedWaveCode Buffer rasterize code
       (Some (asPartial (mergeWithDefault partial)))
     = generateThemedWaveCode Buffer rasterize code partial).
Proof.
  split; [exact mergeWithDefault_asPartial|].
  split; [intros partial; apply mergeWithDefault_asPartial|].
  intros Buffer rasterize code partial. unfold generateThemedWaveCode.
  cbv zeta. now rewrite mergeWithDefault_asPartial.
Qed.

(** X11: every preset of [PRESET_THEMES], merged with the defaults, keeps
    the default dimensions (15 mm by 5 mm at 300 dpi), and [validateTheme]
    can only warn about its contrast: no preset is too thin, too
    transparent, too small or below the print resolution. *)
Theorem PRESET_THEMES_valid
        (Math_pow : number -> number -> number) (toFixed : number -> Z -> string)
        (name : string) (preset : Partial.ThemeConfig) :
  In (name, preset) PRESET_THEMES ->
  dimensions (mergeWithDefault (Some preset)) = dimensions DEFAULT_THEME /\
  forall w,
    In w (validateTheme Math_pow toFixed (mergeWithDefault (Some preset))) ->
    Warning.type w = WarningType.contrast.
Proof.
  intros Hin. unfold PRESET_THEMES in Hin. simpl in Hin.
  repeat (destruct Hin as [[= <- <-] | Hin];
          [ split; [reflexivity|];
            intros w; unfold validateTheme; cbv zeta;
            match goal with
            | |- context [(?c <? 4.5)%float] => destruct (c <? 4.5)%float
            end;
            vm_compute; intros Hw;
            repeat (destruct Hw as [<- | Hw]; [reflexivity|]); destruct Hw
          | ]).
  destruct Hin.
Qed.

Lemma PRESET_THEMES_valid_classic :
  exists preset,
    In ("classic"%string, preset) PRESET_THEMES /\
    dimensions (mergeWithDefault (Some preset)) = dimensions DEFAULT_THEME.
Proof.
  eexists. split; [left; reflexivity|].
  exact (proj1 (PRESET_THEMES_valid (fun _ _ => 1%float) (fun _ _ => ""%string)
                  _ _ (or_introl eq_refl))).
Defined.

(* ================================================================= *)
(** ** Properties of the renderers *)

Lemma nth_error_mapi_from {A B} (f : A -> nat -> B) (l : list A) :
  forall k i,
    nth_error (mapi_from f k l) i
    = option_map (fun a => f a (k + i)) (nth_error l i).
Proof.
  induction l as [|a l IH]; intros k [|i]; simpl; try reflexivity.
  - now rewrite Nat.add_0_r.
  - rewrite IH. now rewrite Nat.add_succ_r.
Qed.

Lemma nth_error_mapi {A B} (f : A -> nat -> B) (l : list A) (i : nat) :
  nth_error (mapi f l) i = option_map (fun a => f a i) (nth_error l i).
Proof. unfold mapi. now rewrite nth_error_mapi_from. Qed.

Lemma length_mapi_from {A B} (f : A -> nat -> B) (l : list A) :
  forall k, List.length (mapi_from f k l) = List.length l.
Proof. induction l as [|a l IH]; intros k; simpl; [reflexivity | now rewrite IH]. Qed.

Lemma length_mapi {A B} (f : A -> nat -> B) (l : list A) :
  List.length (mapi f l) = List.length l.
Proof. apply length_mapi_from. Qed.

Lemma slice0_firstn {A} (l : list A) (end_ : number) (z : Z) :
  toIntegerOrInfinity end_ = finite z -> (0 <= z)%Z ->
  slice0 l end_ = firstn (Z.to_nat z) l.
Proof.
  intros H Hz. unfold slice0. rewrite H.
  destruct (Z.ltb_spec z 0); [lia|].
  destruct (Z.min_spec z (Z.of_nat (List.length l))) as [[Hlt ->] | [Hge ->]];
    [reflexivity|].
  rewrite Nat2Z.id. rewrite firstn_all. symmetry. apply firstn_all2. lia.
Qed.

(** The pattern of a valid code: four bars for each of six ordinals. *)
Lemma valid_pattern (code : string) :
  isValidCodeFormat code = true ->
  exists v1 v2 v3 v4 v5 v6,
    codeToNumericValues code = [v1; v2; v3; v4; v5; v6] /\
    Forall (fun v => (0 <= v <= 35)%Z) [v1; v2; v3; v4; v5; v6] /\
    codeToWavePattern code = flat_map barsOf [v1; v2; v3; v4; v5; v6].
Proof.
  intros H. destruct (valid_code_values code H) as [Hlen Hall].
  destruct (list_of_length_6 _ Hlen) as (v1 & v2 & v3 & v4 & v5 & v6 & Hvs).
  exists v1, v2, v3, v4, v5, v6. split; [exact Hvs|].
  split; [now rewrite <- Hvs|].
  now rewrite codeToWavePattern_flat_map, Hvs.
Qed.

Lemma generateWaveCode_svg_bars (code : string) (options : WaveCodeOptions.t) :
  Svg.bars (generateWaveCode_svg code options)
  = let opts := mergedOptions options in
    let numBars := plainNumBars opts (List.length (codeToWavePattern code)) in
    mapi (plainBar opts numBars) (slice0 (codeToWavePattern code) numBars).
Proof. reflexivity. Qed.

Lemma plainNumBars_24 (options : WaveCodeOptions.t) :
  In options plainOptionSets ->
  plainNumBars (mergedOptions options) 24 = 24%float.
Proof.
  intros [<- | [<- | [<- | []]]]; vm_compute; reflexivity.
Qed.

Lemma generateWaveCode_svg_bars_valid (code : string) (options : WaveCodeOptions.t) :
  isValidCodeFormat code = true ->
  In options plainOptionSets ->
  Svg.bars (generateWaveCode_svg code options)
  = mapi (plainBar (mergedOptions options) 24%float)
         (flat_map barsOf (codeToNumericValues code)).
Proof.
  intros Hvalid Hin. rewrite generateWaveCode_svg_bars. cbv zeta.
  destruct (valid_pattern code Hvalid) as (v1 & v2 & v3 & v4 & v5 & v6 & Hvs & _ & Hp).
  rewrite Hp, Hvs.
  replace (List.length (flat_map barsOf [v1; v2; v3; v4; v5; v6])) with 24
    by reflexivity.
  rewrite (plainNumBars_24 options Hin).
  rewrite (slice0_firstn _ 24%float 24 eq_refl ltac:(lia)).
  reflexivity.
Qed.

Lemma nth_error_flat_map_barsOf_any (l : list Z) :
  forall i,
    i < 4 * List.length l ->
    nth_error (flat_map barsOf l) i
    = Some (nth (i mod 4) (barsOf (nth (i / 4) l 0%Z)) 0%float).
Proof.
  induction l as [|v l IH]; intros i Hi; simpl in Hi; [lia|].
  destruct i as [|[|[|[|i]]]]; try reflexivity.
  cbn [flat_map barsOf app nth_error]. cbv zeta. cbn [app nth_error].
  rewrite IH by lia.
  replace (S (S (S (S i)))) with (i + 1 * 4) by lia.
  rewrite Nat.Div0.mod_add, Nat.div_add by lia.
  replace (i / 4 + 1) with (S (i / 4)) by lia. reflexivity.
Qed.

Lemma layoutCheck_all (options : WaveCodeOptions.t) (i : nat) (v : Z) :
  In options plainOptionSets -> i < 24 -> (0 <= v <= 35)%Z ->
  layoutCheck options i v = true.
Proof.
  intros Hin Hi Hv.
  assert (Hall : forallb (fun o =>
                   forallb (fun i => forallb (layoutCheck o i) ordinals) (seq 0 24))
                   plainOptionSets = true) by (vm_compute; reflexivity).
  rewrite forallb_forall in Hall. specialize (Hall options Hin).
  rewrite forallb_forall in Hall. specialize (Hall i ltac:(apply in_seq; lia)).
  now apply forall_ordinals.
Qed.

(** X12: the layout of the plain image.  With no options, with the
    options of [generatePrintableWaveCode] and with those of
    [generatePreviewWaveCode], the image of a valid code has all its 24
    bars; every bar has the width asked for, lies inside the canvas, is at
    least 4 pixels high and leaves at least 4 pixels above and below; and
    each bar starts one bar width and one gap after the one before. *)
Theorem generateWaveCode_svg_layout (code : string) (options : WaveCodeOptions.t) :
  isValidCodeFormat code = true ->
  In options plainOptionSets ->
  let opts := mergedOptions options in
  let bars := Svg.bars (generateWaveCode_svg code options) in
  List.length bars = 24 /\
  (forall i r,
     nth_error bars i = Some r ->
     Rect.width r = Options.barWidth opts /\
     (0 <=? Rect.x r)%float = true /\
     (Rect.x r + Rect.width r <=? Options.width opts)%float = true /\
     (4 <=? Rect.height r)%float = true /\
     (4 <=? Rect.y r)%float = true /\
     (Rect.y r + Rect.height r <=? Options.height opts - 4)%float = true) /\
  (forall i r r',
     nth_error bars i = Some r -> nth_error bars (S i) = Some r' ->
     Rect.x r' = (Rect.x r + (Options.barWidth opts + Options.barGap opts))%float).
Proof.
  intros Hvalid Hin opts bars. subst bars.
  rewrite (generateWaveCode_svg_bars_valid code options Hvalid Hin).
  destruct (valid_code_values code Hvalid) as [Hlen Hall].
  set (vs := codeToNumericValues code) in *.
  assert (Hbar : forall i r,
             nth_error (mapi (plainBar (mergedOptions options) 24%float)
                             (flat_map barsOf vs)) i = Some r ->
             i < 24 /\ r = plainBarOf options i (nth (i / 4) vs 0%Z)
             /\ (0 <= nth (i / 4) vs 0 <= 35)%Z).
  { intros i r Hr. rewrite nth_error_mapi in Hr.
    destruct (Nat.lt_ge_cases i 24) as [Hi | Hi].
    - rewrite nth_error_flat_map_barsOf_any in Hr by (rewrite Hlen; lia).
      injection Hr as <-. split; [exact Hi|]. split; [reflexivity|].
      rewrite Forall_forall in Hall. apply Hall, nth_In. rewrite Hlen.
      apply Nat.Div0.div_lt_upper_bound. lia.
    - rewrite (proj2 (nth_error_None _ _)) in Hr; [discriminate|].
      rewrite length_flat_map_barsOf, Hlen. lia. }
  split; [now rewrite length_mapi, length_flat_map_barsOf, Hlen|]. split.
  - intros i r Hr. apply Hbar in Hr as (Hi & -> & Hv).
    pose proof (layoutCheck_all options i _ Hin Hi Hv) as H.
    unfold layoutCheck in H. cbv zeta in H.
    repeat (apply andb_true_iff in H as [H ?]).
    apply FloatAxioms.Leibniz.eqb_spec in H. fold opts. tauto.
  - intros i r r' Hr Hr'. apply Hbar in Hr' as (Hi' & -> & Hv').
    apply Hbar in Hr as (Hi & -> & Hv).
    pose proof (layoutCheck_all options i _ Hin Hi Hv) as H.
    unfold layoutCheck in H. cbv zeta in H.
    apply andb_true_iff in H as [_ H].
    apply FloatAxioms.Leibniz.eqb_spec in H. exact H.
Qed.

Lemma generateWaveCode_svg_layout_ABC129 :
  isValidCodeFormat "ABC129" = true /\
  List.length (Svg.bars (generateWaveCode_svg "ABC129" previewOptions)) = 24.
Proof.
  split; [reflexivity|].
  exact (proj1 (generateWaveCode_svg_layout "ABC129" previewOptions eq_refl
                  (or_intror (or_intror (or_introl eq_refl))))).
Defined.

Lemma map_height_mapi_from (opts : Options.t) (n : number) (l : list number) :
  forall k,
    map Rect.height (mapi_from (plainBar opts n) k l)
    = map (fun a => Rect.height (plainBar opts n a 0)) l.
Proof.
  induction l as [|a l IH]; intros k; simpl; [reflexivity|].
  now rewrite IH.
Qed.

Lemma map_flat_map {A B C} (f : B -> C) (g : A -> list B) (l : list A) :
  map f (flat_map g l) = flat_map (fun a => map f (g a)) l.
Proof.
  induction l as [|a l IH]; simpl; [reflexivity|].
  now rewrite map_app, IH.
Qed.

Lemma app_same_length {A} (a : list A) :
  forall b c d,
    List.length a = List.length b -> a ++ c = b ++ d -> a = b /\ c = d.
Proof.
  induction a as [|x a IH]; intros [|y b] c d Hlen Heq; try discriminate.
  - now split.
  - injection Heq as -> Heq. injection Hlen as Hlen.
    destruct (IH b c d Hlen Heq) as [-> ->]. now split.
Qed.

Lemma sameNumbers_refl (l : list number) : sameNumbers l l = true.
Proof.
  unfold sameNumbers. induction l as [|x l IH]; simpl; [reflexivity|].
  rewrite IH, andb_true_r. now apply FloatAxioms.Leibniz.eqb_spec.
Qed.

Lemma heightsApart_all (options : WaveCodeOptions.t) (v w : Z) :
  In options plainOptionSets -> (0 <= v <= 35)%Z -> (0 <= w <= 35)%Z ->
  heightsOf options v = heightsOf options w -> v = w.
Proof.
  intros Hin Hv Hw Heq.
  assert (Hall : forallb heightsApart plainOptionSets = true)
    by (vm_compute; reflexivity).
  rewrite forallb_forall in Hall. specialize (Hall options Hin).
  unfold heightsApart in Hall. cbv zeta in Hall.
  set (entry := fun v : Z => (v, heightsOf options v)) in Hall.
  rewrite forallb_forall in Hall.
  specialize (Hall (entry v) (in_map entry _ _ (ordinals_complete v Hv))).
  rewrite forallb_forall in Hall.
  specialize (Hall (entry w) (in_map entry _ _ (ordinals_complete w Hw))).
  unfold entry in Hall. cbn [fst snd] in Hall.
  rewrite Heq, sameNumbers_refl in Hall. simpl in Hall. now apply Z.eqb_eq.
Qed.

Lemma flat_map_heightsOf_injective (options : WaveCodeOptions.t) (l1 : list Z) :
  In options plainOptionSets ->
  forall l2,
    Forall (fun v => (0 <= v <= 35)%Z) l1 ->
    Forall (fun v => (0 <= v <= 35)%Z) l2 ->
    flat_map (heightsOf options) l1 = flat_map (heightsOf options) l2 -> l1 = l2.
Proof.
  intros Hin.
  induction l1 as [|v l1 IH]; intros [|w l2] H1 H2 Heq; try reflexivity;
    try discriminate.
  inversion H1 as [|? ? Hv H1']; inversion H2 as [|? ? Hw H2']; subst.
  cbn [flat_map] in Heq.
  assert (Hsplit : heightsOf options v = heightsOf options w /\
                   flat_map (heightsOf options) l1 = flat_map (heightsOf options) l2).
  { apply app_same_length in Heq; [exact Heq|].
    unfold heightsOf. now rewrite !length_map. }
  destruct Hsplit as [Hh Ht]. f_equal.
  - now apply (heightsApart_all options).
  - now apply IH.
Qed.

(** X13: the plain image identifies the code.  With each of the three
    option sets, two valid codes have the same image exactly when they are
    the same up to the case of their letters: the heights of the four
    bars of a character, rounded down to whole pixels, still tell the 36
    characters apart, also at the 40 pixels of the preview. *)
Theorem generateWaveCode_svg_same_iff (c1 c2 : string) (options : WaveCodeOptions.t) :
  isValidCodeFormat c1 = true ->
  isValidCodeFormat c2 = true ->
  In options plainOptionSets ->
  (generateWaveCode_svg c1 options = generateWaveCode_svg c2 options
   <-> toUpperCase c1 = toUpperCase c2).
Proof.
  intros H1 H2 Hin. split.
  - intros Heq. apply (f_equal Svg.bars) in Heq.
    rewrite !generateWaveCode_svg_bars_valid in Heq by assumption.
    apply (f_equal (map Rect.height)) in Heq. unfold mapi in Heq.
    rewrite !map_height_mapi_from, !map_flat_map in Heq.
    apply (flat_map_heightsOf_injective options _ Hin) in Heq.
    + apply isValidCodeFormat_upper in H1 as [_ H1].
      apply isValidCodeFormat_upper in H2 as [_ H2].
      apply validPattern_test_spec in H1 as [_ H1].
      apply validPattern_test_spec in H2 as [_ H2].
      now apply map_charValue_injective in Heq.
    + apply (valid_code_values c1 H1).
    + apply (valid_code_values c2 H2).
  - intros Heq. unfold generateWaveCode_svg.
    rewrite !codeToWavePattern_flat_map. unfold codeToNumericValues.
    now rewrite Heq.
Qed.

Lemma generateWaveCode_svg_same_iff_abc123 :
  isValidCodeFormat "abc123" = true /\
  isValidCodeFormat "ABC123" = true /\
  generateWaveCode_svg "abc123" previewOptions
  = generateWaveCode_svg "ABC123" previewOptions.
Proof.
  split; [reflexivity|]. split; [reflexivity|].
  exact (proj2 (generateWaveCode_svg_same_iff "abc123" "ABC123" previewOptions
                  eq_refl eq_refl (or_intror (or_intror (or_introl eq_refl))))
               eq_refl).
Defined.

Lemma generateThemedWaveCode_svg_scene
      (Math_cos Math_sin : number -> number) (code : string)
      (themeConfig : option Partial.ThemeConfig) :
  generateThemedWaveCode_svg Math_cos Math_sin code themeConfig
  = themedScene Math_cos Math_sin (mergeWithDefault themeConfig)
                (codeToWavePattern code).
Proof. reflexivity. Qed.

Lemma mapi_from_ext {A B} (f g : A -> nat -> B) (l : list A) :
  (forall a i, f a i = g a i) ->
  forall k, mapi_from f k l = mapi_from g k l.
Proof.
  intros H. induction l as [|a l IH]; intros k; simpl; [reflexivity|].
  now rewrite H, IH.
Qed.

Lemma sequence_mapi_from_singletons {A B} (h : A -> nat -> B) (l : list A) :
  forall k,
    sequence (mapi_from (fun a i => Some [h a i]) k l)
    = Some (map (fun b => [b]) (mapi_from h k l)).
Proof.
  induction l as [|a l IH]; intros k; simpl; [reflexivity|].
  now rewrite IH.
Qed.

Lemma concat_singletons {B} (l : list B) :
  List.concat (map (fun b => [b]) l) = l.
Proof. induction l as [|b l IH]; simpl; [reflexivity | now rewrite IH]. Qed.

Lemma map_mapi_from {A B C} (c : B -> C) (f : A -> nat -> B) (l : list A) :
  forall k, map c (mapi_from f k l) = mapi_from (fun a i => c (f a i)) k l.
Proof.
  induction l as [|a l IH]; intros k; simpl; [reflexivity | now rewrite IH].
Qed.

(** X14: with no theme, the themed renderer draws what
    [generatePrintableWaveCode] draws: for every string, valid code or
    not, the same canvas of 177 by 59 pixels, the same background and the
    same bars at the same places with the same fill, without the rounded
    corners ([rx]) of the plain renderer, and nothing else. *)
Theorem generateThemedWaveCode_svg_default
        (Math_cos Math_sin : number -> number) (code : string) :
  generateThemedWaveCode_svg Math_cos Math_sin code None
  = written (plainAsThemed
               (generateWaveCode_svg code (printableOptions WaveCodeOptions.empty))).
Proof.
  rewrite generateThemedWaveCode_svg_scene. unfold themedScene, plainAsThemed.
  rewrite generateWaveCode_svg_bars. cbv zeta.
  set (pattern := codeToWavePattern code).
  change (verbatimTheme (mergeWithDefault None)) with true. cbv iota.
  assert (Hn : themedNumBars (mergeWithDefault None) (List.length pattern)
               = plainNumBars (mergedOptions (printableOptions WaveCodeOptions.empty))
                              (List.length pattern)).
  { unfold themedNumBars, plainNumBars. cbv zeta. f_equal. }
  rewrite Hn.
  set (n := plainNumBars _ _).
  set (convert := fun r : Rect.t =>
         {| element := rectElement (Rect.x r) (Rect.y r) (Rect.width r)
                                   (Rect.height r) None;
            fill := Some (Rect.fill r); filterRef := false |}).
  unfold mapi.
  rewrite (mapi_from_ext (themedBar (mergeWithDefault None) n)
             (fun a i => Some [convert
                (plainBar (mergedOptions (printableOptions WaveCodeOptions.empty))
                          n a i)])).
  - rewrite sequence_mapi_from_singletons, concat_singletons, map_mapi_from.
    reflexivity.
  - intros a i. reflexivity.
Qed.

Lemma createBarPath_one_element (x y w h : number) (sh : Shape) (ro : option number) :
  sh <> circular -> exists e, createBarPath x y w h sh ro = Some [e].
Proof.
  intros Hsh. destruct sh; try (eexists; reflexivity). now contradiction Hsh.
Qed.

Lemma sequence_themedBar_one_element (theme : ThemeConfig) (n : number)
      (l : list number) :
  shape (barStyle theme) <> circular ->
  forall k,
  exists bars,
    sequence (mapi_from (themedBar theme n) k l) = Some bars /\
    List.length (List.concat bars) = List.length l /\
    Forall (fun e => fill e <> None) (List.concat bars).
Proof.
  intros Hsh. induction l as [|a l IH]; intros k.
  - exists []. simpl. repeat split. constructor.
  - destruct (IH (S k)) as (bars & Hseq & Hlen & Hfill).
    cbn [mapi_from sequence]. unfold themedBar at 1, themedPath. cbv zeta.
    match goal with
    | |- context [createBarPath ?x ?y ?w ?h ?sh ?ro] =>
        destruct (createBarPath_one_element x y w h sh ro Hsh) as [e ->]
    end.
    rewrite Hseq. eexists. split; [reflexivity|].
    cbn [spliceAttributes map List.concat app List.length]. split.
    + now rewrite Hlen.
    + constructor; [discriminate | exact Hfill].
Qed.

Lemma filter_all {A} (p : A -> bool) (l : list A) :
  Forall (fun a => p a = true) l -> List.filter p l = l.
Proof.
  induction 1 as [|a l Ha _ IH]; simpl; [reflexivity|]. now rewrite Ha, IH.
Qed.

(** A theme whose bars are not circles: one element for each bar drawn,
    each with its fill. *)
Lemma themedScene_one_element
      (Math_cos Math_sin : number -> number) (theme : ThemeConfig)
      (l : list number) :
  shape (barStyle theme) <> circular ->
  verbatimTheme theme = true ->
  exists svg,
    themedScene Math_cos Math_sin theme l = written svg /\
    List.length (themedBars svg)
    = List.length (slice0 l (themedNumBars theme (List.length l))) /\
    filled svg = themedBars svg.
Proof.
  intros Hsh Hv. unfold themedScene. cbv zeta. rewrite Hv.
  destruct (sequence_themedBar_one_element theme
              (themedNumBars theme (List.length l))
              (slice0 l (themedNumBars theme (List.length l))) Hsh 0)
    as (bars & Hseq & Hlen & Hfill).
  unfold mapi. rewrite Hseq. eexists. split; [reflexivity|].
  cbn [themedBars]. split; [exact Hlen|].
  unfold filled. cbn [themedBars]. apply filter_all.
  eapply Forall_impl; [|exact Hfill]. intros e He. cbv beta in He.
  destruct (fill e); [reflexivity | now contradiction He].
Qed.

Lemma drawnCheck_all (t s : Z) :
  (1 <= t <= 10)%Z -> (1 <= s <= 5)%Z -> drawnCheck t s = true.
Proof.
  intros Ht Hs.
  assert (Hall : forallb (fun t => forallb (drawnCheck t) (Zrange 1 5))
                         (Zrange 1 10) = true) by (vm_compute; reflexivity).
  pose proof (forall_Zrange _ 1 10 Hall t ltac:(lia)) as H. cbv beta in H.
  apply (forall_Zrange _ 1 5 H s). lia.
Qed.

(** X15: how many bars the themed renderer draws at the default
    dimensions (15 mm by 5 mm at 300 dpi) for a whole thickness 1..10 and
    a whole spacing 1..5, the ranges of the theme API.  The bars that do
    not fit in the width are left out, not scaled: the image of a valid
    code has all its 24 bars exactly when the thickness is at most 5, or
    6 with a spacing of at most 3, or at most 8 with a spacing of at most
    2; otherwise its last bars are missing, and never fewer than 16 are
    drawn.  Each bar drawn is one element with its fill. *)
Theorem generateThemedWaveCode_svg_bars_drawn
        (Math_cos Math_sin : number -> number) (code : string) (t s : Z) :
  isValidCodeFormat code = true ->
  (1 <= t <= 10)%Z -> (1 <= s <= 5)%Z ->
  exists svg,
    generateThemedWaveCode_svg Math_cos Math_sin code
      (Some (thicknessAndSpacing t s)) = written svg /\
    filled svg = themedBars svg /\
    16 <= List.length (themedBars svg) <= 24 /\
    (List.length (themedBars svg) = 24 <->
     (t <= 5 \/ (t = 6 /\ s <= 3) \/ (t <= 8 /\ s <= 2))%Z).
Proof.
  intros Hvalid Ht Hs. rewrite generateThemedWaveCode_svg_scene.
  set (theme := mergeWithDefault (Some (thicknessAndSpacing t s))).
  destruct (themedScene_one_element Math_cos Math_sin theme
              (codeToWavePattern code)) as (svg & Hsvg & Hlen & Hfilled).
  { discriminate. }
  { reflexivity. }
  exists svg. split; [exact Hsvg|]. split; [exact Hfilled|].
  rewrite Hlen.
  assert (Hp : List.length (codeToWavePattern code) = 24).
  { destruct (valid_code_values code Hvalid) as [Hl _].
    now rewrite codeToWavePattern_flat_map, length_flat_map_barsOf, Hl. }
  rewrite Hp.
  pose proof (drawnCheck_all t s Ht Hs) as Hc. unfold drawnCheck in Hc.
  fold theme in Hc.
  destruct (toIntegerOrInfinity (themedNumBars theme 24)) as [z| |] eqn:Hz;
    try discriminate.
  apply andb_true_iff in Hc as [Hc Hiff]. apply andb_true_iff in Hc as [Hlo Hhi].
  apply Z.leb_le in Hlo, Hhi. apply Bool.eqb_prop in Hiff.
  rewrite (slice0_firstn _ _ z Hz ltac:(lia)).
  rewrite length_firstn, Hp.
  split; [lia|].
  unfold allBarsDrawn in Hiff.
  destruct (Z.eqb_spec z 24) as [Hz24 | Hz24]; symmetry in Hiff.
  - rewrite !orb_true_iff, !andb_true_iff, !Z.leb_le, Z.eqb_eq in Hiff.
    split; [intros _; tauto | intros _; lia].
  - split; [intros H; lia|]. intros H. exfalso.
    assert (Htrue : ((t <=? 5) || (t =? 6) && (s <=? 3) || (t <=? 8) && (s <=? 2))%Z
                    = true).
    { rewrite !orb_true_iff, !andb_true_iff, !Z.leb_le, Z.eqb_eq. tauto. }
    congruence.
Qed.

Lemma generateThemedWaveCode_svg_bars_drawn_10_5 :
  isValidCodeFormat "ABC129" = true /\
  exists svg,
    generateThemedWaveCode_svg (fun x => x) (fun x => x) "ABC129"
      (Some (thicknessAndSpacing 10 5)) = written svg /\
    List.length (themedBars svg) = 16.
Proof.
  split; [reflexivity|].
  destruct (generateThemedWaveCode_svg_bars_drawn (fun x => x) (fun x => x)
              "ABC129" 10 5 eq_refl ltac:(lia) ltac:(lia))
    as (svg & Hsvg & _ & _ & _).
  exists svg. split; [exact Hsvg|].
  vm_compute in Hsvg. injection Hsvg as <-. reflexivity.
Defined.

Lemma themedScene_prefix
      (Math_cos Math_sin : number -> number) (theme : ThemeConfig)
      (l1 l2 : list number) :
  List.length l1 = List.length l2 ->
  slice0 l1 (themedNumBars theme (List.length l1))
  = slice0 l2 (themedNumBars theme (List.length l1)) ->
  themedScene Math_cos Math_sin theme l1 = themedScene Math_cos Math_sin theme l2.
Proof.
  intros Hlen Hs. unfold themedScene. cbv zeta. now rewrite <- Hlen, Hs.
Qed.

Lemma firstn_flat_map_barsOf (l : list Z) :
  forall k, firstn (4 * k) (flat_map barsOf l) = flat_map barsOf (firstn k l).
Proof.
  induction l as [|v l IH]; intros k.
  - now rewrite !firstn_nil.
  - destruct k as [|k]; [reflexivity|].
    replace (4 * S k) with (S (S (S (S (4 * k))))) by lia.
    cbn [flat_map barsOf app firstn]. cbv zeta. cbn [app firstn].
    now rewrite IH.
Qed.

(** The first [4 * k] bars of the patterns of two codes whose first [k]
    characters agree in upper case. *)
Lemma firstn_codeToWavePattern (c1 c2 : string) (k : nat) :
  firstn k (toUpperCase c1) = firstn k (toUpperCase c2) ->
  firstn (4 * k) (codeToWavePattern c1) = firstn (4 * k) (codeToWavePattern c2).
Proof.
  intros H. rewrite !codeToWavePattern_flat_map, !firstn_flat_map_barsOf.
  unfold codeToNumericValues. now rewrite !firstn_map, H.
Qed.

Lemma length_valid_pattern (code : string) :
  isValidCodeFormat code = true -> List.length (codeToWavePattern code) = 24.
Proof.
  intros Hvalid. destruct (valid_code_values code Hvalid) as [Hl _].
  now rewrite codeToWavePattern_flat_map, length_flat_map_barsOf, Hl.
Qed.

(** X16: at the default dimensions, a theme of thickness 10 and spacing 4
    or 5 draws 16 bars, those of the first four characters: two valid
    codes that differ only in their last two characters are printed as
    the same image. *)
Theorem generateThemedWaveCode_svg_first_four
        (Math_cos Math_sin : number -> number) (c1 c2 : string) (s : Z) :
  isValidCodeFormat c1 = true ->
  isValidCodeFormat c2 = true ->
  (4 <= s <= 5)%Z ->
  firstn 4 (toUpperCase c1) = firstn 4 (toUpperCase c2) ->
  generateThemedWaveCode_svg Math_cos Math_sin c1 (Some (thicknessAndSpacing 10 s))
  = generateThemedWaveCode_svg Math_cos Math_sin c2 (Some (thicknessAndSpacing 10 s)).
Proof.
  intros H1 H2 Hs Heq. rewrite !generateThemedWaveCode_svg_scene.
  apply themedScene_prefix; rewrite !length_valid_pattern by assumption;
    [reflexivity|].
  assert (Hn : toIntegerOrInfinity
                 (themedNumBars (mergeWithDefault (Some (thicknessAndSpacing 10 s))) 24)
               = finite 16).
  { assert (Hcases : s = 4%Z \/ s = 5%Z) by lia.
    destruct Hcases as [-> | ->]; vm_compute; reflexivity. }
  rewrite !(slice0_firstn _ _ 16 Hn ltac:(lia)).
  now apply (firstn_codeToWavePattern c1 c2 4).
Qed.

Lemma generateThemedWaveCode_svg_first_four_ABCD :
  isValidCodeFormat "ABCD22" = true /\
  isValidCodeFormat "ABCD99" = true /\
  generateThemedWaveCode_svg (fun x => x) (fun x => x) "ABCD22"
    (Some (thicknessAndSpacing 10 5))
  = generateThemedWaveCode_svg (fun x => x) (fun x => x) "ABCD99"
      (Some (thicknessAndSpacing 10 5)).
Proof.
  split; [reflexivity|]. split; [reflexivity|].
  apply (generateThemedWaveCode_svg_first_four (fun x => x) (fun x => x)
           "ABCD22" "ABCD99" 5 eq_refl eq_refl); [lia | reflexivity].
Defined.

(** Two themes that agree on all but thickness and spacing, and have the
    same bar width and gap, are rendered alike. *)
Lemma themedScene_same_metrics
      (Math_cos Math_sin : number -> number) (th1 th2 : ThemeConfig)
      (l : list number) :
  colorScheme th1 = colorScheme th2 ->
  shape (barStyle th1) = shape (barStyle th2) ->
  roundness (barStyle th1) = roundness (barStyle th2) ->
  effects th1 = effects th2 ->
  dimensions th1 = dimensions th2 ->
  themedBarMetrics th1 = themedBarMetrics th2 ->
  themedScene Math_cos Math_sin th1 l = themedScene Math_cos Math_sin th2 l.
Proof.
  intros Hc Hs Hr He Hd Hm.
  unfold themedScene, themedNumBars, themedBar, themedPath, themedDefs,
    verbatimTheme.
  cbv zeta. now rewrite Hc, Hs, Hr, He, Hd, Hm.
Qed.

Lemma preview_metrics (theme : ThemeConfig) (t s : Z) :
  (1 <= t <= 10)%Z -> (1 <= s <= 5)%Z ->
  themedBarMetrics
    (previewTheme (Some (asPartial (withSpacing (withThickness theme (ofZ t)) (ofZ s)))))
  = {| baseBarWidth := 2%float; baseBarGap := 1%float |}.
Proof.
  intros Ht Hs. rewrite <- (mergeWithDefault_asPartial theme) at 1.
  unfold previewTheme. cbv zeta. rewrite !mergeWithDefault_asPartial.
  unfold themedBarMetrics. cbv zeta.
  cbn [withSpacing withThickness barStyle dimensions thickness spacing dpi].
  assert (Hw : forallb (fun t =>
                 PrimFloat.Leibniz.eqb
                   (Math_max 2 (Math_round (4 * (ofZ t / 5) * (72 / 300))%float))
                   2%float) (Zrange 1 10) = true) by (vm_compute; reflexivity).
  assert (Hg : forallb (fun s =>
                 PrimFloat.Leibniz.eqb
                   (Math_max 1 (Math_round (2 * (ofZ s / 3) * (72 / 300))%float))
                   1%float) (Zrange 1 5) = true) by (vm_compute; reflexivity).
  pose proof (forall_Zrange _ 1 10 Hw t ltac:(lia)) as Hwt.
  pose proof (forall_Zrange _ 1 5 Hg s ltac:(lia)) as Hgs.
  cbv beta in Hwt, Hgs.
  apply FloatAxioms.Leibniz.eqb_spec in Hwt, Hgs.
  now rewrite Hwt, Hgs.
Qed.

(** X17: the preview of a theme does not show its thickness or its
    spacing.  At the 72 dpi of [generateThemedPreviewWaveCode] every whole
    thickness 1..10 gives bars 2 pixels wide and every whole spacing 1..5
    gaps of 1 pixel, so that, whatever the rest of the theme and whatever
    the code, changing the two settings leaves the preview as it is. *)
Theorem generateThemedPreviewWaveCode_svg_thickness_spacing
        (Math_cos Math_sin : number -> number) (code : string)
        (theme : ThemeConfig) (t s t' s' : Z) :
  (1 <= t <= 10)%Z -> (1 <= s <= 5)%Z ->
  (1 <= t' <= 10)%Z -> (1 <= s' <= 5)%Z ->
  generateThemedPreviewWaveCode_svg Math_cos Math_sin code
    (Some (asPartial (withSpacing (withThickness theme (ofZ t)) (ofZ s))))
  = generateThemedPreviewWaveCode_svg Math_cos Math_sin code
      (Some (asPartial (withSpacing (withThickness theme (ofZ t')) (ofZ s')))).
Proof.
  intros Ht Hs Ht' Hs'. unfold generateThemedPreviewWaveCode_svg.
  rewrite !generateThemedWaveCode_svg_scene, !mergeWithDefault_asPartial.
  apply themedScene_same_metrics;
    try (unfold previewTheme; cbv zeta; rewrite !mergeWithDefault_asPartial;
         reflexivity).
  now rewrite !preview_metrics.
Qed.

Lemma generateThemedPreviewWaveCode_svg_thickness_spacing_sample :
  generateThemedPreviewWaveCode_svg (fun x => x) (fun x => x) "ABC129"
    (Some (asPartial (withSpacing (withThickness DEFAULT_THEME (ofZ 10)) (ofZ 5))))
  = generateThemedPreviewWaveCode_svg (fun x => x) (fun x => x) "ABC129"
      (Some (asPartial (withSpacing (withThickness DEFAULT_THEME (ofZ 1)) (ofZ 1)))).
Proof.
  apply (generateThemedPreviewWaveCode_svg_thickness_spacing
           (fun x => x) (fun x => x) "ABC129" DEFAULT_THEME 10 5 1 1); lia.
Defined.

Lemma sequence_mapi_from_checked {A B} (f : A -> nat -> option B)
      (check : nat -> B -> bool) (l : list A) :
  forall k,
    (forall i a, nth_error l i = Some a ->
                 exists p, f a (k + i) = Some p /\ check (k + i) p = true) ->
    exists bars,
      sequence (mapi_from f k l) = Some bars /\
      List.length bars = List.length l /\
      forall i p, nth_error bars i = Some p -> check (k + i) p = true.
Proof.
  induction l as [|a l IH]; intros k H.
  - exists []. repeat split. intros [|i] p; discriminate.
  - destruct (H 0 a eq_refl) as (p & Hp & Hc). rewrite Nat.add_0_r in Hp, Hc.
    destruct (IH (S k)) as (bars & Hseq & Hlen & Hall).
    { intros i b Hb. destruct (H (S i) b Hb) as (q & Hq & Hcq).
      rewrite Nat.add_succ_r in Hq, Hcq. now exists q. }
    exists (p :: bars). cbn [mapi_from sequence]. rewrite Hp, Hseq.
    split; [reflexivity|]. split; [simpl; now rewrite Hlen|].
    intros [|i] q Hq.
    + injection Hq as <-. now rewrite Nat.add_0_r.
    + rewrite Nat.add_succ_r. now apply (Hall i q).
Qed.

Lemma pathCheck_spec (color : string) (least : nat) (path : list Styled) :
  pathCheck color least path = true ->
  forallb isCircle path = true /\
  List.length (List.filter hasFill path) = 1 /\
  forallb (fun e => styledWith color e || unstyled e) path = true /\
  least <= List.length path.
Proof.
  destruct path as [|first rest]; [discriminate|]. unfold pathCheck.
  rewrite !andb_true_iff. intros [[[Hc Hf] Hr] Hl]. apply Nat.leb_le in Hl.
  split; [exact Hc|]. split; [|split; [|exact Hl]].
  - cbn [List.filter]. unfold hasFill at 1. unfold styledWith in Hf.
    destruct (fill first); [|discriminate]. simpl. f_equal.
    clear - Hr. induction rest as [|e rest IH]; [reflexivity|].
    simpl in Hr. apply andb_true_iff in Hr as [He Hr]. cbn [List.filter].
    unfold hasFill at 1. unfold unstyled in He.
    destruct (fill e); [discriminate | now apply IH].
  - cbn [forallb]. rewrite Hf. simpl.
    rewrite forallb_forall in Hr. apply forallb_forall. intros e He.
    rewrite (Hr e He). apply orb_true_r.
Qed.

Lemma concat_checked (color : string) (least : nat -> nat)
      (bars : list (list Styled)) :
  forall k,
    (forall i p, nth_error bars i = Some p ->
                 pathCheck color (least (k + i)) p = true) ->
    forallb isCircle (List.concat bars) = true /\
    List.length (List.filter hasFill (List.concat bars)) = List.length bars /\
    forallb (fun e => styledWith color e || unstyled e) (List.concat bars) = true /\
    list_sum (map least (seq k (List.length bars))) <= List.length (List.concat bars).
Proof.
  induction bars as [|p bars IH]; intros k H.
  - repeat split. simpl. lia.
  - pose proof (H 0 p eq_refl) as Hp. rewrite Nat.add_0_r in Hp.
    apply pathCheck_spec in Hp as (Hc & Hf & Hs & Hl).
    destruct (IH (S k)) as (Hc' & Hf' & Hs' & Hl').
    { intros i q Hq. specialize (H (S i) q Hq). now rewrite Nat.add_succ_r in H. }
    cbn [List.concat]. rewrite !forallb_app, filter_app, !length_app.
    rewrite Hc, Hc', Hf, Hf', Hs, Hs'. repeat split.
    cbn [List.length seq map]. unfold list_sum in *. cbn [fold_right]. lia.
Qed.

Lemma circlesCheck_all (i : nat) (v : Z) :
  i < 24 -> (0 <= v <= 35)%Z -> circlesCheck i v = true.
Proof.
  intros Hi Hv.
  assert (Hall : forallb (fun i => forallb (circlesCheck i) ordinals) (seq 0 24)
                 = true) by (vm_compute; reflexivity).
  rewrite forallb_forall in Hall. specialize (Hall i ltac:(apply in_seq; lia)).
  now apply forall_ordinals.
Qed.

(** X18: the circles of the preset "midnightPurple".  Its bars are
    columns of circles, and the fill and the shadow are written into the
    first circle of each bar only: for every valid code the image consists
    of circles, exactly 24 of them, one for each bar, carry the gradient
    and the shadow filter, and all the others, at least 12 since the image
    has at least 36 circles, carry neither a fill nor a filter. *)
Theorem generateThemedWaveCode_svg_midnightPurple
        (Math_cos Math_sin : number -> number) (code : string)
        (preset : Partial.ThemeConfig) :
  isValidCodeFormat code = true ->
  In ("midnightPurple"%string, preset) PRESET_THEMES ->
  exists svg,
    generateThemedWaveCode_svg Math_cos Math_sin code (Some preset) = written svg /\
    forallb isCircle (themedBars svg) = true /\
    List.length (filled svg) = 24 /\
    forallb (fun e => styledWith "url(#barGradient)" e || unstyled e)
            (themedBars svg) = true /\
    36 <= List.length (themedBars svg).
Proof.
  intros Hvalid Hin.
  assert (Hpreset : mergeWithDefault (Some preset) = midnightPurple).
  { unfold PRESET_THEMES in Hin. simpl in Hin.
    repeat (destruct Hin as [Hin | Hin]; [try discriminate Hin|]);
      [|destruct Hin].
    injection Hin as <-. reflexivity. }
  rewrite generateThemedWaveCode_svg_scene, Hpreset.
  destruct (valid_code_values code Hvalid) as [Hlen Hall].
  rewrite codeToWavePattern_flat_map.
  set (vs := codeToNumericValues code) in *.
  unfold themedScene. cbv zeta.
  change (verbatimTheme midnightPurple) with true. cbv iota.
  rewrite length_flat_map_barsOf, Hlen.
  change (themedNumBars midnightPurple (4 * 6)) with 24%float.
  rewrite (slice0_firstn _ 24%float 24 eq_refl ltac:(lia)).
  rewrite firstn_all2 by (rewrite length_flat_map_barsOf, Hlen; simpl; lia).
  destruct (sequence_mapi_from_checked (themedBar midnightPurple 24%float)
              (fun i => pathCheck "url(#barGradient)" (leastCircles i))
              (flat_map barsOf vs) 0) as (bars & Hseq & Hbars & Hchecked).
  { intros i a Ha. cbn [Nat.add].
    assert (Hi : i < 24).
    { assert (Hsome : nth_error (flat_map barsOf vs) i <> None) by congruence.
      apply nth_error_Some in Hsome.
      now rewrite length_flat_map_barsOf, Hlen in Hsome. }
    rewrite nth_error_flat_map_barsOf_any in Ha by (rewrite Hlen; lia).
    injection Ha as <-.
    assert (Hv : (0 <= nth (i / 4) vs 0 <= 35)%Z).
    { rewrite Forall_forall in Hall. apply Hall, nth_In. rewrite Hlen.
      apply Nat.Div0.div_lt_upper_bound. lia. }
    pose proof (circlesCheck_all i _ Hi Hv) as Hc. unfold circlesCheck in Hc.
    destruct (themedBar midnightPurple 24%float _ i) as [path|]; [|discriminate].
    now exists path. }
  unfold mapi. rewrite Hseq. eexists. split; [reflexivity|].
  unfold filled. cbn [themedBars].
  destruct (concat_checked "url(#barGradient)" leastCircles bars 0 Hchecked)
    as (Hc & Hf & Hs & Hl).
  rewrite Hbars, length_flat_map_barsOf, Hlen in Hf, Hl.
  split; [exact Hc|]. split; [exact Hf|]. split; [exact Hs|]. exact Hl.
Qed.

Lemma generateThemedWaveCode_svg_midnightPurple_ABC129 :
  isValidCodeFormat "ABC129" = true /\
  exists preset svg,
    In ("midnightPurple"%string, preset) PRESET_THEMES /\
    generateThemedWaveCode_svg (fun x => x) (fun x => x) "ABC129" (Some preset)
    = written svg /\
    List.length (filled svg) = 24.
Proof.
  split; [reflexivity|]. eexists.
  destruct (generateThemedWaveCode_svg_midnightPurple (fun x => x) (fun x => x)
              "ABC129" _ eq_refl
              (or_intror (or_intror (or_intror (or_intror (or_intror
                 (or_introl eq_refl)))))))
    as (svg & Hsvg & _ & Hfilled & _).
  exists svg. split; [|split; [exact Hsvg | exact Hfilled]].
  do 5 right. left. reflexivity.
Defined.

(** X19: a gradient angle of 0 and a shadow blur of 0, both accepted by
    the theme API, are never drawn: [gradientAngle || 90] and
    [shadowBlur || 2] take 0 for a missing value, so that, for every theme
    and every code, the image with the angle 0 is the image with the
    angle 90, and the image with the blur 0 is the image with the blur
    2. *)
Theorem generateThemedWaveCode_svg_zero_settings
        (Math_cos Math_sin : number -> number) (code : string)
        (theme : ThemeConfig) :
  generateThemedWaveCode_svg Math_cos Math_sin code
    (Some (asPartial (withGradientAngle theme (Some 0%float))))
  = generateThemedWaveCode_svg Math_cos Math_sin code
      (Some (asPartial (withGradientAngle theme (Some 90%float)))) /\
  generateThemedWaveCode_svg Math_cos Math_sin code
    (Some (asPartial (withShadowBlur theme (Some 0%float))))
  = generateThemedWaveCode_svg Math_cos Math_sin code
      (Some (asPartial (withShadowBlur theme (Some 2%float)))).
Proof.
  rewrite !generateThemedWaveCode_svg_scene, !mergeWithDefault_asPartial.
  split; reflexivity.
Qed.

Lemma hexClass_verbatim (c : ascii) :
  hexClass c = true -> negb (Ascii.eqb c "$") && negb (Ascii.eqb c ">") = true.
Proof.
  destruct c as [[] [] [] [] [] [] [] []]; intros H; try reflexivity;
    discriminate H.
Qed.

Lemma colorPattern_test_verbatim (color : string) :
  colorPattern_test color = true -> verbatim color = true.
Proof.
  destruct color as [|a digits]; [discriminate|]. unfold colorPattern_test.
  destruct (Ascii.eqb_spec a "#") as [-> | Hne].
  - intros H. apply andb_true_iff in H as [_ H]. unfold verbatim.
    cbn [list_ascii_of_string forallb]. cbn [Ascii.eqb Bool.eqb negb andb].
    rewrite forallb_forall in H. apply forallb_forall. intros c Hc.
    now apply hexClass_verbatim, H.
  - destruct a as [[] [] [] [] [] [] [] []]; try discriminate.
    now contradiction Hne.
Qed.

Lemma length_slice0 {A} (l : list A) (end_ : number) :
  List.length (slice0 l end_) <= List.length l.
Proof. unfold slice0. rewrite length_firstn. lia. Qed.

(** X20: a theme that the theme API accepts is always drawn.  When the
    colours of the theme match the pattern of the schema and its bars are
    not circles, the themed renderer writes, for every string, an SVG in
    which each bar drawn is one element that carries its fill, with at
    most one bar for each value of the pattern: no colour is altered by
    the replacements that splice the attributes in. *)
Theorem generateThemedWaveCode_svg_written
        (Math_cos Math_sin : number -> number) (code : string)
        (theme : ThemeConfig) :
  colorPattern_test (primary (colorScheme theme)) = true ->
  (forall c, secondary (colorScheme theme) = Some c -> colorPattern_test c = true) ->
  (forall c, shadowColor (effects theme) = Some c -> colorPattern_test c = true) ->
  shape (barStyle theme) <> circular ->
  exists svg,
    generateThemedWaveCode_svg Math_cos Math_sin code (Some (asPartial theme))
    = written svg /\
    filled svg = themedBars svg /\
    List.length (themedBars svg) <= List.length (codeToWavePattern code).
Proof.
  intros Hp Hs Hc Hshape.
  rewrite generateThemedWaveCode_svg_scene, mergeWithDefault_asPartial.
  destruct (themedScene_one_element Math_cos Math_sin theme
              (codeToWavePattern code) Hshape)
    as (svg & Hsvg & Hlen & Hfilled).
  { unfold verbatimTheme. rewrite (colorPattern_test_verbatim _ Hp). cbn [andb].
    apply andb_true_iff. split.
    - destruct (secondary (colorScheme theme)) as [c|]; [|reflexivity].
      now apply colorPattern_test_verbatim, Hs.
    - destruct (shadowColor (effects theme)) as [c|]; [|reflexivity].
      now apply colorPattern_test_verbatim, Hc. }
  exists svg. split; [exact Hsvg|]. split; [exact Hfilled|].
  rewrite Hlen. apply length_slice0.
Qed.

Lemma generateThemedWaveCode_svg_written_default :
  exists svg,
    generateThemedWaveCode_svg (fun x => x) (fun x => x) "ABC129"
      (Some (asPartial DEFAULT_THEME)) = written svg /\
    List.length (themedBars svg) <= 24.
Proof.
  destruct (generateThemedWaveCode_svg_written (fun x => x) (fun x => x)
              "ABC129" DEFAULT_THEME eq_refl)
    as (svg & Hsvg & _ & Hlen).
  - intros c H. discriminate H.
  - intros c H. discriminate H.
  - discriminate.
  - exists svg. split; [exact Hsvg | exact Hlen].
Defined.

(* ================================================================= *)
(** ** Properties of the routes that issue codes *)

Section IssuedCodes.
Variable generateUniqueCode : nat -> string.

Lemma find_seq_cons (p : nat -> bool) (from n : nat) :
  List.find p (seq from (S n))
  = if p from then Some from else List.find p (seq (S from) n).
Proof. reflexivity. Qed.

Lemma regenerate_loop_spec (pages : list string) (n : nat) :
  forall fuel calls attempts,
    attempts + S n = maxAttempts -> S n <= fuel ->
    exists newCode attempts',
      regenerate_loop generateUniqueCode fuel pages calls attempts
      = Some (newCode, attempts') /\
      match List.find (fun j => negb (findUnique pages (generateUniqueCode j)))
                      (seq calls n) with
      | Some j => newCode = generateUniqueCode j /\ attempts' < maxAttempts
      | None => attempts' = maxAttempts
      end.
Proof.
  unfold maxAttempts.
  induction n as [|n IH]; intros [|fuel] calls attempts Ha Hfuel; try lia;
    cbn [regenerate_loop]; cbv zeta.
  - unfold maxAttempts. cbn [seq List.find].
    destruct (findUnique pages (generateUniqueCode calls)); cbn [negb].
    + destruct (Nat.ltb_spec (S attempts) 10); [lia|].
      eexists _, _. split; [reflexivity | lia].
    + eexists _, _. split; [reflexivity | lia].
  - rewrite find_seq_cons.
    destruct (findUnique pages (generateUniqueCode calls)); cbn [negb].
    + unfold maxAttempts. destruct (Nat.ltb_spec (S attempts) 10); [|lia].
      apply IH; lia.
    + eexists _, _. split; [reflexivity|]. split; [reflexivity | lia].
Qed.

(** X21: the code of a regenerated page.  The route draws at most ten
    codes, but goes on only with one of the first nine: it takes the first
    of them that no page has, and when the first nine are all in use it
    answers "Failed to generate unique code", whatever the tenth draw,
    which is made and looked up like the others.  The code it goes on
    with is never the code of a page. *)
Theorem regenerate_newCode_first_free (fuel : nat) (pages : list string) :
  maxAttempts <= fuel ->
  regenerate_newCode generateUniqueCode fuel pages
  = Some match firstFree generateUniqueCode (findUnique pages) 0 with
         | Some j => chosen (generateUniqueCode j)
         | None => failedToGenerate
         end /\
  forall newCode,
    regenerate_newCode generateUniqueCode fuel pages = Some (chosen newCode) ->
    ~ In newCode pages.
Proof.
  intros Hfuel.
  assert (Heq : regenerate_newCode generateUniqueCode fuel pages
                = Some match firstFree generateUniqueCode (findUnique pages) 0 with
                       | Some j => chosen (generateUniqueCode j)
                       | None => failedToGenerate
                       end).
  { unfold regenerate_newCode, firstFree.
    destruct (regenerate_loop_spec pages 9 fuel 0 0 eq_refl Hfuel)
      as (newCode & attempts & -> & H).
    destruct (List.find _ (seq 0 9)) as [j|].
    - destruct H as [-> Hlt]. unfold maxAttempts in *.
      destruct (Nat.leb_spec 10 attempts); [lia | reflexivity].
    - rewrite H. reflexivity. }
  split; [exact Heq|].
  intros newCode Hc. rewrite Heq in Hc. unfold firstFree in Hc.
  destruct (List.find _ (seq 0 9)) as [j|] eqn:Hfind; [|discriminate].
  injection Hc as <-. apply find_some in Hfind as [_ Hfree].
  apply negb_true_iff in Hfree. intros Hin.
  assert (Htrue : findUnique pages (generateUniqueCode j) = true).
  { unfold findUnique. apply existsb_exists. exists (generateUniqueCode j).
    split; [exact Hin | apply String.eqb_refl]. }
  congruence.
Qed.
End IssuedCodes.

Lemma regenerate_newCode_first_free_nineRepeats :
  findUnique ["AAAAAA"%string] (nineRepeats 9) = false /\
  regenerate_newCode nineRepeats 10 ["AAAAAA"%string] = Some failedToGenerate.
Proof.
  split; [reflexivity|].
  exact (proj1 (regenerate_newCode_first_free nineRepeats 10 ["AAAAAA"%string]
                  (le_n 10))).
Defined.

Section GeneratedPages.
Variable generateUniqueCode : nat -> string.
Variable Buffer : Type.
Variable generatePrintableWaveCode : string -> Promise Buffer.
Variable storeImage : string -> Buffer -> Promise string.
Variable createPage : AudioLinkInput -> string -> string -> Promise unit.

Lemma generate_loop_spec (existingCodes pages : list string) (n : nat) :
  forall fuel calls attempts,
    attempts + S n = maxAttempts -> S n <= fuel ->
    exists code attempts' calls',
      generate_loop generateUniqueCode fuel existingCodes pages calls attempts
      = Some (code, attempts', calls') /\
      match List.find (fun j => negb (taken existingCodes pages (generateUniqueCode j)))
                      (seq calls n) with
      | Some j =>
          code = generateUniqueCode j /\ attempts' < maxAttempts /\ calls' = S j
      | None => attempts' = maxAttempts /\ calls' = calls + S n
      end.
Proof.
  unfold maxAttempts, taken.
  induction n as [|n IH]; intros [|fuel] calls attempts Ha Hfuel; try lia;
    cbn [generate_loop]; cbv zeta; unfold maxAttempts.
  - cbn [seq List.find].
    destruct (Nat.ltb_spec (S attempts) 10); [lia|]. rewrite andb_false_r.
    eexists _, _, _. split; [reflexivity | lia].
  - rewrite find_seq_cons.
    destruct (Nat.ltb_spec (S attempts) 10); [|lia]. rewrite andb_true_r.
    destruct (Set_has String.eqb existingCodes (generateUniqueCode calls)
              || findUnique pages (generateUniqueCode calls)); cbn [negb].
    + destruct (IH fuel (S calls) (S attempts) ltac:(lia) ltac:(lia))
        as (code & attempts' & calls' & Hloop & Hspec).
      exists code, attempts', calls'. split; [exact Hloop|].
      destruct (List.find _ (seq (S calls) n)); [exact Hspec | lia].
    + eexists _, _, _. split; [reflexivity|]. repeat split. lia.
Qed.

Lemma findUnique_true (pages : list string) (code : string) :
  findUnique pages code = true <-> In code pages.
Proof.
  unfold findUnique. rewrite existsb_exists. split.
  - intros (y & Hy & Heq). apply String.eqb_eq in Heq. now subst.
  - intros Hin. exists code. split; [exact Hin | apply String.eqb_refl].
Qed.

Lemma successCodes_push (results : list Result.t) (r : Result.t) :
  successCodes (push results r)
  = successCodes results ++ (if Result.success r then [Result.code r] else []).
Proof.
  unfold successCodes, push. rewrite filter_app, map_app. cbn [List.filter].
  now destruct (Result.success r).
Qed.

Lemma generate_page_spec (fuel : nat) (state : State) (link : AudioLinkInput) :
  maxAttempts <= fuel ->
  exists state' r,
    generate_page generateUniqueCode Buffer generatePrintableWaveCode storeImage
                  createPage fuel state link = Some state' /\
    results state' = push (results state) r /\
    Result.pageNumber r = pageNumber link /\
    (Result.success r = false -> Result.code r = ""%string) /\
    (forall c, In c (existingCodes state) -> In c (existingCodes state')) /\
    (forall c, In c (pages state) -> In c (pages state')) /\
    (Result.success r = true ->
     In (Result.code r) (existingCodes state') /\
     ~ In (Result.code r) (existingCodes state) /\
     ~ In (Result.code r) (pages state)) /\
    match firstFree generateUniqueCode
                    (taken (existingCodes state) (pages state)) (calls state) with
    | Some j =>
        calls state' = S j /\
        (Result.success r = true -> Result.code r = generateUniqueCode j)
    | None =>
        r = failure (pageNumber link) "Failed to generate unique code" /\
        calls state' = calls state + maxAttempts
    end.
Proof.
  intros Hfuel. unfold generate_page, firstFree.
  destruct (generate_loop_spec (existingCodes state) (pages state) 9 fuel
              (calls state) 0 eq_refl Hfuel)
    as (code & attempts & calls' & -> & H).
  destruct (List.find _ (seq (calls state) 9)) as [j|] eqn:Hfind.
  - destruct H as (-> & Hlt & ->). unfold maxAttempts in Hlt |- *.
    destruct (Nat.leb_spec 10 attempts); [lia|].
    apply find_some in Hfind as [_ Hfree]. apply negb_true_iff in Hfree.
    unfold taken in Hfree. apply orb_false_iff in Hfree as [Hhas Hfound].
    assert (Hnew : ~ In (generateUniqueCode j) (existingCodes state)).
    { intros Hin. apply Set_has_true in Hin. congruence. }
    assert (Hnot : ~ In (generateUniqueCode j) (pages state)).
    { intros Hin. apply findUnique_true in Hin. congruence. }
    destruct (await (generatePrintableWaveCode (generateUniqueCode j)) _)
      as [imageUrl | message]; eexists _, _; (split; [reflexivity|]);
      cbn [results existingCodes pages calls Result.pageNumber Result.success
           Result.code failure];
      (split; [reflexivity|]); (split; [reflexivity|]).
    + split; [discriminate|].
      split; [intros c Hc; apply Set_add_In; now left|].
      split; [intros c Hc; unfold push; apply in_app_iff; now left|].
      split; [|split; [reflexivity | reflexivity]].
      intros _. split; [apply Set_add_In; now right | now split].
    + split; [reflexivity|].
      split; [intros c Hc; apply Set_add_In; now left|].
      split; [tauto|]. split; [discriminate|]. split; [reflexivity | discriminate].
  - destruct H as [-> ->]. unfold maxAttempts. cbn [Nat.leb].
    eexists _, _. split; [reflexivity|].
    cbn [results existingCodes pages calls Result.pageNumber Result.success
         Result.code failure].
    split; [reflexivity|]. split; [reflexivity|]. split; [reflexivity|].
    split; [tauto|]. split; [tauto|]. split; [discriminate|].
    split; [reflexivity | lia].
Qed.

Lemma generate_pages_spec (fuel : nat) (pages0 : list string)
      (audioLinks : list AudioLinkInput) :
  maxAttempts <= fuel ->
  forall state,
    issued pages0 state ->
    exists state',
      generate_pages generateUniqueCode Buffer generatePrintableWaveCode storeImage
                     createPage fuel state audioLinks = Some state' /\
      issued pages0 state' /\
      exists added,
        results state' = results state ++ added /\
        map Result.pageNumber added = map pageNumber audioLinks /\
        Forall (fun r => Result.success r = false -> Result.code r = ""%string) added.
Proof.
  intros Hfuel. induction audioLinks as [|link rest IH]; intros state Hinv.
  - exists state. split; [reflexivity|]. split; [exact Hinv|].
    exists []. now rewrite app_nil_r.
  - cbn [generate_pages].
    destruct (generate_page_spec fuel state link Hfuel)
      as (state1 & r & -> & Hres & Hnum & Hfail & Hex & Hpg & Hok & _).
    destruct Hinv as (Hnd & Hcodes & Hsub).
    assert (Hinv1 : issued pages0 state1).
    { unfold issued. rewrite Hres, successCodes_push.
      destruct (Result.success r) eqn:Hs.
      - destruct (Hok eq_refl) as (Hin & Hnew & Hnot). split; [|split].
        + apply NoDup_app; [exact Hnd | repeat constructor; intros [] |].
          intros c Hc [<- | []]. apply Hnew. now apply Hcodes.
        + intros c Hc. apply in_app_iff in Hc as [Hc | [<- | []]].
          * destruct (Hcodes c Hc) as [Hce Hcp]. split; [now apply Hex | exact Hcp].
          * split; [exact Hin|]. intros Hp. apply Hnot. now apply Hsub.
        + intros c Hc. now apply Hpg, Hsub.
      - rewrite app_nil_r. split; [exact Hnd|]. split.
        + intros c Hc. destruct (Hcodes c Hc) as [Hce Hcp].
          split; [now apply Hex | exact Hcp].
        + intros c Hc. now apply Hpg, Hsub. }
    destruct (IH state1 Hinv1) as (state' & Hrun & Hinv' & added & Hadd & Hnums & Hfails).
    exists state'. split; [exact Hrun|]. split; [exact Hinv'|].
    exists (r :: added). rewrite Hadd, Hres. unfold push.
    rewrite <- app_assoc. split; [reflexivity|].
    split; [cbn [map]; now rewrite Hnum, Hnums|].
    constructor; [exact Hfail | exact Hfails].
Qed.

Lemma length_filter_partition {A} (p : A -> bool) (l : list A) :
  List.length (List.filter p l) + List.length (List.filter (fun a => negb (p a)) l)
  = List.length l.
Proof.
  induction l as [|a l IH]; simpl; [reflexivity|].
  destruct (p a); simpl; lia.
Qed.

(** X22: the codes given to the pages of a book.  The route answers with
    one result for each audio link, in the order of the links, and its
    counts add up; the codes of the pages it made are pairwise distinct
    and none of them was the code of a page of the table; a result that
    failed has the empty code. *)
Theorem generate_codes_distinct (fuel : nat) (pages : list string)
        (audioLinks : list AudioLinkInput) :
  maxAttempts <= fuel ->
  exists response,
    generate_codes generateUniqueCode Buffer generatePrintableWaveCode storeImage
                   createPage fuel pages audioLinks = Some response /\
    map Result.pageNumber (response_results response) = map pageNumber audioLinks /\
    totalPages response = List.length audioLinks /\
    successfulPages response + failedPages response = totalPages response /\
    (response_success response = true <->
     successfulPages response = totalPages response) /\
    NoDup (successCodes (response_results response)) /\
    (forall c, In c (successCodes (response_results response)) -> ~ In c pages) /\
    (forall r, In r (response_results response) ->
               Result.success r = false -> Result.code r = ""%string).
Proof.
  intros Hfuel. unfold generate_codes. cbv zeta.
  destruct (generate_pages_spec fuel pages audioLinks Hfuel
              {| calls := 0; existingCodes := []; Routes.pages := pages;
                 results := [] |})
    as (state & -> & (Hnd & Hcodes & _) & added & Hadd & Hnums & Hfails).
  { split; [constructor|]. split; [intros c []|]. tauto. }
  cbn [results app] in Hadd. eexists. split; [reflexivity|].
  cbn [response_results totalPages successfulPages failedPages response_success].
  assert (Hlen : List.length (results state) = List.length audioLinks).
  { rewrite Hadd, <- (length_map Result.pageNumber), Hnums. apply length_map. }
  pose proof (length_filter_partition Result.success (results state)) as Hpart.
  split; [now rewrite Hadd|]. split; [reflexivity|].
  split; [lia|]. split; [rewrite Nat.eqb_eq; lia|].
  split; [exact Hnd|]. split; [intros c Hc; now apply Hcodes|].
  intros r Hr. rewrite Hadd in Hr. rewrite Forall_forall in Hfails.
  now apply Hfails.
Qed.

(** X23: the code of one page of the book.  As in the regenerate route,
    only nine of the ten draws count: the page is given the first of the
    nine codes drawn that is neither in [existingCodes] nor in the table,
    if the image and the page can be made; when all nine are taken the
    page fails with "Failed to generate unique code" after a tenth draw
    that is not looked at. *)
Theorem generate_page_first_free (fuel : nat) (state : State)
        (link : AudioLinkInput) :
  maxAttempts <= fuel ->
  exists state' r,
    generate_page generateUniqueCode Buffer generatePrintableWaveCode storeImage
                  createPage fuel state link = Some state' /\
    results state' = push (results state) r /\
    match firstFree generateUniqueCode
                    (taken (existingCodes state) (pages state)) (calls state) with
    | Some j =>
        calls state' = S j /\
        (Result.success r = true -> Result.code r = generateUniqueCode j)
    | None =>
        r = failure (pageNumber link) "Failed to generate unique code" /\
        calls state' = calls state + maxAttempts
    end.
Proof.
  intros Hfuel.
  destruct (generate_page_spec fuel state link Hfuel)
    as (state' & r & Hrun & Hres & _ & _ & _ & _ & _ & H).
  exists state', r. split; [exact Hrun|]. split; [exact Hres | exact H].
Qed.
End GeneratedPages.

Lemma generate_codes_distinct_twoLinks :
  exists response,
    generate_codes sampleDraws string failsOnBAD000 storeAsDataUrl createAlways
                   10 [] twoLinks = Some response /\
    successCodes (response_results response) = ["AAAAAA"; "ABC123"]%string /\
    NoDup (successCodes (response_results response)).
Proof.
  destruct (generate_codes_distinct sampleDraws string failsOnBAD000
              storeAsDataUrl createAlways 10 [] twoLinks (le_n 10))
    as (response & Hrun & _ & _ & _ & _ & Hnd & _).
  exists response. split; [exact Hrun|]. split; [|exact Hnd].
  vm_compute in Hrun. injection Hrun as <-. reflexivity.
Defined.

Lemma generate_page_first_free_nineRepeats :
  exists state',
    generate_page nineRepeats string failsOnBAD000 storeAsDataUrl createAlways 10
      {| calls := 0; existingCodes := []; pages := ["AAAAAA"%string];
         results := [] |}
      {| pageNumber := 1%float; audioLink := "https://example.com/1.mp3" |}
    = Some state' /\
    results state' = [failure 1%float "Failed to generate unique code"] /\
    calls state' = 10 /\
    taken [] ["AAAAAA"%string] (nineRepeats 9) = false.
Proof.
  destruct (generate_page_first_free nineRepeats string failsOnBAD000
              storeAsDataUrl createAlways 10
              {| calls := 0; existingCodes := []; pages := ["AAAAAA"%string];
                 results := [] |}
              {| pageNumber := 1%float; audioLink := "https://example.com/1.mp3" |}
              (le_n 10))
    as (state' & r & Hrun & Hres & H).
  exists state'. split; [exact Hrun|].
  change (firstFree nineRepeats (taken [] ["AAAAAA"%string]) 0) with (@None nat) in H.
  destruct H as [-> Hcalls]. split; [exact Hres|]. split; [exact Hcalls | reflexivity].
Defined.
